(** * Report-mail reconciliation: a model of [process_emails.py]

    The development embeds the extraction-and-normalisation pipeline of
    [EmailProcessor]: the date normalisers ([_parse_date],
    [_parse_date_with_year]), the two CSV dialect parsers
    ([parse_csv_source1], [parse_csv_source2]), the attachment and link
    extractors ([extract_attachment], [extract_csv_link]) and the
    create-or-update step against the record store
    ([check_notion_entry_exists], [create_or_update_notion_entry]).

    Conventions.
    - A Python [str] is a [string]; a character of the [string] is the
      code point of that number, U+0000 to U+00FF, and the [str] methods
      below are given the behaviour they have on that range.
    - A Python exception that the source catches is an [option] inside the
      function that catches it; one that escapes a function is the [Raise]
      case of [result].
    - [datetime.now()], the C library behind [strftime] and the limit of
      [int] on long digit strings are the [runtime] parameter of the
      functions that use them.
    - A [float] is the rational its literal denotes, or the infinity that
      [float] returns for a literal beyond the range of a double; binary
      rounding within the range is not modelled.
    - A call to the record store can raise; whether it does is the [faults]
      parameter of the functions that call it, and a call that raises
      leaves the store as it is. *)

From Stdlib Require Import String Ascii List ZArith NArith QArith Qabs Bool Lia DecimalString.
Import ListNotations.

Local Open Scope string_scope.
Local Open Scope Z_scope.

(** ** Python [str] methods, code points below 256 *)

Module Py.

Definition code (c : ascii) : N := N_of_ascii c.

Definition in_range (lo hi c : ascii) : bool :=
  (code lo <=? code c)%N && (code c <=? code hi)%N.

(** [c.isdecimal()]: the class a [str] pattern matches with [\d] and the
    digits [int] and [float] accept. *)
Definition is_decimal (c : ascii) : bool := in_range "0" "9" c.

(** [c.isdigit()]: the decimal digits and the superscripts two, three
    (U+00B2, U+00B3) and one (U+00B9). *)
Definition is_digit (c : ascii) : bool :=
  is_decimal c || in_range "178" "179" c || (code c =? 185)%N.

(** [c.isspace()], which is also what [str.strip()] removes and what a
    [str] pattern matches with [\s]: TAB, LF, VT, FF, CR, FS, GS, RS, US,
    the space, the next-line control U+0085 and the no-break space
    U+00A0. *)
Definition is_space (c : ascii) : bool :=
  in_range "009" "013" c || in_range "028" "031" c || (code c =? 32)%N ||
  (code c =? 133)%N || (code c =? 160)%N.

(** [c.lower()]: the letters A to Z and U+00C0 to U+00DE, the
    multiplication sign U+00D7 apart, move 32 places up. *)
Definition lower_char (c : ascii) : ascii :=
  if in_range "A" "Z" c || (in_range "192" "222" c && negb (code c =? 215)%N)
  then ascii_of_N (code c + 32) else c.

Fixpoint lower (s : string) : string :=
  match s with
  | EmptyString => EmptyString
  | String c r => String (lower_char c) (lower r)
  end.

Fixpoint all_chars (p : ascii -> bool) (s : string) : bool :=
  match s with
  | EmptyString => true
  | String c r => p c && all_chars p r
  end.

Definition is_empty (s : string) : bool :=
  match s with EmptyString => true | _ => false end.

(** [s.isdigit()]: at least one character, all of them digits. *)
Definition isdigit (s : string) : bool :=
  negb (is_empty s) && all_chars is_digit s.

Fixpoint lstrip (s : string) : string :=
  match s with
  | String c r => if is_space c then lstrip r else s
  | EmptyString => EmptyString
  end.

(** [rstrip] keeps a character when it is not a space or when something
    survives to its right. *)
Fixpoint rstrip (s : string) : string :=
  match s with
  | EmptyString => EmptyString
  | String c r =>
      match rstrip r with
      | EmptyString => if is_space c then EmptyString else String c EmptyString
      | r' => String c r'
      end
  end.

Definition strip (s : string) : string := rstrip (lstrip s).

(** [s.replace('.', '', 1)]. *)
Fixpoint replace_first_dot (s : string) : string :=
  match s with
  | EmptyString => EmptyString
  | String c r => if (c =? ".")%char then r else String c (replace_first_dot r)
  end.

Fixpoint starts_with (p s : string) : bool :=
  match p, s with
  | EmptyString, _ => true
  | String a p', String b s' => (a =? b)%char && starts_with p' s'
  | String _ _, EmptyString => false
  end.

(** [p in s]. *)
Fixpoint contains (p s : string) : bool :=
  starts_with p s ||
  match s with
  | EmptyString => false
  | String _ r => contains p r
  end.

Fixpoint rev_string (s acc : string) : string :=
  match s with
  | EmptyString => acc
  | String c r => rev_string r (String c acc)
  end.

(** [s.endswith(p)]. *)
Definition endswith (p s : string) : bool :=
  starts_with (rev_string p EmptyString) (rev_string s EmptyString).

Definition digit_val (c : ascii) : Z :=
  if is_decimal c then Z.of_N (code c) - 48 else 0.

(** [int(s)] for a string of decimal digits, most significant first. *)
Fixpoint int_digits (acc : Z) (s : string) : Z :=
  match s with
  | EmptyString => acc
  | String c r => int_digits (10 * acc + digit_val c) r
  end.

(** [s.split(sep)] for a one-character separator. *)
Fixpoint split_on (sep : ascii) (s : string) : list string :=
  match s with
  | EmptyString => [EmptyString]
  | String c r =>
      if (c =? sep)%char then EmptyString :: split_on sep r
      else match split_on sep r with
           | x :: xs => String c x :: xs
           | [] => [String c EmptyString]
           end
  end.

(** [sep.join(l)]. *)
Fixpoint join (sep : string) (l : list string) : string :=
  match l with
  | [] => EmptyString
  | [x] => x
  | x :: xs => x ++ sep ++ join sep xs
  end.

Fixpoint take (n : nat) (s : string) : string :=
  match n, s with
  | S k, String c r => String c (take k r)
  | _, _ => EmptyString
  end.

End Py.

(** The first success of [f] along a list, in order: the shape of every
    [for ...: try: return ... except ValueError: continue] loop below. *)
Fixpoint first_some {A B : Type} (f : A -> option B) (l : list A) : option B :=
  match l with
  | [] => None
  | x :: xs => match f x with Some y => Some y | None => first_some f xs end
  end.

(** ** [datetime.strptime] and [strftime]

    CPython compiles a format to a regular expression, one ordered
    alternation per directive, matches it at the start of the text with
    backtracking and then rejects a match that leaves text unconverted
    ([_strptime.py]).  [run] is that backtracking match; [candidates] lists
    what one directive can consume, in the order of its alternation. *)

Module Strptime.

Record tm := mktm {
  tm_year : Z; tm_mon : Z; tm_mday : Z;
  tm_hour : Z; tm_min : Z; tm_sec : Z }.

(** What [strptime] assumes for a directive the format does not have. *)
Definition tm_default : tm := mktm 1900 1 1 0 0 0.

Inductive item :=
| FYear   (* %Y *)
| FMonth  (* %m *)
| FDay    (* %d *)
| FHour   (* %H *)
| FMinute (* %M *)
| FSecond (* %S *)
| FAbbr   (* %b *)
| FFull   (* %B *)
| FLit (c : ascii)
| FSpace  (* a blank of the format: one or more spaces of the text *).

Definition is_char (a c : ascii) : bool := (a =? c)%char.

Definition one (p : ascii -> bool) (s : string) : option (Z * string) :=
  match s with
  | String c r => if p c then Some (Py.digit_val c, r) else None
  | _ => None
  end.

Definition two (p1 p2 : ascii -> bool) (s : string) : option (Z * string) :=
  match s with
  | String a (String b r) =>
      if p1 a && p2 b then Some (10 * Py.digit_val a + Py.digit_val b, r) else None
  | _ => None
  end.

Definition four (s : string) : option (Z * string) :=
  match s with
  | String a (String b (String c (String d r))) =>
      if Py.is_decimal a && Py.is_decimal b && Py.is_decimal c && Py.is_decimal d
      then Some (Py.int_digits 0 (String a (String b (String c (String d EmptyString)))), r)
      else None
  | _ => None
  end.

(** A month name, compared without regard to case. *)
Fixpoint name_prefix (name s : string) : option string :=
  match name, s with
  | EmptyString, _ => Some s
  | String a n', String b s' =>
      if (Py.lower_char a =? Py.lower_char b)%char then name_prefix n' s' else None
  | String _ _, EmptyString => None
  end.

Definition named (name : string) (v : Z) (s : string) : option (Z * string) :=
  match name_prefix name s with
  | Some r => Some (v, r)
  | None => None
  end.

Definition D := Py.is_decimal.
Definition R := Py.in_range.

(** The alternations of [TimeRE]; the month names are those of the C
    locale, the full names sorted by decreasing length as [__seqToRE]
    does. *)
Definition alternation (it : item) : list (string -> option (Z * string)) :=
  match it with
  | FYear   => [four]
  | FMonth  => [two (is_char "1") (R "0" "2"); two (is_char "0") (R "1" "9"); one (R "1" "9")]
  | FDay    => [two (is_char "3") (R "0" "1"); two (R "1" "2") D;
                two (is_char "0") (R "1" "9"); one (R "1" "9");
                two (is_char " ") (R "1" "9")]
  | FHour   => [two (is_char "2") (R "0" "3"); two (R "0" "1") D; one D]
  | FMinute => [two (R "0" "5") D; one D]
  | FSecond => [two (is_char "6") (R "0" "1"); two (R "0" "5") D; one D]
  | FAbbr   => [named "jan" 1; named "feb" 2; named "mar" 3; named "apr" 4;
                named "may" 5; named "jun" 6; named "jul" 7; named "aug" 8;
                named "sep" 9; named "oct" 10; named "nov" 11; named "dec" 12]
  | FFull   => [named "september" 9; named "february" 2; named "november" 11;
                named "december" 12; named "january" 1; named "october" 10;
                named "august" 8; named "march" 3; named "april" 4;
                named "june" 6; named "july" 7; named "may" 5]
  | FLit c  => [fun s => match s with
                         | String b r => if (b =? c)%char then Some (0, r) else None
                         | _ => None
                         end]
  | FSpace  => []
  end.

(** [\s+], greedy: the longest run of spaces first, then shorter ones. *)
Fixpoint spaces (s : string) : list (Z * string) :=
  match s with
  | String c r => if Py.is_space c then spaces r ++ [(0, r)] else []
  | EmptyString => []
  end.

Fixpoint collect (alts : list (string -> option (Z * string))) (s : string)
  : list (Z * string) :=
  match alts with
  | [] => []
  | f :: fs => match f s with
               | Some x => x :: collect fs s
               | None => collect fs s
               end
  end.

Definition candidates (it : item) (s : string) : list (Z * string) :=
  match it with
  | FSpace => spaces s
  | _ => collect (alternation it) s
  end.

Definition set_field (it : item) (v : Z) (t : tm) : tm :=
  match it with
  | FYear => mktm v (tm_mon t) (tm_mday t) (tm_hour t) (tm_min t) (tm_sec t)
  | FMonth | FAbbr | FFull =>
      mktm (tm_year t) v (tm_mday t) (tm_hour t) (tm_min t) (tm_sec t)
  | FDay => mktm (tm_year t) (tm_mon t) v (tm_hour t) (tm_min t) (tm_sec t)
  | FHour => mktm (tm_year t) (tm_mon t) (tm_mday t) v (tm_min t) (tm_sec t)
  | FMinute => mktm (tm_year t) (tm_mon t) (tm_mday t) (tm_hour t) v (tm_sec t)
  | FSecond => mktm (tm_year t) (tm_mon t) (tm_mday t) (tm_hour t) (tm_min t) v
  | FLit _ | FSpace => t
  end.

Fixpoint run (fmt : list item) (s : string) (t : tm) : option (tm * string) :=
  match fmt with
  | [] => Some (t, s)
  | it :: fmt' =>
      first_some (fun vr => run fmt' (snd vr) (set_field it (fst vr) t))
                 (candidates it s)
  end.

Definition is_leap (y : Z) : bool :=
  ((y mod 4 =? 0) && negb (y mod 100 =? 0)) || (y mod 400 =? 0).

Definition days_in_month (y m : Z) : Z :=
  if m =? 2 then (if is_leap y then 29 else 28)
  else if (m =? 4) || (m =? 6) || (m =? 9) || (m =? 11) then 30
  else 31.

(** The checks of the [date] and [datetime] constructors. *)
Definition valid_date (y m d : Z) : bool :=
  (1 <=? y) && (y <=? 9999) && (1 <=? m) && (m <=? 12) &&
  (1 <=? d) && (d <=? days_in_month y m).

Definition valid_tm (t : tm) : bool :=
  valid_date (tm_year t) (tm_mon t) (tm_mday t) &&
  (0 <=? tm_hour t) && (tm_hour t <=? 23) &&
  (0 <=? tm_min t) && (tm_min t <=? 59) &&
  (0 <=? tm_sec t) && (tm_sec t <=? 59).

(** [datetime.strptime(s, fmt)]; [None] is its [ValueError]: no match,
    unconverted text, or field values that are no date (a year-less
    "02/29" is checked in 1900 and is none; a second of 60 or 61 matches
    [%S] and is refused by the constructor). *)
Definition strptime (fmt : list item) (s : string) : option tm :=
  match run fmt s tm_default with
  | Some (t, EmptyString) => if valid_tm t then Some t else None
  | _ => None
  end.

(** [dt.replace(year=y)]; [None] is its [ValueError]. *)
Definition replace_year (y : Z) (t : tm) : option tm :=
  let t' := mktm y (tm_mon t) (tm_mday t) (tm_hour t) (tm_min t) (tm_sec t) in
  if valid_tm t' then Some t' else None.

Definition digit_char (n : Z) : ascii := ascii_of_N (48 + Z.to_N (n mod 10)).

Definition pad2 (n : Z) (rest : string) : string :=
  String (digit_char (n / 10)) (String (digit_char n) rest).

Definition pad4 (n : Z) (rest : string) : string :=
  String (digit_char (n / 1000)) (String (digit_char (n / 100)) (pad2 n rest)).

(** The year as the C library prints it without zero-fill. *)
Definition bare_year (n : Z) (rest : string) : string :=
  if n <? 10 then String (digit_char n) rest
  else if n <? 100 then pad2 n rest
  else if n <? 1000 then String (digit_char (n / 100)) (pad2 n rest)
  else pad4 n rest.

(** [dt.strftime('%Y-%m-%d')].  CPython hands [%Y] to the C library:
    most fill the year with zeros to four digits, glibc does not (on
    Linux, up to CPython 3.12 at least, year 999 is printed on three
    digits).  [zero_fill] says which library runs. *)
Definition strftime (zero_fill : bool) (t : tm) : string :=
  (if zero_fill then pad4 else bare_year) (tm_year t)
    (String "-" (pad2 (tm_mon t) (String "-" (pad2 (tm_mday t) EmptyString)))).

End Strptime.

Import Strptime.

(** ** The date normalisers *)

(** The [formats] list of [_parse_date]. *)
Definition full_formats : list (list item) :=
  [ [FYear; FLit "-"; FMonth; FLit "-"; FDay];                      (* %Y-%m-%d *)
    [FMonth; FLit "/"; FDay; FLit "/"; FYear];                      (* %m/%d/%Y *)
    [FDay; FLit "/"; FMonth; FLit "/"; FYear];                      (* %d/%m/%Y *)
    [FYear; FLit "-"; FMonth; FLit "-"; FDay; FSpace;
     FHour; FLit ":"; FMinute; FLit ":"; FSecond];                  (* %Y-%m-%d %H:%M:%S *)
    [FMonth; FLit "/"; FDay; FLit "/"; FYear; FSpace;
     FHour; FLit ":"; FMinute; FLit ":"; FSecond];                  (* %m/%d/%Y %H:%M:%S *)
    [FDay; FLit "-"; FMonth; FLit "-"; FYear];                      (* %d-%m-%Y *)
    [FYear; FLit "/"; FMonth; FLit "/"; FDay] ].                    (* %Y/%m/%d *)

(** The [formats] list of [_parse_date_with_year]. *)
Definition yearless_formats : list (list item) :=
  [ [FMonth; FLit "/"; FDay];     (* %m/%d *)
    [FDay; FLit "/"; FMonth];     (* %d/%m *)
    [FAbbr; FSpace; FDay];        (* %b %d *)
    [FFull; FSpace; FDay] ].      (* %B %d *)

(** What a run reads from its environment: the clock, [datetime.now()],
    the C library behind [strftime], and the interpreter's limit on the
    digits [int] converts ([sys.get_int_max_str_digits()], 4300 by default
    since CPython 3.11, 0 for no limit). *)
Record runtime := mkruntime {
  now : tm;
  zero_fill_year : bool;
  int_max_str_digits : nat }.

Definition today_str (rt : runtime) : string :=
  strftime (zero_fill_year rt) (now rt).

(** The loop of [_parse_date]: the first format that parses the stripped
    token. *)
Definition full_date (date_str : string) : option tm :=
  first_some (fun fmt => strptime fmt (Py.strip date_str)) full_formats.

(** [_parse_date]: today's date for a blank token, else the first format
    that parses the stripped token, else today's date. *)
Definition _parse_date (rt : runtime) (date_str : string) : string :=
  if Py.is_empty date_str || Py.is_empty (Py.strip date_str) then today_str rt
  else
    match full_date date_str with
    | Some dt => strftime (zero_fill_year rt) dt
    | None => today_str rt
    end.

(** What [dt.replace(year=year)] accepts before it looks at the calendar:
    a year that fits a C [int]; any other is an [OverflowError]. *)
Definition fits_c_int (y : Z) : bool :=
  (- 2147483648 <=? y) && (y <=? 2147483647).

(** How the loop of [_parse_date_with_year] ends. *)
Inductive attempt :=
| Replaced (dt : tm)   (* a format parsed the token and the year was accepted *)
| Overflow             (* a format parsed the token, the year fits no C int *)
| Unparsed.            (* every format ended in a [ValueError] *)

(** The loop of [_parse_date_with_year].  The [ValueError] of [strptime]
    and of [replace] moves on to the next format; the [OverflowError] of
    [replace] leaves the loop. *)
Fixpoint yearless_date (date_str : string) (year : Z) (fmts : list (list item))
  : attempt :=
  match fmts with
  | [] => Unparsed
  | fmt :: rest =>
      match strptime fmt date_str with
      | None => yearless_date date_str year rest
      | Some dt =>
          if fits_c_int year then
            match replace_year year dt with
            | Some dt' => Replaced dt'
            | None => yearless_date date_str year rest
            end
          else Overflow
      end
  end.

(** [f"{year}-01-01"]. *)
Definition first_of_january (year : Z) : string :=
  NilZero.string_of_int (Z.to_int year) ++ "-01-01".

(** [_parse_date_with_year]: the first year-less format that parses the
    token and accepts the year, else [_parse_date].  The outer handler,
    which returns [f"{year}-01-01"], is reached by the one exception of the
    loop that is no [ValueError], the [OverflowError]; with a [str] token
    nothing else raises. *)
Definition _parse_date_with_year (rt : runtime) (date_str : string) (year : Z) : string :=
  match yearless_date date_str year yearless_formats with
  | Replaced dt => strftime (zero_fill_year rt) dt
  | Overflow => first_of_january year
  | Unparsed => _parse_date rt date_str
  end.

(** ** Results of functions that can raise *)

Inductive exn :=
| CsvError (msg : string).

Inductive result (A : Type) :=
| Ok (a : A)
| Raise (e : exn).

Arguments Ok {A} a.
Arguments Raise {A} e.

Definition bind {A B : Type} (x : result A) (f : A -> result B) : result B :=
  match x with
  | Ok a => f a
  | Raise e => Raise e
  end.

Notation "x <- c ;; k" := (bind c (fun x => k))
  (at level 61, c at next level, right associativity).

(** ** [float(s)] *)

Inductive amount :=
| Finite (q : Q)
| Infinity (negative : bool)
| NaN.

Module Float.

(** What [float] does to a [str] before it reads it: a character from
    U+007F on becomes a space when it is white space and a character no
    literal holds otherwise. *)
Definition to_ascii (c : ascii) : ascii :=
  if (Py.code c <? 127)%N then c else if Py.is_space c then " "%char else "?"%char.

Fixpoint transform (s : string) : string :=
  match s with
  | EmptyString => EmptyString
  | String c r => String (to_ascii c) (transform r)
  end.

(** The C-locale [isspace] that [float] strips at both ends. *)
Definition c_space (c : ascii) : bool :=
  Py.in_range "009" "013" c || (Py.code c =? 32)%N.

Fixpoint lstrip (s : string) : string :=
  match s with
  | String c r => if c_space c then lstrip r else s
  | EmptyString => EmptyString
  end.

Fixpoint rstrip (s : string) : string :=
  match s with
  | EmptyString => EmptyString
  | String c r =>
      match rstrip r with
      | EmptyString => if c_space c then EmptyString else String c EmptyString
      | r' => String c r'
      end
  end.

(** Underscores are dropped when each stands between two digits; any other
    underscore is a [ValueError]. *)
Fixpoint drop_underscores (prev : ascii) (s : string) : option string :=
  match s with
  | EmptyString => if (prev =? "_")%char then None else Some EmptyString
  | String c r =>
      if (c =? "_")%char then
        if Py.is_decimal prev then drop_underscores c r else None
      else if (prev =? "_")%char && negb (Py.is_decimal c) then None
      else match drop_underscores c r with
           | Some r' => Some (String c r')
           | None => None
           end
  end.

(** The longest prefix of digits and what follows it. *)
Fixpoint digits (s : string) : string * string :=
  match s with
  | String c r =>
      if Py.is_decimal c then let (d, t) := digits r in (String c d, t)
      else (EmptyString, s)
  | EmptyString => (EmptyString, EmptyString)
  end.

Definition sign (s : string) : bool * string :=
  match s with
  | String c r =>
      if (c =? "-")%char then (true, r)
      else if (c =? "+")%char then (false, r)
      else (false, s)
  | EmptyString => (false, s)
  end.

(** [mantissa * 10 ^ e], reduced. *)
Definition scale (mantissa e : Z) : Q :=
  Qred (if 0 <=? e then (mantissa * 10 ^ e) # 1
        else mantissa # Z.to_pos (10 ^ (- e))).

(** The exponent part: absent, or [e] or [E], an optional sign and at
    least one digit, up to the end of the text. *)
Definition exponent (s : string) : option Z :=
  match s with
  | EmptyString => Some 0
  | String c r =>
      if (Py.lower_char c =? "e")%char then
        let (neg, r1) := sign r in
        let (ds, r2) := digits r1 in
        if Py.is_empty ds || negb (Py.is_empty r2) then None
        else Some (if neg then - Py.int_digits 0 ds else Py.int_digits 0 ds)
      else None
  end.

(** The least magnitude that rounds beyond the largest double:
    [2^1024 - 2^970], half way between it and [2^1024]. *)
Definition huge : Q := inject_Z (2 ^ 1024 - 2 ^ 970).

(** The float of a rational: the infinity of its sign from [huge] on. *)
Definition rounded (neg : bool) (q : Q) : amount :=
  if Qle_bool huge (Qabs q) then Infinity neg else Finite q.

(** [float(s)] for a [str]; [None] is its [ValueError]. *)
Definition of_string (s : string) : option amount :=
  match drop_underscores "000" (transform s) with
  | None => None
  | Some s0 =>
      let (neg, body) := sign (rstrip (lstrip s0)) in
      let name := Py.lower body in
      if (name =? "inf")%string || (name =? "infinity")%string then Some (Infinity neg)
      else if (name =? "nan")%string then Some NaN
      else
        let (ip, r1) := digits body in
        let (fp, r2) := match r1 with
                        | String c r => if (c =? ".")%char then digits r else (EmptyString, r1)
                        | EmptyString => (EmptyString, r1)
                        end in
        if Py.is_empty ip && Py.is_empty fp then None
        else match exponent r2 with
             | None => None
             | Some e =>
                 let m := Py.int_digits 0 (ip ++ fp) in
                 Some (rounded neg (scale (if neg then - m else m)
                                          (e - Z.of_nat (String.length fp))))
             end
  end.

End Float.

(** ** A [dict], in insertion order

    Setting a key that is present replaces its value where it stands;
    a new key goes to the end. *)

Section Dict.
Context {K V : Type} (eqb : K -> K -> bool).

Fixpoint assoc_set (k : K) (v : V) (d : list (K * V)) : list (K * V) :=
  match d with
  | [] => [(k, v)]
  | (k', v') :: d' =>
      if eqb k k' then (k', v) :: d' else (k', v') :: assoc_set k v d'
  end.

Fixpoint assoc_get (k : K) (d : list (K * V)) : option V :=
  match d with
  | [] => None
  | (k', v) :: d' => if eqb k k' then Some v else assoc_get k d'
  end.

End Dict.

(** ** [csv.reader] and [csv.DictReader], excel dialect

    The reader is the state machine of [_csv.c] with the dialect's
    constants filled in: the comma as delimiter, the double quote as
    quote character, doubled quotes, no escape character, not strict.
    [None] as a character is the end-of-line mark the reader feeds itself
    after each line. *)

Module Csv.

Inductive state :=
| START_RECORD | START_FIELD | IN_FIELD
| IN_QUOTED_FIELD | QUOTE_IN_QUOTED_FIELD | EAT_CRNL.

Record reader := mkreader {
  st : state;
  fields : list string;   (* saved fields, last first *)
  field : string;         (* characters of the open field, last first *)
  field_len : N }.

Definition field_limit : N := 131072.

Definition parse_reset : reader := mkreader START_RECORD [] EmptyString 0.

Definition set_state (s : state) (r : reader) : reader :=
  mkreader s (fields r) (field r) (field_len r).

Definition parse_save_field (r : reader) : reader :=
  mkreader (st r) (Py.rev_string (field r) EmptyString :: fields r) EmptyString 0.

Definition parse_add_char (r : reader) (c : ascii) : result reader :=
  if (field_limit <=? field_len r)%N
  then Raise (CsvError "field larger than field limit (131072)")
  else Ok (mkreader (st r) (fields r) (String c (field r)) (field_len r + 1)).

Definition quotechar : ascii := "034".

Definition is_newline (c : ascii) : bool := (c =? "010")%char || (c =? "013")%char.

(** State after a field that ends the line. *)
Definition end_of_line (c : option ascii) (r : reader) : reader :=
  set_state (match c with None => START_RECORD | Some _ => EAT_CRNL end)
            (parse_save_field r).

Definition parse_process_char (r : reader) (c : option ascii) : result reader :=
  let start_field :=
    match c with
    | None => Ok (end_of_line c r)
    | Some ch =>
        if is_newline ch then Ok (end_of_line c r)
        else if (ch =? quotechar)%char then Ok (set_state IN_QUOTED_FIELD r)
        else if (ch =? ",")%char then Ok (set_state START_FIELD (parse_save_field r))
        else r' <- parse_add_char r ch ;; Ok (set_state IN_FIELD r')
    end in
  match st r with
  | START_RECORD =>
      match c with
      | None => Ok r
      | Some ch => if is_newline ch then Ok (set_state EAT_CRNL r) else start_field
      end
  | START_FIELD => start_field
  | IN_FIELD =>
      match c with
      | None => Ok (end_of_line c r)
      | Some ch =>
          if is_newline ch then Ok (end_of_line c r)
          else if (ch =? ",")%char then Ok (set_state START_FIELD (parse_save_field r))
          else parse_add_char r ch
      end
  | IN_QUOTED_FIELD =>
      match c with
      | None => Ok r
      | Some ch =>
          if (ch =? quotechar)%char then Ok (set_state QUOTE_IN_QUOTED_FIELD r)
          else parse_add_char r ch
      end
  | QUOTE_IN_QUOTED_FIELD =>
      match c with
      | None => Ok (end_of_line c r)
      | Some ch =>
          if (ch =? quotechar)%char then
            r' <- parse_add_char r ch ;; Ok (set_state IN_QUOTED_FIELD r')
          else if (ch =? ",")%char then Ok (set_state START_FIELD (parse_save_field r))
          else if is_newline ch then Ok (end_of_line c r)
          else r' <- parse_add_char r ch ;; Ok (set_state IN_FIELD r')
      end
  | EAT_CRNL =>
      match c with
      | None => Ok (set_state START_RECORD r)
      | Some ch =>
          if is_newline ch then Ok r
          else Raise (CsvError "new-line character seen in unquoted field")
      end
  end.

Fixpoint feed (r : reader) (line : string) : result reader :=
  match line with
  | EmptyString => parse_process_char r None
  | String c rest => r' <- parse_process_char r (Some c) ;; feed r' rest
  end.

Definition at_record_start (r : reader) : bool :=
  match st r with START_RECORD => true | _ => false end.

(** All the records [Reader_iternext] yields over the lines: a record
    ends when a line leaves the machine in [START_RECORD]; at the end of
    the input an open quoted field is saved and its record yielded. *)
Fixpoint records (lines : list string) (r : reader) : result (list (list string)) :=
  match lines with
  | [] =>
      if negb (field_len r =? 0)%N ||
         match st r with IN_QUOTED_FIELD => true | _ => false end
      then Ok [rev (fields (parse_save_field r))]
      else Ok []
  | line :: rest =>
      r' <- feed r line ;;
      if at_record_start r' then
        rows <- records rest parse_reset ;; Ok (rev (fields r') :: rows)
      else records rest r'
  end.

(** The lines [io.StringIO(s)] iterates over: cut after each LF. *)
Fixpoint lines_of (s : string) : list string :=
  match s with
  | EmptyString => []
  | String c r =>
      if (c =? "010")%char then String c EmptyString :: lines_of r
      else match lines_of r with
           | x :: xs => String c x :: xs
           | [] => [String c EmptyString]
           end
  end.

Definition reader_rows (s : string) : result (list (list string)) :=
  records (lines_of s) parse_reset.

(** A value of a [DictReader] row: a field, [None] for a column the row
    lacks, or the list of the fields beyond the header. *)
Inductive cell :=
| CStr (s : string)
| CNone
| CList (l : list string).

(** A key is a field name, or [None], the [restkey]. *)
Definition key := option string.

Definition key_eqb (a b : key) : bool :=
  match a, b with
  | None, None => true
  | Some x, Some y => (x =? y)%string
  | _, _ => false
  end.

Definition dict := list (key * cell).

Definition dict_set : key -> cell -> dict -> dict := assoc_set key_eqb.
Definition dict_get : key -> dict -> option cell := assoc_get key_eqb.

(** [DictReader.__next__] on one non-empty record. *)
Definition make_row (fieldnames row : list string) : dict :=
  let d := fold_left (fun d kv => dict_set (Some (fst kv)) (CStr (snd kv)) d)
                     (combine fieldnames row) [] in
  let lf := length fieldnames in
  let lr := length row in
  if (lf <? lr)%nat then dict_set None (CList (skipn lf row)) d
  else fold_left (fun d k => dict_set (Some k) CNone d) (skipn lr fieldnames) d.

Definition nonempty_row (row : list string) : bool :=
  match row with [] => false | _ => true end.

(** The rows of [csv.DictReader(io.StringIO(s))]: the first record is the
    header, empty records after it are passed over. *)
Definition DictReader (s : string) : result (list dict) :=
  rows <- reader_rows s ;;
  match rows with
  | [] => Ok []
  | fieldnames :: rest => Ok (map (make_row fieldnames) (filter nonempty_row rest))
  end.

End Csv.

Import Csv.

(** ** The CSV dialect parsers *)

(** The common record shape, the [entry] dict of the source. *)
Record entry := mkentry {
  source : string;
  order_amount : amount;
  order_id : string;
  order_date : string }.

(** The [CSVn_*] environment variables; an unset field name is [None],
    which is also the key of the surplus fields of a row. *)
Record csv_config := mkcsv_config {
  source_name : string;
  amount_field : option string;
  id_field : option string;
  date_field : option string }.

Fixpoint filter_map {A B : Type} (f : A -> option B) (l : list A) : list B :=
  match l with
  | [] => []
  | x :: xs => match f x with
               | Some y => y :: filter_map f xs
               | None => filter_map f xs
               end
  end.

(** [row.get(field, '').strip()]; [None] is the [AttributeError] of a
    value that is no [str]. *)
Definition get_stripped (field : key) (row : dict) : option string :=
  match dict_get field row with
  | None => Some EmptyString
  | Some (CStr s) => Some (Py.strip s)
  | Some _ => None
  end.

(** [float(row.get(field, 0))]; [None] is its [ValueError] or
    [TypeError]. *)
Definition get_amount (field : key) (row : dict) : option amount :=
  match dict_get field row with
  | None => Some (Finite 0)
  | Some (CStr s) => Float.of_string s
  | Some _ => None
  end.

(** [order_id.replace('.', '', 1).isdigit()]. *)
Definition numeric_id (order_id : string) : bool :=
  Py.isdigit (Py.replace_first_dot order_id).

(** The body of the loop of [parse_csv_source1] on one row: [None] when
    the row is passed over, by [continue] or by the handler. *)
Definition entry_source1 (cfg : csv_config) (rt : runtime) (row : dict) : option entry :=
  match get_stripped (id_field cfg) row with
  | None => None
  | Some order_id =>
  match get_stripped (date_field cfg) row with
  | None => None
  | Some date_str =>
      if Py.is_empty order_id || Py.is_empty date_str then None
      else if negb (numeric_id order_id) then None
      else match get_amount (amount_field cfg) row with
           | None => None
           | Some a => Some (mkentry (source_name cfg) a order_id
                                     (_parse_date rt date_str))
           end
  end end.

Definition parse_csv_source1 (cfg : csv_config) (rt : runtime) (csv_content : string)
  : result (list entry) :=
  rows <- DictReader csv_content ;;
  Ok (filter_map (entry_source1 cfg rt) rows).

Definition summary_labels : list string :=
  ["total"; "summary"; "subtotal"; "grand total"].

(** [list(row.values())[0].strip().lower() if row.values() else '']. *)
Definition first_col_value (row : dict) : option string :=
  match row with
  | [] => Some EmptyString
  | (_, CStr s) :: _ => Some (Py.lower (Py.strip s))
  | _ :: _ => None
  end.

Definition entry_source2 (cfg : csv_config) (rt : runtime) (row : dict) : option entry :=
  match get_stripped (date_field cfg) row with
  | None => None
  | Some date_str =>
  match get_stripped (id_field cfg) row with
  | None => None
  | Some order_id =>
      if Py.is_empty order_id || Py.is_empty date_str then None
      else if negb (numeric_id order_id) then None
      else match first_col_value row with
           | None => None
           | Some v =>
               if existsb (String.eqb v) summary_labels then None
               else
                 let order_date := _parse_date_with_year rt date_str (tm_year (now rt)) in
                 if Py.is_empty order_date || Py.is_empty (Py.strip order_date) then None
                 else match get_amount (amount_field cfg) row with
                      | None => None
                      | Some a => Some (mkentry (source_name cfg) a order_id order_date)
                      end
           end
  end end.

(** [skip_rows] is [int(os.environ.get('CSV2_SKIP_ROWS', 0))]. *)
Definition parse_csv_source2 (cfg : csv_config) (skip_rows : Z) (rt : runtime)
           (csv_content : string) : result (list entry) :=
  let lines := Py.split_on "010" (Py.strip csv_content) in
  let lines :=
    if (0 <? skip_rows) && (skip_rows <? Z.of_nat (length lines))
    then skipn (Z.to_nat skip_rows) lines else lines in
  rows <- DictReader (Py.join (String "010" EmptyString) lines) ;;
  Ok (filter_map (entry_source2 cfg rt) rows).

(** ** The message content tree *)

(** The [body] of a part: its inline data and its attachment reference,
    each possibly absent. *)
Record part_body := mkbody {
  body_data : option string;
  attachmentId : option string }.

(** A part of the message; an absent [mimeType] or [filename] is the
    empty string the source substitutes, absent [parts] the empty list. *)
#[warnings="-register-all"]
Inductive part :=
| Part (mimeType filename : string) (body : option part_body) (parts : list part).

Definition part_filename (p : part) : string :=
  match p with Part _ f _ _ => f end.

Definition part_body_of (p : part) : option part_body :=
  match p with Part _ _ b _ => b end.

Definition part_parts (p : part) : list part :=
  match p with Part _ _ _ ps => ps end.

(** [message.get('payload', {})]: the root part, if the message has one. *)
Definition message := option part.

Definition payload_parts (m : message) : list part :=
  match m with Some p => part_parts p | None => [] end.

(** [part.get('body', {}).get('data', '')]. *)
Definition inline_data (b : option part_body) : string :=
  match b with
  | Some (mkbody (Some d) _) => d
  | _ => EmptyString
  end.

(** ** A backtracking matcher for the patterns of [extract_csv_link] *)

Module Re.

Inductive regex :=
| Lit (s : string)            (* these characters, in order *)
| Any (p : ascii -> bool)     (* one character of a class *)
| Many (p : ascii -> bool)    (* class*, greedy *)
| Many1 (p : ascii -> bool)   (* class+, greedy *)
| Opt (c : ascii)             (* c?, greedy *)
| Seq (a b : regex)
| Alt (a b : regex)
| Group (a : regex).          (* the capturing group *)

Definition same_char (ignore_case : bool) (a b : ascii) : bool :=
  if ignore_case then (Py.lower_char a =? Py.lower_char b)%char else (a =? b)%char.

Fixpoint literal (ic : bool) (l s : string) : option string :=
  match l, s with
  | EmptyString, _ => Some s
  | String a l', String b s' => if same_char ic a b then literal ic l' s' else None
  | String _ _, EmptyString => None
  end.

Section Matcher.
Context {A : Type}.

(** As many characters of the class as possible, then fewer. *)
Fixpoint many (p : ascii -> bool) (s : string) (k : string -> option A) : option A :=
  match s with
  | String b s' =>
      if p b then match many p s' k with Some x => Some x | None => k s end
      else k s
  | EmptyString => k s
  end.

(** [rmatch ic r s g k]: match [r] at the start of [s] and hand what is
    left, with the text of the group, to [k]; when [k] fails, try the
    next way to match [r]. *)
Fixpoint rmatch (ic : bool) (r : regex) (s : string) (g : option string)
         (k : string -> option string -> option A) : option A :=
  match r with
  | Lit l => match literal ic l s with Some s' => k s' g | None => None end
  | Any p => match s with
             | String b s' => if p b then k s' g else None
             | EmptyString => None
             end
  | Many p => many p s (fun s' => k s' g)
  | Many1 p => match s with
               | String b s' => if p b then many p s' (fun s'' => k s'' g) else None
               | EmptyString => None
               end
  | Opt c =>
      match match s with
            | String b s' => if same_char ic c b then k s' g else None
            | EmptyString => None
            end with
      | Some x => Some x
      | None => k s g
      end
  | Seq a b => rmatch ic a s g (fun s' g' => rmatch ic b s' g' k)
  | Alt a b => match rmatch ic a s g k with
               | Some x => Some x
               | None => rmatch ic b s g k
               end
  | Group a =>
      rmatch ic a s g
             (fun s' _ => k s' (Some (Py.take (String.length s - String.length s') s)))
  end.

End Matcher.

(** The match of [r] at the start of [s]: what is left and the group. *)
Definition match_at (ic : bool) (r : regex) (s : string) : option (string * option string) :=
  rmatch ic r s None (fun s' g => Some (s', g)).

(** The matches of [r] in [s], left to right, not overlapping; each with
    the text of its group.  [skip] counts the characters of the last
    match still to pass.  (No pattern below matches the empty text, so
    the end of [s] holds no match.) *)
Fixpoint matches (ic : bool) (r : regex) (s : string) (skip : nat)
  : list (string * option string) :=
  match s with
  | EmptyString => []
  | String _ s' =>
      match skip with
      | S n => matches ic r s' n
      | O =>
          match match_at ic r s with
          | Some (rest, g) =>
              let n := (String.length s - String.length rest)%nat in
              (Py.take n s, g) :: matches ic r s' (n - 1)
          | None => matches ic r s' 0
          end
      end
  end.

(** [re.findall] for a pattern without group: the matched texts. *)
Definition findall (ic : bool) (r : regex) (s : string) : list string :=
  map fst (matches ic r s 0).

(** [re.findall] for a pattern with one group: the texts of the group. *)
Definition findall_group (ic : bool) (r : regex) (s : string) : list string :=
  map (fun m => match snd m with Some g => g | None => EmptyString end)
      (matches ic r s 0).

End Re.

Import Re.

Definition one_of (cs : string) (c : ascii) : bool :=
  Py.contains (String c EmptyString) cs.

(** The character classes of the patterns.  In the comments the double
    quote is written [\x22], [U] abbreviates the class [[^\s<>\x22]] and
    [V] the class [[^\s<>\x22']]; 034 is the code of the double quote,
    039 that of the single one. *)
Definition url_char (c : ascii) : bool :=          (* U *)
  negb (Py.is_space c || one_of (String "<" (String ">" (String "034" EmptyString))) c).

Definition url_char_html (c : ascii) : bool :=     (* V *)
  url_char c && negb (c =? "039")%char.

Definition not_gt (c : ascii) : bool := negb (c =? ">")%char.            (* [^>] *)
Definition is_quote (c : ascii) : bool := (c =? "034")%char || (c =? "039")%char.
Definition not_quote (c : ascii) : bool := negb (is_quote c).

Definition http : regex := Seq (Lit "http") (Seq (Opt "s") (Lit "://")).

Definition storage_domain : string := "s3.amazonaws.com".

(** [<a[^>]+href=[\x22']([^\x22']+)[\x22'][^>]*>] *)
Definition href_pattern : regex :=
  Seq (Lit "<a") (Seq (Many1 not_gt) (Seq (Lit "href=") (Seq (Any is_quote)
    (Seq (Group (Many1 not_quote)) (Seq (Any is_quote) (Seq (Many not_gt) (Lit ">"))))))).

(** [https?://V+(?:\.csv|s3\.amazonaws\.comV{0,})], that is, with the
    star the source writes for [{0,}]. *)
Definition html_url_pattern : regex :=
  Seq http (Seq (Many1 url_char_html)
    (Alt (Lit ".csv") (Seq (Lit storage_domain) (Many url_char_html)))).

(** [https?://U+\.csvU*]. *)
Definition csv_link_pattern : regex :=
  Seq http (Seq (Many1 url_char) (Seq (Lit ".csv") (Many url_char))).

(** [https?://U*s3\.amazonaws\.comU+] *)
Definition s3_link_pattern : regex :=
  Seq http (Seq (Many url_char) (Seq (Lit storage_domain) (Many1 url_char))).

(** [https?://U+] *)
Definition link_pattern : regex := Seq http (Many1 url_char).

(** ** The attachment and link extractors *)

Section Extractors.

(** The collaborators: the mailbox call that downloads an attachment's
    data, and the two decodings of base64url data, strict UTF-8 for an
    attachment and UTF-8 ignoring errors for a body.  [None] is an
    exception of the call. *)
Variable get_attachment : string -> string -> option string.
Variable decode_strict : string -> option string.
Variable decode_lenient : string -> option string.

Definition is_csv_name (name : string) : bool := Py.endswith ".csv" name.

(** The loop of [extract_attachment] over the parts it is given.  A
    [.csv] part without [body] is a [KeyError] and ends the scan with
    [None]; one without attachment reference is passed over. *)
Fixpoint scan_attachment (msg_id : string) (ps : list part) : option string :=
  match ps with
  | [] => None
  | p :: rest =>
      if is_csv_name (part_filename p) then
        match part_body_of p with
        | None => None
        | Some b =>
            match attachmentId b with
            | Some (String c r) =>
                match get_attachment msg_id (String c r) with
                | Some data => decode_strict data
                | None => None
                end
            | _ => scan_attachment msg_id rest
            end
        end
      else scan_attachment msg_id rest
  end.

(** [extract_attachment]: the scan of the parts directly below the
    payload. *)
Definition extract_attachment (msg_id : string) (m : message) : option string :=
  scan_attachment msg_id (payload_parts m).

(** The nested [extract_body] of [extract_csv_link]: [bodies] is the pair
    [(body_html, body_text)] it appends to; [None] is a decoding
    exception. *)
Fixpoint extract_body (p : part) (bodies : string * string) : option (string * string) :=
  match p with
  | Part mime _ b ps =>
      let data := inline_data b in
      let here :=
        if (mime =? "text/html")%string then
          if Py.is_empty data then Some bodies
          else match decode_lenient data with
               | Some t => Some (fst bodies ++ t, snd bodies)
               | None => None
               end
        else if (mime =? "text/plain")%string then
          if Py.is_empty data then Some bodies
          else match decode_lenient data with
               | Some t => Some (fst bodies, snd bodies ++ t)
               | None => None
               end
        else Some bodies in
      (fix subparts (qs : list part) (acc : option (string * string)) :=
         match qs with
         | [] => acc
         | q :: qs' =>
             match acc with
             | Some bd => subparts qs' (extract_body q bd)
             | None => None
             end
         end) ps here
  end.

Fixpoint extract_bodies (ps : list part) (bodies : string * string)
  : option (string * string) :=
  match ps with
  | [] => Some bodies
  | p :: rest =>
      match extract_body p bodies with
      | Some bd => extract_bodies rest bd
      | None => None
      end
  end.

Definition is_link_href (href : string) : bool :=
  Py.contains ".csv" (Py.lower href) || Py.contains storage_domain (Py.lower href).

Definition is_export_link (link : string) : bool :=
  Py.contains "csv" (Py.lower link) || Py.contains "export" (Py.lower link).

(** The HTML half of the search: the first qualifying [href], else the
    first URL of the raw HTML. *)
Definition link_from_html (body_html : string) : option string :=
  if Py.is_empty body_html then None
  else
    match find is_link_href (findall_group true href_pattern body_html) with
    | Some href => Some href
    | None => hd_error (findall true html_url_pattern body_html)
    end.

(** The plain-text half: [.csv] links, then storage links, then any link
    that mentions csv or export. *)
Definition link_from_text (body_text : string) : option string :=
  if Py.is_empty body_text then None
  else
    match findall true csv_link_pattern body_text with
    | link :: _ => Some link
    | [] =>
        match findall true s3_link_pattern body_text with
        | link :: _ => Some link
        | [] => find is_export_link (findall false link_pattern body_text)
        end
    end.

(** The search of [extract_csv_link] once the bodies are collected. *)
Definition extract_link (body_html body_text : string) : option string :=
  match link_from_html body_html with
  | Some link => Some link
  | None => link_from_text body_text
  end.

Definition extract_csv_link (m : message) : option string :=
  match extract_bodies (payload_parts m) (EmptyString, EmptyString) with
  | None => None
  | Some (body_html, body_text) =>
      if Py.is_empty body_html && Py.is_empty body_text then
        let data := inline_data (match m with Some p => part_body_of p | None => None end) in
        if Py.is_empty data then None
        else match decode_lenient data with
             | None => None
             | Some decoded =>
                 if Py.contains "<html" (Py.lower decoded) ||
                    Py.contains "<a " (Py.lower decoded)
                 then extract_link decoded EmptyString
                 else extract_link EmptyString decoded
             end
      else extract_link body_html body_text
  end.

End Extractors.

(** ** The record store and the create-or-update step *)

Module Notion.

Inductive property :=
| Title (content : string)
| Number (n : amount)
| Date (start : string)
| Checkbox (b : bool).

(** The properties of a page, by name. *)
Definition properties := list (string * property).

Definition set_prop : string -> property -> properties -> properties :=
  assoc_set String.eqb.
Definition get_prop : string -> properties -> option property :=
  assoc_get String.eqb.

(** The store: its pages in the order a query lists them; the id of a
    page is its position. *)
Definition store := list properties.

Definition page_id := nat.

(** The filter [{"property": name, "number": {"equals": k}}]. *)
Definition number_equals (name : string) (k : Z) (page : properties) : bool :=
  match get_prop name page with
  | Some (Number (Finite q)) => Qeq_bool q (inject_Z k)
  | _ => false
  end.

Fixpoint query_from (i : page_id) (db : store) (name : string) (k : Z) : list page_id :=
  match db with
  | [] => []
  | page :: rest =>
      if number_equals name k page then i :: query_from (S i) rest name k
      else query_from (S i) rest name k
  end.

(** [databases.query]: the ids of the pages that pass the filter. *)
Definition query (db : store) (name : string) (k : Z) : list page_id :=
  query_from O db name k.

(** [pages.create]: a new page, after the others. *)
Definition create (db : store) (props : properties) : store := (db ++ [props])%list.

Definition merge (page props : properties) : properties :=
  fold_left (fun pg kv => set_prop (fst kv) (snd kv) pg) props page.

(** [pages.update]: the given properties replace those of the page, the
    others stay. *)
Fixpoint update (db : store) (id : page_id) (props : properties) : store :=
  match db, id with
  | [], _ => []
  | page :: rest, O => merge page props :: rest
  | page :: rest, S n => page :: update rest n props
  end.

End Notion.

Import Notion.

(** The [NOTION_*_PROPERTY] environment variables. *)
Record notion_config := mknotion_config {
  source_property : string;
  amount_property : string;
  id_property : string;
  date_property : string;
  checkbox_property : string }.

(** The names the source uses when the variables are unset. *)
Definition default_notion_config : notion_config :=
  mknotion_config "Source" "Order Amount" "Order ID" "Order Date" "Sum-er".

(** A call to the store, as the run makes it. *)
Inductive call :=
| Query (name : string) (k : Z)
| Update (id : page_id) (props : properties)
| Create (props : properties).

(** The answers of the store that are exceptions: whether a call raises,
    by the calls made before it and by what is asked. *)
Definition faults := list call -> call -> bool.

(** A store whose calls all succeed. *)
Definition no_faults : faults := fun _ _ => false.

(** [int(s)] for a string that [isdigit] accepts; [None] is its
    [ValueError]: a digit that is not decimal, or a string longer than the
    limit. *)
Definition int_of_digits (rt : runtime) (s : string) : option Z :=
  if negb (Py.all_chars Py.is_decimal s) then None
  else if negb (int_max_str_digits rt =? 0)%nat && (int_max_str_digits rt <? String.length s)%nat
  then None
  else Some (Py.int_digits 0 s).

(** [int(order_id) if order_id.isdigit() else 0]. *)
Definition numeric_key (rt : runtime) (order_id : string) : option Z :=
  if Py.isdigit order_id then int_of_digits rt order_id else Some 0.

(** [check_notion_entry_exists]: the first page whose [Order ID] number
    equals the key of [order_id]; [None] when the key raises, before any
    call to the store, and [None] when the query raises: the handler of
    the function answers both. *)
Definition check_notion_entry_exists (rt : runtime) (nt : faults) (done : list call)
           (db : store) (order_id : string) : option page_id :=
  match numeric_key rt order_id with
  | Some k =>
      if nt done (Query "Order ID" k) then None
      else hd_error (query db "Order ID" k)
  | None => None
  end.

(** The [properties] dict of [create_or_update_notion_entry], with [k] for
    the number of the id property; a later key of the literal that repeats
    an earlier one overwrites it. *)
Definition properties_with (cfg : notion_config) (rt : runtime) (e : entry) (k : Z)
  : properties :=
  let start :=
    if Py.is_empty (order_date e) || Py.is_empty (Py.strip (order_date e))
    then today_str rt else order_date e in
  set_prop (checkbox_property cfg) (Checkbox true)
    (set_prop (date_property cfg) (Date start)
      (set_prop (id_property cfg) (Number (Finite (inject_Z k)))
        (set_prop (amount_property cfg) (Number (order_amount e))
          (set_prop (source_property cfg) (Title (source e)) [])))).

(** The dict as the source builds it; [None] when the key raises. *)
Definition entry_properties (cfg : notion_config) (rt : runtime) (e : entry)
  : option properties :=
  option_map (properties_with cfg rt e) (numeric_key rt (order_id e)).

(** [create_or_update_notion_entry], after the calls [done]: the store
    after the call and the calls made to it, in order, whether or not they
    succeed.  When the key raises, the query is not sent, the dict is not
    built, and the handler leaves the store as it is.  When the query
    raises, no page counts as found and a page is created.  When the
    update or the create raises, the handler leaves the store as it is. *)
Definition create_or_update_notion_entry (cfg : notion_config) (rt : runtime)
           (nt : faults) (done : list call) (db : store) (e : entry)
  : store * list call :=
  if Py.is_empty (order_id e) || Py.is_empty (Py.strip (order_id e)) then (db, [])
  else
    match numeric_key rt (order_id e), entry_properties cfg rt e with
    | Some k, Some props =>
        let asked := Query "Order ID" k in
        match check_notion_entry_exists rt nt done db (order_id e) with
        | Some id =>
            (if nt (done ++ [asked])%list (Update id props) then db
             else update db id props,
             [asked; Update id props])
        | None =>
            (if nt (done ++ [asked])%list (Create props) then db
             else create db props,
             [asked; Create props])
        end
    | _, _ => (db, [])
    end.

(** Whether [create_or_update_notion_entry] ends in its handler: the key
    raised where the dict is built, or the update or the create raised. *)
Definition upsert_raises (cfg : notion_config) (rt : runtime) (nt : faults)
           (done : list call) (db : store) (e : entry) : bool :=
  if Py.is_empty (order_id e) || Py.is_empty (Py.strip (order_id e)) then false
  else
    match numeric_key rt (order_id e) with
    | None => true
    | Some _ =>
        match snd (create_or_update_notion_entry cfg rt nt done db e) with
        | [asked; write] => nt (done ++ [asked])%list write
        | _ => false
        end
    end.

(** The loop [for entry in entries: self.create_or_update_notion_entry(entry)]
    of [process], after the calls [done]. *)
Fixpoint sync_entries (cfg : notion_config) (rt : runtime) (nt : faults)
         (done : list call) (db : store) (entries : list entry) : store :=
  match entries with
  | [] => db
  | e :: rest =>
      let written := create_or_update_notion_entry cfg rt nt done db e in
      sync_entries cfg rt nt (done ++ snd written)%list (fst written) rest
  end.

(** The calls the loop of [sync_entries] makes to the store. *)
Fixpoint sync_calls (cfg : notion_config) (rt : runtime) (nt : faults)
         (done : list call) (db : store) (entries : list entry) : list call :=
  match entries with
  | [] => []
  | e :: rest =>
      let written := create_or_update_notion_entry cfg rt nt done db e in
      (snd written ++
       sync_calls cfg rt nt (done ++ snd written)%list (fst written) rest)%list
  end.

(** ** Notions of the specification *)

(** A canonical calendar-date string: four digits, a dash, two digits, a
    dash, two digits. *)
Definition well_formed_date (s : string) : bool :=
  match s with
  | String y1 (String y2 (String y3 (String y4 (String s1
      (String m1 (String m2 (String s2 (String d1 (String d2 EmptyString))))))))) =>
      Py.is_decimal y1 && Py.is_decimal y2 && Py.is_decimal y3 && Py.is_decimal y4 &&
      (s1 =? "-")%char && Py.is_decimal m1 && Py.is_decimal m2 &&
      (s2 =? "-")%char && Py.is_decimal d1 && Py.is_decimal d2
  | _ => false
  end.

Definition is_some {A : Type} (o : option A) : bool :=
  match o with Some _ => true | None => false end.

(** The token parses under one of the full-date formats. *)
Definition parses_full (s : string) : bool := is_some (full_date s).

(** The token parses under one of the year-less formats. *)
Definition parses_yearless (s : string) : bool :=
  existsb (fun fmt => is_some (strptime fmt s)) yearless_formats.

Fixpoint count_char (c : ascii) (s : string) : nat :=
  match s with
  | EmptyString => O
  | String b r => if (b =? c)%char then S (count_char c r) else count_char c r
  end.

Fixpoint has_char (p : ascii -> bool) (s : string) : bool :=
  match s with
  | EmptyString => false
  | String b r => p b || has_char p r
  end.

(** A numeric token as the specification words it: digits with at most
    one [.], and at least one digit. *)
Definition is_numeric_token (s : string) : bool :=
  Py.all_chars (fun c => Py.is_decimal c || (c =? ".")%char) s &&
  (count_char "." s <=? 1)%nat &&
  has_char Py.is_decimal s.

(** A class of characters, and the dot. *)
Definition or_dot (p : ascii -> bool) (c : ascii) : bool := p c || (c =? ".")%char.

(** A digit that is not a decimal digit. *)
Definition superscript (c : ascii) : bool := Py.is_digit c && negb (Py.is_decimal c).

(** A numeric token over the digits of [isdigit]. *)
Definition is_digit_token (s : string) : bool :=
  Py.all_chars (fun c => Py.is_digit c || (c =? ".")%char) s &&
  (count_char "." s <=? 1)%nat &&
  has_char Py.is_digit s.

(** What the invariant of the record schema asks of an [orderId]. *)
Definition valid_order_id (s : string) : Prop :=
  s <> EmptyString /\ s <> "Total" /\ is_numeric_token s = true.

(** The nodes of a content tree in pre-order: a node, then its sub-parts
    from left to right, each with its own. *)
Fixpoint preorder (p : part) : list part :=
  match p with
  | Part _ _ _ ps =>
      p :: (fix subparts (qs : list part) : list part :=
              match qs with
              | [] => []
              | q :: qs' => (preorder q ++ subparts qs')%list
              end) ps
  end.

Definition preorder_parts (ps : list part) : list part := flat_map preorder ps.

(** The attachment extractor as the specification words it: the scan of
    [extract_attachment] over every node of the tree below the payload,
    in pre-order. *)
Definition spec_extract_attachment
           (get_attachment : string -> string -> option string)
           (decode_strict : string -> option string)
           (msg_id : string) (m : message) : option string :=
  scan_attachment get_attachment decode_strict msg_id (preorder_parts (payload_parts m)).

(** The first column of a data row, trimmed and in lower case, as the
    reader of the CSV text yields it before the header names it. *)
Definition first_column (record : list string) : string :=
  match record with
  | [] => EmptyString
  | c :: _ => Py.lower (Py.strip c)
  end.

(** The line feed. *)
Definition LF : string := String "010" EmptyString.

(** The ISO format, the first of [full_formats]. *)
Definition iso_format : list item := [FYear; FLit "-"; FMonth; FLit "-"; FDay].

(** The calendar date of a time stamp, at midnight. *)
Definition date_of (t : tm) : tm := mktm (tm_year t) (tm_mon t) (tm_mday t) 0 0 0.

Definition no_space (c : ascii) : bool := negb (Py.is_space c).

(** A store whose queries all succeed. *)
Definition queries_succeed (nt : faults) : Prop :=
  forall done name k, nt done (Query name k) = false.

(** A store whose calls all succeed. *)
Definition calls_succeed (nt : faults) : Prop :=
  forall done c, nt done c = false.

(** The property names under which a written amount and a written id
    survive in the [properties] dict: neither is repeated by a later key
    of the literal. *)
Definition names_apart (cfg : notion_config) : Prop :=
  amount_property cfg <> id_property cfg /\
  amount_property cfg <> date_property cfg /\
  amount_property cfg <> checkbox_property cfg /\
  id_property cfg <> date_property cfg /\
  id_property cfg <> checkbox_property cfg.

(** Where a run of characters of a class must stop: at the end of the
    text or before a character outside the class. *)
Definition at_break (p : ascii -> bool) (s : string) : bool :=
  match s with
  | EmptyString => true
  | String c _ => negb (p c)
  end.

(** A text that is empty or ends outside the URL characters. *)
Definition ends_at_break (s : string) : Prop :=
  s = EmptyString \/
  exists s' c, s = s' ++ String c EmptyString /\ url_char c = false.

(** The texts a pattern describes. *)
Fixpoint lang (ic : bool) (r : regex) (x : string) : Prop :=
  match r with
  | Lit l => literal ic l x = Some EmptyString
  | Any p => exists c, x = String c EmptyString /\ p c = true
  | Many p => Py.all_chars p x = true
  | Many1 p => x <> EmptyString /\ Py.all_chars p x = true
  | Opt c => x = EmptyString \/ exists b, x = String b EmptyString /\ same_char ic c b = true
  | Seq a b => exists x1 x2, x = x1 ++ x2 /\ lang ic a x1 /\ lang ic b x2
  | Alt a b => lang ic a x \/ lang ic b x
  | Group a => lang ic a x
  end.

(** A pattern that ends in a greedy run of the class [p]. *)
Fixpoint ends_greedy (p : ascii -> bool) (r : regex) : Prop :=
  match r with
  | Many q | Many1 q => forall c, q c = p c
  | Seq _ b => ends_greedy p b
  | _ => False
  end.

(** A URL of the storage domain: a scheme, URL characters, the domain and
    URL characters again. *)
Definition storage_url (secure : bool) (h p : string) : string :=
  (if secure then "https://" else "http://") ++ h ++ storage_domain ++ p.

(** ** Sample data *)

Definition sample_runtime : runtime := mkruntime (mktm 2026 11 4 9 30 0) false 4300.

Definition sample_csv : string :=
  "id,amt,date" ++ LF ++ "1001,25.50,2024-03-01" ++ LF ++ "Total,," ++ LF.

Definition sample_config (label : string) : csv_config :=
  mkcsv_config label (Some "amt") (Some "id") (Some "date").

(** The superscript two, U+00B2, as an order id, and a report that
    carries it. *)
Definition superscript_two : string := String "178" EmptyString.

Definition superscript_csv : string :=
  "id,amt,date" ++ LF ++ superscript_two ++ ",5,2024-03-01" ++ LF.

(** A report whose header names its first and last columns alike. *)
Definition repeated_header_table : string :=
  "Label,Order,Date,Amount,Label" ++ LF ++ "Subtotal,5,3/4,12.50,n/a".

Definition repeated_header_csv : string :=
  "Weekly report" ++ LF ++ repeated_header_table ++ LF.

Definition repeated_header_config : csv_config :=
  mkcsv_config "Source2" (Some "Amount") (Some "Order") (Some "Date").

Definition order_1001 (a : Q) : entry :=
  mkentry "Source1" (Finite a) "1001" "2024-03-01".

Definition fractional_order : entry :=
  mkentry "Source1" (Finite 7) "25.5" "2024-03-01".

(** The record of [superscript_csv]. *)
Definition superscript_order : entry :=
  mkentry "Source1" (Finite 5) superscript_two "2024-03-01".

Definition other_fractional_order : entry :=
  mkentry "Source2" (Finite 9) "7.5" "2024-03-02".

(** A store whose creates raise and whose other calls succeed. *)
Definition create_raises : faults :=
  fun _ c => match c with Create _ => true | _ => false end.

(** A store whose second query raises and whose other calls succeed. *)
Definition second_query_raises : faults :=
  fun done c =>
    match done, c with
    | [Query _ _; _], Query _ _ => true
    | _, _ => false
    end.

(** A page that already carries order 1001. *)
Definition page_1001 : properties :=
  properties_with default_notion_config sample_runtime (order_1001 3) 1001.

(** A message whose CSV file sits one level below the parts of the
    payload. *)
Definition csv_part : part :=
  Part "text/csv" "report.csv" (Some (mkbody None (Some "ATT1"))) [].

Definition nested_message : message :=
  Some (Part "multipart/mixed" "" None
          [Part "text/plain" "" (Some (mkbody (Some "SGVsbG8=") None)) [];
           Part "multipart/mixed" "" None [csv_part]]).

Definition bare_host_text : string :=
  "https://bucket.s3.amazonaws.com https://example.com/export".

Definition export_first_text : string :=
  "Download https://example.com/export or https://bucket.s3.amazonaws.com/reports/weekly?id=7 today".

(** ** Notions of the further properties *)

(** A date written with slashes, two digits, two digits and the year. *)
Definition slash_date (a b y : Z) : string :=
  pad2 a (String "/" (pad2 b (String "/" (pad4 y EmptyString)))).

(** A date written the ISO way. *)
Definition iso_date (y m d : Z) : string :=
  pad4 y (String "-" (pad2 m (String "-" (pad2 d EmptyString)))).

(** A year-less date, month first. *)
Definition month_day (m d : Z) : string :=
  pad2 m (String "/" (pad2 d EmptyString)).

(** The ways the formats of [_parse_date_with_year] know to write the
    29th of February. *)
Definition leap_day_tokens : list string :=
  ["02/29"; "2/29"; "29/02"; "29/2"; "Feb 29"; "feb 29"; "February 29"].

Definition not_LF (c : ascii) : bool := negb (c =? "010")%char.

(** A text that opens with some lines, each closed by a line feed. *)
Definition with_banner (banners : list string) (body : string) : string :=
  fold_right (fun b t => b ++ LF ++ t) body banners.

(** What [parse_csv_source2] does once the lines to read are chosen. *)
Definition read_source2 (cfg : csv_config) (rt : runtime) (table : string)
  : result (list entry) :=
  rows <- DictReader table ;; Ok (filter_map (entry_source2 cfg rt) rows).

(** A character that needs no quoting in a CSV field. *)
Definition plain_char (c : ascii) : bool :=
  negb (is_newline c) && negb (c =? quotechar)%char && negb (c =? ",")%char.

(** A field written as it is: plain characters, within the reader's field
    limit. *)
Definition plain_field (f : string) : bool :=
  Py.all_chars plain_char f && (N.of_nat (String.length f) <=? field_limit)%N.

(** A record that a line of plain fields denotes: at least one field, and
    not the single empty field, which would be written as an empty line. *)
Definition plain_record (r : list string) : bool :=
  forallb plain_field r &&
  match r with
  | [] => false
  | [EmptyString] => false
  | _ => true
  end.

(** How the lines of a table end: with LF, or with CR LF. *)
Definition newline (crlf : bool) : string :=
  if crlf then String "013" LF else LF.

(** A table written one record per line, each line closed by a newline. *)
Definition csv_text (crlf : bool) (rs : list (list string)) : string :=
  fold_right (fun r t => Py.join "," r ++ newline crlf ++ t) EmptyString rs.

(** The states in which the reader is about to start a field. *)
Definition field_start (s : state) : bool :=
  match s with START_RECORD | START_FIELD => true | _ => false end.

(** How a line ends: with a newline, or, for the last one, with nothing. *)
Definition line_end (e : option bool) : string :=
  match e with
  | Some crlf => newline crlf
  | None => EmptyString
  end.

(** A configured field name that names no column of the header: unset, or
    not among the header's names. *)
Definition missing (f : key) (header : list string) : Prop :=
  match f with
  | Some name => ~ In name header
  | None => True
  end.

(** A character other than the double quote. *)
Definition no_quote (c : ascii) : bool := negb (c =? quotechar)%char.

(** The states of the reader outside a quoted field. *)
Definition outside_quotes (s : state) : bool :=
  match s with IN_QUOTED_FIELD | QUOTE_IN_QUOTED_FIELD => false | _ => true end.

(** A text with a bare carriage return: a CR that is followed by a
    character other than LF and CR. *)
Fixpoint bare_cr (s : string) : bool :=
  match s with
  | EmptyString => false
  | String c r =>
      ((c =? "013")%char &&
       match r with String c' _ => negb (is_newline c') | EmptyString => false end) ||
      bare_cr r
  end.

(** The store holds at most one page for each number of the id
    property. *)
Definition keys_unique (db : store) : Prop :=
  forall k : Z, (length (query db "Order ID" k) <= 1)%nat.

(** The names under which [create_or_update_notion_entry] writes. *)
Definition written_names (cfg : notion_config) : list string :=
  [source_property cfg; amount_property cfg; id_property cfg;
   date_property cfg; checkbox_property cfg].

(** What [extract_body] does at one node, before it goes down: the
    decoded data of an HTML node is appended to the first body, that of a
    plain-text node to the second. *)
Definition body_here (decode_lenient : string -> option string) (p : part)
           (bodies : string * string) : option (string * string) :=
  match p with
  | Part mime _ b _ =>
      let data := inline_data b in
      if (mime =? "text/html")%string then
        if Py.is_empty data then Some bodies
        else match decode_lenient data with
             | Some t => Some (fst bodies ++ t, snd bodies)
             | None => None
             end
      else if (mime =? "text/plain")%string then
        if Py.is_empty data then Some bodies
        else match decode_lenient data with
             | Some t => Some (fst bodies, snd bodies ++ t)
             | None => None
             end
      else Some bodies
  end.

Definition body_step (decode_lenient : string -> option string)
           (acc : option (string * string)) (p : part) : option (string * string) :=
  match acc with
  | Some bodies => body_here decode_lenient p bodies
  | None => None
  end.

(** The bodies collected node by node along a list of nodes. *)
Definition collect_bodies (decode_lenient : string -> option string)
           (nodes : list part) (bodies : string * string) : option (string * string) :=
  fold_left (body_step decode_lenient) nodes (Some bodies).

(** [y] stands somewhere in [s]. *)
Definition substring (y s : string) : Prop :=
  exists a b, s = a ++ y ++ b.

(** What makes a link one the search is after: the word csv, the storage
    domain or the word export, in any case. *)
Definition mentions_report (link : string) : bool :=
  Py.contains "csv" (Py.lower link) ||
  Py.contains storage_domain (Py.lower link) ||
  Py.contains "export" (Py.lower link).

(** ** Logging *)

(** The levels [log] is called with. *)
Inductive level := LvInfo | LvError | LvSummary.

(** [log]: the lines it prints.  In quiet mode only errors and summary
    lines are printed. *)
Definition log (quiet_mode : bool) (message : string) (lv : level) : list string :=
  if quiet_mode then
    match lv with
    | LvError | LvSummary => [message]
    | LvInfo => []
    end
  else [message].

(** A call of [log], as a run makes it. *)
Definition log_call := (string * level)%type.

(** What a sequence of calls of [log] prints. *)
Definition stdout (quiet_mode : bool) (calls : list log_call) : list string :=
  flat_map (fun c => log quiet_mode (fst c) (snd c)) calls.

(** [str(n)] for a count. *)
Definition str_of_nat (n : nat) : string := NilZero.string_of_uint (Nat.to_uint n).

(** ** [base64.urlsafe_b64encode] and [str.encode] *)

Module Base64.

(** The URL-safe alphabet. *)
Definition digit (n : N) : ascii :=
  if (n <? 26)%N then ascii_of_N (65 + n)
  else if (n <? 52)%N then ascii_of_N (97 + (n - 26))
  else if (n <? 62)%N then ascii_of_N (48 + (n - 52))
  else if (n =? 62)%N then "-" else "_".

(** Three bytes give four digits; one or two bytes at the end are filled
    with [=]. *)
Fixpoint urlsafe_b64encode (bytes : string) : string :=
  match bytes with
  | EmptyString => EmptyString
  | String a EmptyString =>
      let x := Py.code a in
      String (digit (x / 4)) (String (digit (x mod 4 * 16)) "==")
  | String a (String b EmptyString) =>
      let x := Py.code a in
      let y := Py.code b in
      String (digit (x / 4)) (String (digit (x mod 4 * 16 + y / 16))
        (String (digit (y mod 16 * 4)) "="))
  | String a (String b (String c rest)) =>
      let x := Py.code a in
      let y := Py.code b in
      let z := Py.code c in
      String (digit (x / 4)) (String (digit (x mod 4 * 16 + y / 16))
        (String (digit (y mod 16 * 4 + z / 64)) (String (digit (z mod 64))
          (urlsafe_b64encode rest))))
  end.

(** [s.encode()], UTF-8, for code points below 256: one byte below 128,
    two bytes from there. *)
Fixpoint encode (s : string) : string :=
  match s with
  | EmptyString => EmptyString
  | String c r =>
      let x := Py.code c in
      if (x <? 128)%N then String c (encode r)
      else String (ascii_of_N (192 + x / 64)) (String (ascii_of_N (128 + x mod 64)) (encode r))
  end.

(** The value of a digit.  The digits [+] and [/] of the standard
    alphabet are read as well: [urlsafe_b64decode] translates [-] and [_]
    to them and leaves the rest to the standard decoder. *)
Definition value (c : ascii) : option N :=
  let x := Py.code c in
  if Py.in_range "A" "Z" c then Some (x - 65)%N
  else if Py.in_range "a" "z" c then Some (x - 97 + 26)%N
  else if Py.in_range "0" "9" c then Some (x - 48 + 52)%N
  else if (c =? "-")%char || (c =? "+")%char then Some 62%N
  else if (c =? "_")%char || (c =? "/")%char then Some 63%N
  else None.

(** [binascii.a2b_base64], not strict, from a state of its loop: the
    place in the group of four, the bits left over from the last digit,
    the pads seen since it, and the bytes written, last first.  A
    character that is no digit is passed over; enough pads after at least
    two digits end the decoding; [None] is [binascii.Error], raised at
    the end of a text that stops inside a group. *)
Fixpoint a2b_base64 (s : string) (quad_pos : nat) (leftchar : N) (pads : nat)
         (out : string) : option string :=
  match s with
  | EmptyString =>
      if (quad_pos =? 0)%nat then Some (Py.rev_string out EmptyString) else None
  | String c r =>
      if (c =? "=")%char then
        if (2 <=? quad_pos)%nat then
          if (4 <=? quad_pos + S pads)%nat then Some (Py.rev_string out EmptyString)
          else a2b_base64 r quad_pos leftchar (S pads) out
        else a2b_base64 r quad_pos leftchar pads out
      else
        match value c with
        | None => a2b_base64 r quad_pos leftchar pads out
        | Some v =>
            match quad_pos with
            | 0%nat => a2b_base64 r 1 v 0 out
            | 1%nat =>
                a2b_base64 r 2 (v mod 16)%N 0
                           (String (ascii_of_N (leftchar * 4 + v / 16)) out)
            | 2%nat =>
                a2b_base64 r 3 (v mod 4)%N 0
                           (String (ascii_of_N (leftchar * 16 + v / 4)) out)
            | _ => a2b_base64 r 0 0%N 0 (String (ascii_of_N (leftchar * 64 + v)) out)
            end
        end
  end.

(** [base64.urlsafe_b64decode(s)] for a [str]; a character outside ASCII
    is a [ValueError]. *)
Definition urlsafe_b64decode (s : string) : option string :=
  if Py.all_chars (fun c => (Py.code c <? 128)%N) s
  then a2b_base64 s 0 0%N 0 EmptyString
  else None.

End Base64.

(** ** The collaborators of a run

    The mailbox, the web, the exceptions of the record store and the two
    decodings of base64url data are what a run is given.  A read of the mailbox answers by what is asked;
    a call that changes the mailbox answers by what is asked and by the
    calls of that kind made before it.  An answer is the result of the
    call or the exception the source has a handler for. *)

Inductive list_response :=
| Messages (ids : list string)   (* the [id]s of [results['messages']] *)
| ListHttpError.

Inductive get_response :=
| FullMessage (m : message)
| GetHttpError.

Inductive http_response :=
| Text (text : string)             (* a status below 400: [response.text] *)
| HTTPError (status_code : Z)      (* [raise_for_status] raised *)
| RequestError.                    (* any other exception of [requests.get] *)

(** A call that changes the mailbox, made whether or not it succeeds. *)
Inductive mail_call :=
| Modify (msg_id : string)   (* [modify], [removeLabelIds: INBOX] *)
| Trash (msg_id : string)
| Send (raw : string).

Record services := mkservices {
  gmail_list : option string -> list_response;
  gmail_get : string -> get_response;
  gmail_attachment : string -> string -> option string;
  gmail_modify : list mail_call -> string -> option Z;   (* the status of an [HttpError] *)
  gmail_trash : list mail_call -> string -> bool;        (* [false] is an [HttpError] *)
  gmail_send : list mail_call -> string -> bool;         (* [false] is an exception *)
  requests_get : string -> http_response;
  notion_raises : faults;
  decode_strict : string -> option string;
  decode_lenient : string -> option string }.

(** The environment variables a run reads. *)
Record settings := mksettings {
  QUIET_MODE : option string;
  alert_email : option string;
  email1_query : option string;
  email2_query : option string;
  csv1 : csv_config;
  csv2 : csv_config;
  csv2_skip_rows : Z;
  notion_names : notion_config }.

(** [os.environ.get('QUIET_MODE', 'true').lower() == 'true']. *)
Definition quiet_mode (cfg : settings) : bool :=
  (Py.lower (match QUIET_MODE cfg with Some v => v | None => "true" end) =? "true")%string.

(** A [str] or [None] under [if]: the value when it is not empty. *)
Definition truthy (s : option string) : option string :=
  match s with
  | Some (String c r) => Some (String c r)
  | _ => None
  end.

(** [search_email]: the id of the first message listed, and what is
    logged. *)
Definition search_email (sv : services) (query : option string)
  : option string * list log_call :=
  match gmail_list sv query with
  | Messages (id :: _) => (Some id, [])
  | Messages [] => (None, [])
  | ListHttpError => (None, [("Email search error", LvError)])
  end.

(** [get_email_details]: the message, or the empty dict. *)
Definition get_email_details (sv : services) (msg_id : string)
  : message * list log_call :=
  match gmail_get sv msg_id with
  | FullMessage m => (m, [])
  | GetHttpError => (None, [("Error retrieving email", LvError)])
  end.

(** [download_csv]. *)
Definition download_csv (sv : services) (url : string) : option string * list log_call :=
  match requests_get sv url with
  | Text text => (Some text, [])
  | HTTPError status_code =>
      (None,
       [(if status_code =? 403
         then "CSV download error: Access forbidden (link may have expired)"
         else if status_code =? 404 then "CSV download error: File not found"
         else "CSV download error: HTTP " ++ NilZero.string_of_int (Z.to_int status_code),
         LvError)])
  | RequestError => (None, [("CSV download error", LvError)])
  end.

(** Whether the scan of [extract_attachment] ends in its handler. *)
Fixpoint scan_raises (sv : services) (msg_id : string) (ps : list part) : bool :=
  match ps with
  | [] => false
  | p :: rest =>
      if is_csv_name (part_filename p) then
        match part_body_of p with
        | None => true
        | Some b =>
            match attachmentId b with
            | Some (String c r) =>
                match gmail_attachment sv msg_id (String c r) with
                | Some data => match decode_strict sv data with Some _ => false | None => true end
                | None => true
                end
            | _ => scan_raises sv msg_id rest
            end
        end
      else scan_raises sv msg_id rest
  end.

(** Whether [extract_csv_link] ends in its handler. *)
Definition link_raises (sv : services) (m : message) : bool :=
  match extract_bodies (decode_lenient sv) (payload_parts m) (EmptyString, EmptyString) with
  | None => true
  | Some (body_html, body_text) =>
      if Py.is_empty body_html && Py.is_empty body_text then
        let data := inline_data (match m with Some p => part_body_of p | None => None end) in
        if Py.is_empty data then false
        else match decode_lenient sv data with Some _ => false | None => true end
      else false
  end.

(** ** The run *)

(** What a run has done so far: the store and the calls made to it, the
    calls made to change the mailbox, the calls of [log], and the three
    variables of [process]. *)
Record run_state := mkrun {
  notion : store;
  store_calls : list call;
  mailbox_calls : list mail_call;
  logged : list log_call;
  missing_reports : list string;
  processed_emails : list (string * string);
  entries_created : nat }.

Definition say (message : string) (lv : level) (r : run_state) : run_state :=
  mkrun (notion r) (store_calls r) (mailbox_calls r) (logged r ++ [(message, lv)])
        (missing_reports r) (processed_emails r) (entries_created r).

Definition says (calls : list log_call) (r : run_state) : run_state :=
  mkrun (notion r) (store_calls r) (mailbox_calls r) (logged r ++ calls)
        (missing_reports r) (processed_emails r) (entries_created r).

Definition report_missing (name : string) (r : run_state) : run_state :=
  mkrun (notion r) (store_calls r) (mailbox_calls r) (logged r)
        (missing_reports r ++ [name]) (processed_emails r) (entries_created r).

Definition mark_processed (name msg_id : string) (r : run_state) : run_state :=
  mkrun (notion r) (store_calls r) (mailbox_calls r) (logged r)
        (missing_reports r) (processed_emails r ++ [(name, msg_id)]) (entries_created r).

Definition mail (c : mail_call) (r : run_state) : run_state :=
  mkrun (notion r) (store_calls r) (mailbox_calls r ++ [c]) (logged r)
        (missing_reports r) (processed_emails r) (entries_created r).

(** What the handler of [create_or_update_notion_entry] logs. *)
Definition notion_error (cfg : settings) (sv : services) (rt : runtime) (r : run_state)
           (e : entry) : list log_call :=
  if upsert_raises (notion_names cfg) rt (notion_raises sv) (store_calls r) (notion r) e
  then [("Notion error", LvError)] else [].

(** One turn of the loop [for entry in entries]. *)
Definition upsert_entry (cfg : settings) (sv : services) (rt : runtime) (r : run_state)
           (e : entry) : run_state :=
  let written :=
    create_or_update_notion_entry (notion_names cfg) rt (notion_raises sv)
                                  (store_calls r) (notion r) e in
  mkrun (fst written) (store_calls r ++ snd written) (mailbox_calls r)
        (logged r ++ notion_error cfg sv rt r e)
        (missing_reports r) (processed_emails r) (S (entries_created r)).

Definition upsert_entries (cfg : settings) (sv : services) (rt : runtime)
           (entries : list entry) (r : run_state) : run_state :=
  fold_left (upsert_entry cfg sv rt) entries r.

(** How a part of the run ends: it goes on, or an exception leaves
    [process]. *)
Inductive ending :=
| Completed
| Crashed (e : exn).

(** The entries of a source, once its CSV text is there. *)
Definition sync_source (cfg : settings) (sv : services) (rt : runtime)
           (name msg_id : string) (parsed : result (list entry)) (r : run_state)
  : run_state * ending :=
  match parsed with
  | Raise e => (r, Crashed e)
  | Ok entries =>
      let r := say ("Parsed " ++ str_of_nat (length entries) ++ " entries") LvInfo r in
      (mark_processed name msg_id (upsert_entries cfg sv rt entries r), Completed)
  end.

(** The first half of [process]: the report whose CSV is behind a link. *)
Definition process_source1 (cfg : settings) (sv : services) (rt : runtime) (r : run_state)
  : run_state * ending :=
  let source1_name := source_name (csv1 cfg) in
  let r := say (LF ++ "Processing " ++ source1_name) LvInfo r in
  let found := search_email sv (email1_query cfg) in
  let r := says (snd found) r in
  match truthy (fst found) with
  | Some email1_id =>
      let r := say "Email found" LvInfo r in
      let got := get_email_details sv email1_id in
      let r := says (snd got) r in
      let message := fst got in
      let r := if link_raises sv message
               then say "Link extraction error" LvError r else r in
      match truthy (extract_csv_link (decode_lenient sv) message) with
      | Some csv_link =>
          let r := say "CSV link found" LvInfo r in
          let got := download_csv sv csv_link in
          let r := says (snd got) r in
          match truthy (fst got) with
          | Some csv_content =>
              sync_source cfg sv rt source1_name email1_id
                          (parse_csv_source1 (csv1 cfg) rt csv_content) r
          | None =>
              (report_missing source1_name (say "CSV download failed" LvError r), Completed)
          end
      | None =>
          (report_missing source1_name (say "CSV link not found" LvError r), Completed)
      end
  | None => (report_missing source1_name (say "Email not found" LvError r), Completed)
  end.

(** The second half: the report whose CSV is attached. *)
Definition process_source2 (cfg : settings) (sv : services) (rt : runtime) (r : run_state)
  : run_state * ending :=
  let source2_name := source_name (csv2 cfg) in
  let r := say (LF ++ "Processing " ++ source2_name) LvInfo r in
  let found := search_email sv (email2_query cfg) in
  let r := says (snd found) r in
  match truthy (fst found) with
  | Some email2_id =>
      let r := say "Email found" LvInfo r in
      let got := get_email_details sv email2_id in
      let r := says (snd got) r in
      let message := fst got in
      let r := if scan_raises sv email2_id (payload_parts message)
               then say "Attachment extraction error" LvError r else r in
      match truthy (extract_attachment (gmail_attachment sv) (decode_strict sv)
                                       email2_id message) with
      | Some csv_content =>
          let r := say "CSV attachment extracted" LvInfo r in
          sync_source cfg sv rt source2_name email2_id
                      (parse_csv_source2 (csv2 cfg) (csv2_skip_rows cfg) rt csv_content) r
      | None =>
          (report_missing source2_name (say "CSV attachment not found" LvError r), Completed)
      end
  | None => (report_missing source2_name (say "Email not found" LvError r), Completed)
  end.

(** [archive_or_delete_email]. *)
Definition archive_or_delete_email (sv : services) (r : run_state) (msg_id : string)
  : run_state :=
  match gmail_modify sv (mailbox_calls r) msg_id with
  | None => mail (Modify msg_id) r
  | Some status =>
      let r := mail (Modify msg_id) r in
      if status =? 403 then
        if gmail_trash sv (mailbox_calls r) msg_id then mail (Trash msg_id) r
        else say "Cannot archive or trash email" LvError (mail (Trash msg_id) r)
      else say "Email archiving error" LvError r
  end.

Definition CRLF : string := String "013" LF.

(** The RFC 2822 text of the alert. *)
Definition message_text (to : string) (missing_reports : list string) : string :=
  "To: " ++ to ++ CRLF ++
  "Subject: Report Processing Alert" ++ CRLF ++
  CRLF ++
  "Reports not found: " ++ Py.join " and " missing_reports ++ LF ++ LF ++
  "Automated processing could not complete due to missing email reports." ++ LF.

(** [send_alert_email]. *)
Definition send_alert_email (cfg : settings) (sv : services) (r : run_state)
           (missing : list string) : run_state :=
  match truthy (alert_email cfg) with
  | None => r
  | Some to =>
      let raw := Base64.urlsafe_b64encode (Base64.encode (message_text to missing)) in
      if gmail_send sv (mailbox_calls r) raw then mail (Send raw) r
      else say "Alert email error" LvError (mail (Send raw) r)
  end.

(** The end of [process]: cleanup, alert and summary. *)
Definition finish (cfg : settings) (sv : services) (r : run_state) : run_state :=
  let r := say (LF ++ "Cleanup") LvInfo r in
  let r := fold_left (fun r p => archive_or_delete_email sv r (snd p))
                     (processed_emails r) r in
  let r := match missing_reports r with
           | [] => r
           | _ :: _ =>
               send_alert_email cfg sv
                 (say (LF ++ "Missing reports: " ++ Py.join ", " (missing_reports r))
                      LvError r)
                 (missing_reports r)
           end in
  let r := say (LF ++ "Processing complete") LvSummary r in
  let r := say ("Processed: " ++ str_of_nat (length (processed_emails r)) ++ " emails")
               LvSummary r in
  let r := say ("Entries synced: " ++ str_of_nat (entries_created r)) LvSummary r in
  say ("Missing: " ++ str_of_nat (length (missing_reports r)) ++ " reports") LvSummary r.

(** The run before anything is done. *)
Definition start (db : store) : run_state := mkrun db [] [] [] [] [] 0.

(** [process], over the store [db]. *)
Definition process (cfg : settings) (sv : services) (rt : runtime) (db : store)
  : run_state * ending :=
  let r := say "Starting processing" LvSummary (start db) in
  match process_source1 cfg sv rt r with
  | (r, Crashed e) => (r, Crashed e)
  | (r, Completed) =>
      match process_source2 cfg sv rt r with
      | (r, Crashed e) => (r, Crashed e)
      | (r, Completed) => (finish cfg sv r, Completed)
      end
  end.

(** The script: what is printed and the exit status. *)
Definition main (cfg : settings) (sv : services) (rt : runtime) (db : store)
  : list string * Z :=
  match process cfg sv rt db with
  | (r, Completed) => (stdout (quiet_mode cfg) (logged r), 0)
  | (r, Crashed _) =>
      ((stdout (quiet_mode cfg) (logged r) ++ ["Fatal error occurred"])%list, 1)
  end.

(** The reasons [process] logs for a report it counts as missing. *)
Definition missing_reasons : list string :=
  ["Email not found"; "CSV link not found"; "CSV download failed";
   "CSV attachment not found"].

(** The CSV text of the first report as [process] gets it: the download
    behind the link of the first message listed, when each of the three
    is there and not empty. *)
Definition report1_text (cfg : settings) (sv : services) : option string :=
  match truthy (fst (search_email sv (email1_query cfg))) with
  | Some email1_id =>
      match truthy (extract_csv_link (decode_lenient sv)
                                     (fst (get_email_details sv email1_id))) with
      | Some csv_link => truthy (fst (download_csv sv csv_link))
      | None => None
      end
  | None => None
  end.

(** The CSV text of the second report: the attachment of the first
    message listed. *)
Definition report2_text (cfg : settings) (sv : services) : option string :=
  match truthy (fst (search_email sv (email2_query cfg))) with
  | Some email2_id =>
      truthy (extract_attachment (gmail_attachment sv) (decode_strict sv) email2_id
                                 (fst (get_email_details sv email2_id)))
  | None => None
  end.

(** What the parser of each report returns on that text. *)
Definition report1_parsed (cfg : settings) (sv : services) (rt : runtime)
  : option (result (list entry)) :=
  option_map (parse_csv_source1 (csv1 cfg) rt) (report1_text cfg sv).

Definition report2_parsed (cfg : settings) (sv : services) (rt : runtime)
  : option (result (list entry)) :=
  option_map (parse_csv_source2 (csv2 cfg) (csv2_skip_rows cfg) rt) (report2_text cfg sv).

(** The records of a report: those its parser returned, none when the
    report is missing. *)
Definition records_of (parsed : option (result (list entry))) : list entry :=
  match parsed with
  | Some (Ok entries) => entries
  | _ => []
  end.

(** What one half of [process] may do to a run, [parsed] being what the
    parser of the report returned, if the report is there: nothing to the
    mailbox; and either the report is processed, its records synced and
    counted, or it is reported missing with a reason, or the exception of
    the parser left the half before anything was synced. *)
Definition half_done (cfg : settings) (sv : services) (rt : runtime) (name : string)
           (parsed : option (result (list entry)))
           (r r' : run_state) (e : ending) : Prop :=
  mailbox_calls r' = mailbox_calls r /\
  exists said,
    logged r' = (logged r ++ said)%list /\
    match e with
    | Completed =>
        (exists msg_id entries,
           parsed = Some (Ok entries) /\
           msg_id <> EmptyString /\
           processed_emails r' = (processed_emails r ++ [(name, msg_id)])%list /\
           missing_reports r' = missing_reports r /\
           notion r' = sync_entries (notion_names cfg) rt (notion_raises sv)
                                    (store_calls r) (notion r) entries /\
           store_calls r' = (store_calls r ++
                             sync_calls (notion_names cfg) rt (notion_raises sv)
                                        (store_calls r) (notion r) entries)%list /\
           entries_created r' = (entries_created r + length entries)%nat) \/
        (exists reason,
           parsed = None /\
           In reason missing_reasons /\ In (reason, LvError) said /\
           processed_emails r' = processed_emails r /\
           missing_reports r' = (missing_reports r ++ [name])%list /\
           notion r' = notion r /\
           store_calls r' = store_calls r /\
           entries_created r' = entries_created r)
    | Crashed x =>
        parsed = Some (Raise x) /\
        processed_emails r' = processed_emails r /\
        missing_reports r' = missing_reports r /\
        notion r' = notion r /\
        store_calls r' = store_calls r /\
        entries_created r' = entries_created r
    end.

(** The alert [process] sends at its end, if any: one message, when a
    report is missing and an address is configured. *)
Definition alert_calls (cfg : settings) (missing : list string) : list mail_call :=
  match missing, truthy (alert_email cfg) with
  | _ :: _, Some to =>
      [Send (Base64.urlsafe_b64encode (Base64.encode (message_text to missing)))]
  | _, _ => []
  end.

(** The four lines that close the log of a run. *)
Definition summary_lines (r : run_state) : list log_call :=
  [((LF ++ "Processing complete")%string, LvSummary);
   (("Processed: " ++ str_of_nat (length (processed_emails r)) ++ " emails")%string, LvSummary);
   (("Entries synced: " ++ str_of_nat (entries_created r))%string, LvSummary);
   (("Missing: " ++ str_of_nat (length (missing_reports r)) ++ " reports")%string, LvSummary)].

(** The line that names the missing reports. *)
Definition missing_line (r : run_state) : string :=
  LF ++ "Missing reports: " ++ Py.join ", " (missing_reports r).

(** What the cleanup may call for the messages [ids]: for each of them
    an attempt to archive it, and to trash it only after the answer 403
    to that attempt; nothing for any other message, and no message
    sent. *)
Definition cleanup_of (sv : services) (ids : list string) (calls : list mail_call) : Prop :=
  (forall c, In c calls ->
     exists msg_id, In msg_id ids /\
       (c = Modify msg_id \/
        (c = Trash msg_id /\ exists done, gmail_modify sv done msg_id = Some 403))) /\
  (forall msg_id, In msg_id ids -> In (Modify msg_id) calls).

(** A part the scan of [extract_attachment] passes over: one not named
    [.csv], or one named so whose body carries no attachment reference. *)
Definition passed_over (p : part) : bool :=
  if is_csv_name (part_filename p) then
    match part_body_of p with
    | Some b => match attachmentId b with Some (String _ _) => false | _ => true end
    | None => false
    end
  else true.

(** ** Sample runs *)

(** A message with a link in its text body and a CSV file attached. *)
Definition sample_message : message :=
  Some (Part "multipart/mixed" "" None
          [Part "text/plain" ""
                (Some (mkbody (Some "Your report: https://files.example.com/daily.csv") None)) [];
           Part "text/csv" "weekly.csv" (Some (mkbody None (Some "ATT1"))) []]).

Definition weekly_csv : string :=
  "Weekly report" ++ LF ++ "id,amt,date" ++ LF ++ "7,5,3/4" ++ LF.

(** A mailbox that lists the message [m1] for the queries [listed], where
    every call succeeds, base64url data standing for its own decoding;
    the web answers [download] to any request, and no call to the store
    raises. *)
Definition sample_services (listed : list (option string)) (download : http_response)
  : services :=
  mkservices
    (fun q => if existsb (fun q' => match q, q' with
                                   | Some a, Some b => (a =? b)%string
                                   | None, None => true
                                   | _, _ => false
                                   end) listed
              then Messages ["m1"] else Messages [])
    (fun _ => FullMessage sample_message)
    (fun _ _ => Some weekly_csv)
    (fun _ _ => None)
    (fun _ _ => true)
    (fun _ _ => true)
    (fun _ => download)
    no_faults
    Some Some.

Definition sample_settings : settings :=
  mksettings None (Some "ops@example.com") (Some "subject:daily") (Some "subject:weekly")
             (sample_config "Daily") (sample_config "Weekly") 1 default_notion_config.

(** Both reports are there. *)
Definition full_run : run_state * ending :=
  process sample_settings
          (sample_services [Some "subject:daily"; Some "subject:weekly"] (Text sample_csv))
          sample_runtime [].

(** The weekly report is not in the mailbox. *)
Definition daily_only_run : run_state * ending :=
  process sample_settings (sample_services [Some "subject:daily"] (Text sample_csv))
          sample_runtime [].

(** The daily file comes with bare carriage returns for line ends. *)
Definition crashed_run : run_state * ending :=
  process sample_settings
          (sample_services [Some "subject:daily"; Some "subject:weekly"]
             (Text ("id,amt,date" ++ String "013" "1001,25.50,2024-03-01")))
          sample_runtime [].

(** * Properties *)

(** ** Digits *)

Lemma digit_cases (n : Z) :
  let k := n mod 10 in
  k = 0 \/ k = 1 \/ k = 2 \/ k = 3 \/ k = 4 \/ k = 5 \/ k = 6 \/ k = 7 \/ k = 8 \/ k = 9.
Proof. intros k. assert (0 <= k < 10) by (apply Z.mod_pos_bound; lia). lia. Qed.

Ltac by_digit n :=
  unfold digit_char;
  destruct (digit_cases n) as [E|[E|[E|[E|[E|[E|[E|[E|[E|E]]]]]]]]];
  cbv zeta in E; rewrite E; reflexivity.

Lemma digit_char_decimal (n : Z) : Py.is_decimal (digit_char n) = true.
Proof. by_digit n. Qed.

Lemma digit_char_not_space (n : Z) : Py.is_space (digit_char n) = false.
Proof. by_digit n. Qed.

Lemma digit_char_val (n : Z) : Py.digit_val (digit_char n) = n mod 10.
Proof. by_digit n. Qed.

Lemma first_some_found {A B : Type} (f : A -> option B) (l : list A) (y : B) :
  first_some f l = Some y -> exists x, In x l /\ f x = Some y.
Proof.
  induction l as [|x xs IH]; simpl; [discriminate|].
  destruct (f x) eqn:E.
  - intros [= ->]. exists x; auto.
  - intros H. destruct (IH H) as (x' & Hin & Hx). exists x'; auto.
Qed.

Lemma first_some_none {A B : Type} (f : A -> option B) (l : list A) :
  (forall x, In x l -> f x = None) -> first_some f l = None.
Proof.
  induction l as [|x xs IH]; simpl; intros H; [reflexivity|].
  rewrite (H x) by auto. apply IH. intros; apply H; auto.
Qed.

(** ** [strftime] and [strptime] *)

Lemma pad4_value (y : Z) :
  0 <= y <= 9999 ->
  1000 * ((y / 1000) mod 10) + 100 * ((y / 100) mod 10) + 10 * ((y / 10) mod 10) + y mod 10 = y.
Proof. intros H. Z.to_euclidean_division_equations. lia. Qed.

Lemma run_cons (it : item) (fmt : list item) (s : string) (t : tm) :
  run (it :: fmt) s t =
  first_some (fun vr => run fmt (snd vr) (set_field it (fst vr) t)) (candidates it s).
Proof. reflexivity. Qed.

Lemma run_year (fmt : list item) (y : Z) (rest : string) (t : tm) :
  0 <= y <= 9999 ->
  run (FYear :: fmt) (pad4 y rest) t = run fmt rest (set_field FYear y t).
Proof.
  intros Hy. unfold pad4, pad2. cbn [run candidates alternation collect four].
  rewrite !digit_char_decimal. cbn [andb first_some fst snd Py.int_digits].
  rewrite !digit_char_val.
  replace (10 * (10 * (10 * (10 * 0 + (y / 1000) mod 10) + (y / 100) mod 10) + (y / 10) mod 10) + y mod 10)
    with y by (pose proof (pad4_value y Hy); lia).
  destruct (run fmt rest _) as [[]|]; reflexivity.
Qed.

Lemma run_lit (fmt : list item) (c : ascii) (rest : string) (t : tm) :
  run (FLit c :: fmt) (String c rest) t = run fmt rest t.
Proof.
  cbn [run candidates alternation collect]. rewrite Ascii.eqb_refl.
  cbn. destruct (run fmt rest t) as [[]|]; reflexivity.
Qed.

Lemma month_cases (m : Z) : 1 <= m <= 12 ->
  m = 1 \/ m = 2 \/ m = 3 \/ m = 4 \/ m = 5 \/ m = 6 \/
  m = 7 \/ m = 8 \/ m = 9 \/ m = 10 \/ m = 11 \/ m = 12.
Proof. lia. Qed.

Lemma day_cases (d : Z) : 1 <= d <= 31 ->
  (d = 1 \/ d = 2 \/ d = 3 \/ d = 4 \/ d = 5 \/ d = 6 \/ d = 7 \/ d = 8) \/
  (d = 9 \/ d = 10 \/ d = 11 \/ d = 12 \/ d = 13 \/ d = 14 \/ d = 15 \/ d = 16) \/
  (d = 17 \/ d = 18 \/ d = 19 \/ d = 20 \/ d = 21 \/ d = 22 \/ d = 23 \/ d = 24) \/
  (d = 25 \/ d = 26 \/ d = 27 \/ d = 28 \/ d = 29 \/ d = 30 \/ d = 31).
Proof. lia. Qed.

Lemma run_day (d : Z) (t : tm) :
  1 <= d <= 31 ->
  run [FDay] (pad2 d EmptyString) t = Some (set_field FDay d t, EmptyString).
Proof.
  intros H.
  destruct (day_cases d H) as [C|[C|[C|C]]];
    repeat (destruct C as [C|C]); subst d; reflexivity.
Qed.

Ltac eval_candidates :=
  match goal with
  | |- context [candidates ?it ?s] =>
      let c := eval vm_compute in (candidates it s) in
      change (candidates it s) with c
  end.

Lemma run_month (fmt : list item) (m : Z) (rest : string) (t : tm) (r : tm * string) :
  1 <= m <= 12 ->
  run fmt rest (set_field FMonth m t) = Some r ->
  run (FMonth :: fmt) (pad2 m rest) t = Some r.
Proof.
  intros H Hr. rewrite run_cons.
  destruct (month_cases m H) as [C|C]; repeat (destruct C as [C|C]); subst m;
    eval_candidates; cbn [first_some fst snd]; rewrite Hr; reflexivity.
Qed.

Lemma valid_tm_date (t : tm) : valid_tm t = true -> valid_tm (date_of t) = true.
Proof.
  unfold valid_tm, date_of; cbn -[valid_date]. intros H.
  do 6 (apply andb_prop in H; destruct H as [H ?]). rewrite H. reflexivity.
Qed.

Lemma valid_tm_bounds (t : tm) : valid_tm t = true ->
  1 <= tm_year t <= 9999 /\ 1 <= tm_mon t <= 12 /\ 1 <= tm_mday t <= 31.
Proof.
  unfold valid_tm, valid_date. intros H.
  repeat (apply andb_prop in H; destruct H as [H ?]).
  assert (days_in_month (tm_year t) (tm_mon t) <= 31).
  { unfold days_in_month.
    destruct (tm_mon t =? 2); [destruct (is_leap _); lia|].
    destruct (_ || _); lia. }
  lia.
Qed.

Lemma strftime_padded (fill : bool) (t : tm) :
  fill = true \/ 1000 <= tm_year t ->
  strftime fill t =
  pad4 (tm_year t) (String "-" (pad2 (tm_mon t) (String "-" (pad2 (tm_mday t) EmptyString)))).
Proof.
  unfold strftime, bare_year. intros [->|H]; [reflexivity|].
  destruct fill; [reflexivity|].
  destruct (tm_year t <? 10) eqn:E1; [lia|].
  destruct (tm_year t <? 100) eqn:E2; [lia|].
  destruct (tm_year t <? 1000) eqn:E3; [lia|]. reflexivity.
Qed.

(** A printed date reads back, under the ISO format, as the date printed. *)
Lemma strptime_strftime (fill : bool) (t : tm) :
  valid_tm t = true ->
  fill = true \/ 1000 <= tm_year t ->
  strptime iso_format (strftime fill t) = Some (date_of t).
Proof.
  intros Hv Hy. rewrite strftime_padded by assumption.
  destruct (valid_tm_bounds t Hv) as (By & Bm & Bd).
  unfold strptime, iso_format.
  rewrite run_year by lia. rewrite run_lit.
  rewrite (run_month _ _ _ _ (date_of t, EmptyString)); [|lia|].
  - rewrite valid_tm_date by assumption. reflexivity.
  - rewrite run_lit. rewrite run_day by lia. reflexivity.
Qed.

Lemma lstrip_no_space (s : string) :
  Py.all_chars no_space s = true -> Py.lstrip s = s.
Proof.
  destruct s as [|c r]; [reflexivity|]. cbn. unfold no_space.
  destruct (Py.is_space c); [discriminate|reflexivity].
Qed.

Lemma rstrip_no_space (s : string) :
  Py.all_chars no_space s = true -> Py.rstrip s = s.
Proof.
  induction s as [|c r IH]; [reflexivity|]. cbn [Py.all_chars Py.rstrip].
  intros H. apply andb_prop in H. destruct H as [Hc Hr]. rewrite (IH Hr).
  destruct r; [|reflexivity]. unfold no_space in Hc.
  destruct (Py.is_space c); [discriminate|reflexivity].
Qed.

Lemma strip_no_space (s : string) :
  Py.all_chars no_space s = true -> Py.strip s = s.
Proof.
  intros H. unfold Py.strip. rewrite lstrip_no_space by assumption.
  apply rstrip_no_space; assumption.
Qed.

Lemma strftime_no_space (fill : bool) (t : tm) :
  fill = true \/ 1000 <= tm_year t ->
  Py.all_chars no_space (strftime fill t) = true.
Proof.
  intros H. rewrite strftime_padded by assumption.
  unfold pad4, pad2, no_space. cbn [Py.all_chars].
  rewrite !digit_char_not_space. reflexivity.
Qed.

Lemma strftime_well_formed (fill : bool) (t : tm) :
  fill = true \/ 1000 <= tm_year t ->
  well_formed_date (strftime fill t) = true.
Proof.
  intros H. rewrite strftime_padded by assumption.
  unfold pad4, pad2, well_formed_date. rewrite !digit_char_decimal. reflexivity.
Qed.

Lemma strftime_date_of (fill : bool) (t : tm) :
  strftime fill (date_of t) = strftime fill t.
Proof. reflexivity. Qed.

(** ** The date normalisers *)

Lemma full_date_strftime (fill : bool) (t : tm) :
  valid_tm t = true ->
  fill = true \/ 1000 <= tm_year t ->
  full_date (strftime fill t) = Some (date_of t).
Proof.
  intros Hv Hy. unfold full_date.
  rewrite strip_no_space by (apply strftime_no_space; assumption).
  change full_formats with (iso_format :: tl full_formats).
  cbn [first_some]. rewrite strptime_strftime by assumption. reflexivity.
Qed.

Lemma strptime_valid (fmt : list item) (s : string) (dt : tm) :
  strptime fmt s = Some dt -> valid_tm dt = true.
Proof.
  unfold strptime. destruct (run fmt s tm_default) as [[t [|? ?]]|]; try discriminate.
  destruct (valid_tm t) eqn:E; [|discriminate]. intros [= <-]. assumption.
Qed.

Lemma full_date_valid (s : string) (dt : tm) :
  full_date s = Some dt -> valid_tm dt = true.
Proof.
  intros H. apply first_some_found in H. destruct H as (fmt & _ & H).
  eapply strptime_valid; eassumption.
Qed.

Lemma full_date_blank (s : string) :
  Py.is_empty s || Py.is_empty (Py.strip s) = true -> full_date s = None.
Proof.
  intros H. assert (E : Py.strip s = EmptyString).
  { destruct s; [reflexivity|]. cbn [Py.is_empty orb] in H.
    destruct (Py.strip (String a s)); [reflexivity|discriminate]. }
  unfold full_date. rewrite E. reflexivity.
Qed.

Lemma parse_date_parsed (rt : runtime) (s : string) (dt : tm) :
  full_date s = Some dt -> _parse_date rt s = strftime (zero_fill_year rt) dt.
Proof.
  intros H. unfold _parse_date.
  destruct (Py.is_empty s || Py.is_empty (Py.strip s)) eqn:E.
  - rewrite (full_date_blank s E) in H. discriminate.
  - rewrite H. reflexivity.
Qed.

Lemma parse_date_fallback (rt : runtime) (s : string) :
  parses_full s = false -> _parse_date rt s = today_str rt.
Proof.
  unfold parses_full, _parse_date. destruct (full_date s); [discriminate|].
  intros _. destruct (_ || _); reflexivity.
Qed.

Lemma yearless_date_unparsed (s : string) (year : Z) (fmts : list (list item)) :
  (forall fmt, In fmt fmts -> strptime fmt s = None) ->
  yearless_date s year fmts = Unparsed.
Proof.
  induction fmts as [|fmt rest IH]; intros H; cbn; [reflexivity|].
  rewrite (H fmt) by (left; reflexivity). apply IH. intros f Hf. apply H. right. exact Hf.
Qed.

Lemma yearless_fallback (rt : runtime) (s : string) (year : Z) :
  parses_yearless s = false -> _parse_date_with_year rt s year = _parse_date rt s.
Proof.
  unfold parses_yearless, _parse_date_with_year. intros H.
  rewrite yearless_date_unparsed; [reflexivity|].
  intros fmt Hin. destruct (strptime fmt s) eqn:E; [|reflexivity].
  exfalso. apply Bool.not_true_iff_false in H. apply H.
  apply existsb_exists. exists fmt. rewrite E. auto.
Qed.

(** The one way to [<year>-01-01]: a token that a year-less format parses
    and a year that fits no C [int]. *)
Lemma yearless_overflow_example (rt : runtime) :
  _parse_date_with_year rt "3/4" 2147483648 = "2147483648-01-01".
Proof. reflexivity. Qed.

(** When none of the year-less formats parses the token and none of the
    full-date formats parses it either, [_parse_date_with_year] returns
    today's date, the fallback of [_parse_date]; the year it was given
    plays no part. *)
Lemma yearless_total_failure_gives_today (rt : runtime) (s : string) (year : Z) :
  parses_yearless s = false ->
  parses_full s = false ->
  _parse_date_with_year rt s year = today_str rt.
Proof.
  intros Hl Hf. rewrite (yearless_fallback rt s year Hl). apply parse_date_fallback, Hf.
Qed.

(** C3, the code at the failing input.  No year-less format and no
    full-date format parses the token [n/a].  On 4 November 2026 the
    year-less normaliser, called with the year 2024, returns
    [2026-11-04], today's date, and not the [2024-01-01] that its own
    handler holds for the failure: the fallback [_parse_date] never
    raises, so that the handler is not reached. *)
Theorem yearless_total_failure_not_january_first :
  parses_yearless "n/a" = false /\ parses_full "n/a" = false /\
  _parse_date_with_year sample_runtime "n/a" 2024 = "2026-11-04" /\
  first_of_january 2024 = "2024-01-01" /\
  _parse_date_with_year sample_runtime "n/a" 2024 <> first_of_january 2024.
Proof. repeat split; try reflexivity. vm_compute. discriminate. Qed.

(** C7.  Under a clock whose year has four digits, an empty token and a
    token that no supported format parses are normalised to a well-formed
    [YYYY-MM-DD] string, which is not empty: by [_parse_date] when none of
    its seven full-date formats parses the token, and by
    [_parse_date_with_year] when none of its four year-less formats and
    none of the full-date formats does.  Both normalisers are total
    functions of a [str] token: every exception of the source has its case
    in them, none escapes. *)
Theorem fallback_date_well_formed (rt : runtime) (s : string) (year : Z) :
  1000 <= tm_year (now rt) <= 9999 ->
  (s = EmptyString \/ parses_full s = false ->
   well_formed_date (_parse_date rt s) = true /\ _parse_date rt s <> EmptyString) /\
  (s = EmptyString \/ (parses_yearless s = false /\ parses_full s = false) ->
   well_formed_date (_parse_date_with_year rt s year) = true /\
   _parse_date_with_year rt s year <> EmptyString).
Proof.
  intros [Hy _].
  assert (W : well_formed_date (today_str rt) = true)
    by (apply strftime_well_formed; right; assumption).
  assert (N : today_str rt <> EmptyString)
    by (intros E; rewrite E in W; discriminate).
  split; intros Hs.
  - assert (Hf : parses_full s = false)
      by (destruct Hs as [->|Hs]; [reflexivity|assumption]).
    rewrite (parse_date_fallback rt s Hf). auto.
  - assert (H : parses_yearless s = false /\ parses_full s = false)
      by (destruct Hs as [->|Hs]; [split; reflexivity|assumption]).
    destruct H as [Hl Hf].
    rewrite (yearless_fallback rt s year Hl), (parse_date_fallback rt s Hf). auto.
Qed.

Lemma fallback_date_well_formed_witness :
  (well_formed_date (_parse_date sample_runtime "3/4") = true /\
   _parse_date sample_runtime "3/4" <> EmptyString) /\
  (well_formed_date (_parse_date_with_year sample_runtime "tomorrow" 2026) = true /\
   _parse_date_with_year sample_runtime "tomorrow" 2026 <> EmptyString).
Proof.
  destruct (fallback_date_well_formed sample_runtime "3/4" 2026) as [H1 _];
    [cbn; lia|].
  destruct (fallback_date_well_formed sample_runtime "tomorrow" 2026) as [_ H2];
    [cbn; lia|].
  split.
  - apply H1. right. reflexivity.
  - apply H2. right. split; reflexivity.
Defined.

(** For a token that parses under one of the full-date formats,
    [_parse_date] is idempotent when the parsed year has four digits, or
    when the C library fills [%Y] with zeros. *)
Lemma parse_date_idempotent (rt : runtime) (s : string) (dt : tm) :
  full_date s = Some dt ->
  zero_fill_year rt = true \/ 1000 <= tm_year dt ->
  _parse_date rt (_parse_date rt s) = _parse_date rt s.
Proof.
  intros Hp Hy. rewrite (parse_date_parsed rt s dt Hp).
  pose proof (full_date_valid s dt Hp) as Hv.
  rewrite (parse_date_parsed rt _ (date_of dt)).
  - apply strftime_date_of.
  - apply full_date_strftime; assumption.
Qed.

Lemma parse_date_idempotent_witness :
  _parse_date sample_runtime (_parse_date sample_runtime " 3/4/2024 ")
  = _parse_date sample_runtime " 3/4/2024 ".
Proof.
  apply (parse_date_idempotent sample_runtime " 3/4/2024 " (mktm 2024 3 4 0 0 0)).
  - reflexivity.
  - right. cbn. lia.
Defined.

(** C8, the code at the failing input.  Where glibc prints the year,
    [0999-01-01] parses under the ISO format and is normalised to
    [999-01-01], which is no [YYYY-MM-DD] string and which no format
    parses, so that normalising again gives today's date. *)
Theorem parse_date_year_999_not_idempotent :
  parses_full "0999-01-01" = true /\
  _parse_date sample_runtime "0999-01-01" = "999-01-01" /\
  well_formed_date (_parse_date sample_runtime "0999-01-01") = false /\
  _parse_date sample_runtime (_parse_date sample_runtime "0999-01-01") = "2026-11-04".
Proof. repeat split; reflexivity. Qed.

(** ** The CSV parsers *)

Section Tokens.

(** A class of digits; the dot is none of them. *)
Variable p : ascii -> bool.
Hypothesis dot_apart : p "." = false.

Lemma all_class_no_dot (s : string) :
  Py.all_chars p s = Py.all_chars (or_dot p) s && (count_char "." s <=? 0)%nat.
Proof.
  induction s as [|c r IH]; [reflexivity|]. cbn [Py.all_chars count_char].
  unfold or_dot at 1. destruct (c =? ".")%char eqn:E.
  - apply Ascii.eqb_eq in E. subst c. rewrite dot_apart. cbn.
    rewrite andb_false_r. reflexivity.
  - rewrite orb_false_r, IH. destruct (p c); reflexivity.
Qed.

Lemma replace_first_dot_class (s : string) :
  Py.all_chars p (Py.replace_first_dot s) =
  Py.all_chars (or_dot p) s && (count_char "." s <=? 1)%nat.
Proof.
  induction s as [|c r IH]; [reflexivity|].
  cbn [Py.all_chars count_char Py.replace_first_dot].
  unfold or_dot at 1. destruct (c =? ".")%char eqn:E.
  - rewrite orb_true_r. cbn [andb]. rewrite all_class_no_dot. reflexivity.
  - rewrite orb_false_r. cbn [Py.all_chars]. rewrite IH.
    destruct (p c); reflexivity.
Qed.

Lemma all_class_has (s : string) :
  Py.all_chars p s = true -> has_char p s = negb (Py.is_empty s).
Proof.
  destruct s as [|c r]; [reflexivity|]. cbn. intros H.
  apply andb_prop in H. destruct H as [-> _]. reflexivity.
Qed.

Lemma has_class_after_replace (s : string) :
  has_char p (Py.replace_first_dot s) = has_char p s.
Proof.
  induction s as [|c r IH]; [reflexivity|]. cbn [Py.replace_first_dot has_char].
  destruct (c =? ".")%char eqn:E.
  - apply Ascii.eqb_eq in E. subst c. rewrite dot_apart. reflexivity.
  - cbn [has_char]. rewrite IH. reflexivity.
Qed.

Lemma replaced_token (s : string) :
  negb (Py.is_empty (Py.replace_first_dot s)) && Py.all_chars p (Py.replace_first_dot s) =
  Py.all_chars (or_dot p) s && (count_char "." s <=? 1)%nat && has_char p s.
Proof.
  rewrite <- replace_first_dot_class, <- has_class_after_replace.
  destruct (Py.all_chars p (Py.replace_first_dot s)) eqn:E.
  - rewrite all_class_has by assumption. rewrite andb_true_r. reflexivity.
  - rewrite andb_false_r. reflexivity.
Qed.

End Tokens.

(** The check of the source takes the numeric tokens over the digits of
    [isdigit]. *)
Lemma numeric_id_spec (s : string) : numeric_id s = is_digit_token s.
Proof.
  unfold numeric_id, Py.isdigit, is_digit_token.
  apply (replaced_token Py.is_digit). reflexivity.
Qed.

(** Where no superscript digit stands, they are the numeric tokens of the
    specification. *)
Lemma digit_token_decimal (s : string) :
  has_char superscript s = false -> is_digit_token s = is_numeric_token s.
Proof.
  unfold is_digit_token, is_numeric_token. intros H.
  assert (A : forall r, has_char superscript r = false ->
                        Py.all_chars (fun c => Py.is_digit c || (c =? ".")%char) r =
                        Py.all_chars (fun c => Py.is_decimal c || (c =? ".")%char) r /\
                        has_char Py.is_digit r = has_char Py.is_decimal r).
  { induction r as [|c r IH]; [split; reflexivity|]. cbn [has_char Py.all_chars].
    intros Hr. apply orb_false_iff in Hr. destruct Hr as [Hc Hr].
    destruct (IH Hr) as [-> ->].
    assert (E : Py.is_digit c = Py.is_decimal c).
    { unfold superscript in Hc. destruct (Py.is_digit c) eqn:D, (Py.is_decimal c) eqn:D';
        try reflexivity; try discriminate.
      unfold Py.is_digit in D. rewrite D' in D. discriminate. }
    rewrite E. split; reflexivity. }
  destruct (A s H) as [-> ->]. reflexivity.
Qed.

Lemma filter_map_In {A B : Type} (f : A -> option B) (l : list A) (y : B) :
  In y (filter_map f l) -> exists x, In x l /\ f x = Some y.
Proof.
  induction l as [|x xs IH]; cbn; [tauto|].
  destruct (f x) eqn:E.
  - intros [<-|H]; [exists x; auto|].
    destruct (IH H) as (x' & ? & ?); exists x'; auto.
  - intros H. destruct (IH H) as (x' & ? & ?); exists x'; auto.
Qed.

Lemma numeric_id_valid (s : string) :
  Py.is_empty s = false -> numeric_id s = true -> has_char superscript s = false ->
  valid_order_id s.
Proof.
  intros He Hn Hs. repeat split.
  - intros ->. discriminate.
  - intros ->. discriminate.
  - rewrite <- digit_token_decimal, <- numeric_id_spec; assumption.
Qed.

Lemma entry_source1_id (cfg : csv_config) (rt : runtime) (row : dict) (e : entry) :
  entry_source1 cfg rt row = Some e ->
  get_stripped (id_field cfg) row = Some (order_id e) /\
  Py.is_empty (order_id e) = false /\ numeric_id (order_id e) = true.
Proof.
  unfold entry_source1.
  destruct (get_stripped (id_field cfg) row) as [oid|]; [|discriminate].
  destruct (get_stripped (date_field cfg) row) as [ds|]; [|discriminate].
  destruct (Py.is_empty oid) eqn:E1; [discriminate|].
  destruct (Py.is_empty ds); [discriminate|]. cbn [orb].
  destruct (numeric_id oid) eqn:E2; [|discriminate]. cbn [negb].
  destruct (get_amount _ _); [|discriminate].
  intros [= <-]. cbn. auto.
Qed.

Lemma entry_source2_id (cfg : csv_config) (rt : runtime) (row : dict) (e : entry) :
  entry_source2 cfg rt row = Some e ->
  get_stripped (id_field cfg) row = Some (order_id e) /\
  Py.is_empty (order_id e) = false /\ numeric_id (order_id e) = true.
Proof.
  unfold entry_source2.
  destruct (get_stripped (date_field cfg) row) as [ds|]; [|discriminate].
  destruct (get_stripped (id_field cfg) row) as [oid|]; [|discriminate].
  destruct (Py.is_empty oid) eqn:E1; [discriminate|].
  destruct (Py.is_empty ds); [discriminate|]. cbn [orb].
  destruct (numeric_id oid) eqn:E2; [|discriminate]. cbn [negb].
  destruct (first_col_value row); [|discriminate].
  destruct (existsb _ _); [discriminate|].
  destruct (_ || _); [discriminate|].
  destruct (get_amount _ _); [|discriminate].
  intros [= <-]. cbn. auto.
Qed.

Lemma not_valid_excluded (oid : string) :
  oid = EmptyString \/ oid = "Total" \/ is_numeric_token oid = false ->
  ~ valid_order_id oid.
Proof.
  intros [->|[->|H]] (H1 & H2 & H3); congruence.
Qed.

(** Where the id holds no superscript digit, the parsers keep the
    invariant of the record schema: every record that
    [parse_csv_source1] or [parse_csv_source2] returns with such an id
    has an [orderId] that is not empty, is not [Total] and is a numeric
    token; and a row whose id field, once trimmed, is such a text and is
    blank, [Total] or no numeric token gives no record in either
    parser. *)
Lemma parsers_keep_decimal_ids (cfg : csv_config) (skip_rows : Z) (rt : runtime)
      (csv_content : string) :
  (forall entries, parse_csv_source1 cfg rt csv_content = Ok entries ->
     Forall (fun e => has_char superscript (order_id e) = false ->
                      valid_order_id (order_id e)) entries) /\
  (forall entries, parse_csv_source2 cfg skip_rows rt csv_content = Ok entries ->
     Forall (fun e => has_char superscript (order_id e) = false ->
                      valid_order_id (order_id e)) entries) /\
  (forall row oid, get_stripped (id_field cfg) row = Some oid ->
     has_char superscript oid = false ->
     oid = EmptyString \/ oid = "Total" \/ is_numeric_token oid = false ->
     entry_source1 cfg rt row = None /\ entry_source2 cfg rt row = None).
Proof.
  split; [|split].
  - unfold parse_csv_source1. intros entries H.
    destruct (DictReader csv_content) as [rows|]; [|discriminate].
    cbn in H. injection H as <-. apply Forall_forall. intros e He Hs.
    apply filter_map_In in He. destruct He as (row & _ & He).
    destruct (entry_source1_id cfg rt row e He) as (_ & H1 & H2).
    apply numeric_id_valid; assumption.
  - unfold parse_csv_source2. intros entries H.
    destruct (DictReader _) as [rows|]; [|discriminate].
    cbn in H. injection H as <-. apply Forall_forall. intros e He Hs.
    apply filter_map_In in He. destruct He as (row & _ & He).
    destruct (entry_source2_id cfg rt row e He) as (_ & H1 & H2).
    apply numeric_id_valid; assumption.
  - intros row oid Hid Hs Hbad. apply not_valid_excluded in Hbad. split.
    + destruct (entry_source1 cfg rt row) as [e|] eqn:E; [|reflexivity].
      destruct (entry_source1_id cfg rt row e E) as (Hg & H1 & H2).
      rewrite Hid in Hg. injection Hg as ->. exfalso. apply Hbad.
      apply numeric_id_valid; assumption.
    + destruct (entry_source2 cfg rt row) as [e|] eqn:E; [|reflexivity].
      destruct (entry_source2_id cfg rt row e E) as (Hg & H1 & H2).
      rewrite Hid in Hg. injection Hg as ->. exfalso. apply Hbad.
      apply numeric_id_valid; assumption.
Qed.

(** C4, the code at the failing input.  A row whose id field is the
    superscript two is returned as a record by both parsers: [isdigit]
    takes the character for a digit.  The id is no numeric token, it
    breaks the invariant of the record schema, and [int] refuses it, so
    that the store step has no key for the record. *)
Theorem superscript_id_kept :
  parse_csv_source1 (sample_config "Source1") sample_runtime superscript_csv =
    Ok [mkentry "Source1" (Finite 5) superscript_two "2024-03-01"] /\
  parse_csv_source2 (sample_config "Source2") 0 sample_runtime superscript_csv =
    Ok [mkentry "Source2" (Finite 5) superscript_two "2024-03-01"] /\
  is_numeric_token superscript_two = false /\
  ~ valid_order_id superscript_two /\
  numeric_key sample_runtime superscript_two = None.
Proof.
  split; [reflexivity|]. split; [reflexivity|]. split; [reflexivity|].
  split; [|reflexivity]. intros (_ & _ & H). discriminate H.
Qed.

(** C9.  With the fields mapped to [amt], [id] and [date], the sample
    text gives exactly one record: order [1001], amount 51/2, that is
    25.50, date [2024-03-01]; the [Total] row gives none. *)
Theorem parse_csv_source1_sample (label : string) (rt : runtime) :
  parse_csv_source1 (sample_config label) rt sample_csv =
  Ok [mkentry label (Finite (51 # 2)) "1001" "2024-03-01"].
Proof. destruct rt as [t [] n]; reflexivity. Qed.

(** A row whose first value, trimmed and in lower case, is one of the
    summary labels gives no record. *)
Lemma entry_source2_label_excluded (cfg : csv_config) (rt : runtime) (row : dict) (v : string) :
  first_col_value row = Some v ->
  existsb (String.eqb v) summary_labels = true ->
  entry_source2 cfg rt row = None.
Proof.
  intros Hv Hl. unfold entry_source2.
  destruct (get_stripped (date_field cfg) row); [|reflexivity].
  destruct (get_stripped (id_field cfg) row); [|reflexivity].
  destruct (_ || _); [reflexivity|].
  destruct (negb _); [reflexivity|].
  rewrite Hv, Hl. reflexivity.
Qed.

(** C6, the code at the failing input.  With one line skipped, the header
    [Label,Order,Date,Amount,Label] and the data row
    [Subtotal,5,3/4,12.50,n/a], the first column of the row is [Subtotal];
    the row mapping keeps, under [Label], the last field, the label check
    reads [n/a], and the row is returned as a record. *)
Theorem subtotal_row_kept_under_repeated_header :
  reader_rows repeated_header_table =
    Ok [["Label"; "Order"; "Date"; "Amount"; "Label"];
        ["Subtotal"; "5"; "3/4"; "12.50"; "n/a"]] /\
  first_column ["Subtotal"; "5"; "3/4"; "12.50"; "n/a"] = "subtotal" /\
  existsb (String.eqb "subtotal") summary_labels = true /\
  DictReader repeated_header_table =
    Ok [[(Some "Label", CStr "n/a"); (Some "Order", CStr "5");
         (Some "Date", CStr "3/4"); (Some "Amount", CStr "12.50")]] /\
  parse_csv_source2 repeated_header_config 1 sample_runtime repeated_header_csv =
    Ok [mkentry "Source2" (Finite (25 # 2)) "5" "2026-03-04"].
Proof. repeat split; reflexivity. Qed.

(** ** The record store *)

Lemma get_set_same (k : string) (v : property) (d : properties) :
  get_prop k (set_prop k v d) = Some v.
Proof.
  unfold get_prop, set_prop.
  induction d as [|[k' v'] d IH]; cbn.
  - rewrite String.eqb_refl. reflexivity.
  - destruct (k =? k')%string eqn:E; cbn; rewrite E; [reflexivity|assumption].
Qed.

Lemma get_set_other (k k' : string) (v : property) (d : properties) :
  k <> k' -> get_prop k (set_prop k' v d) = get_prop k d.
Proof.
  unfold get_prop, set_prop. intros Hk.
  induction d as [|[k2 v2] d IH]; cbn.
  - apply String.eqb_neq in Hk. rewrite Hk. reflexivity.
  - destruct (k' =? k2)%string eqn:E; cbn.
    + apply String.eqb_eq in E. subst k2.
      apply String.eqb_neq in Hk. rewrite Hk. reflexivity.
    + destruct (k =? k2)%string; [reflexivity|assumption].
Qed.

Lemma get_absent (k : string) (d : properties) :
  ~ In k (map fst d) -> get_prop k d = None.
Proof.
  unfold get_prop. induction d as [|[k' v'] d IH]; cbn; [reflexivity|].
  intros H. destruct (k =? k')%string eqn:E.
  - apply String.eqb_eq in E. subst. tauto.
  - apply IH. tauto.
Qed.

Lemma set_prop_keys (k k' : string) (v : property) (d : properties) :
  In k' (map fst (set_prop k v d)) -> k' = k \/ In k' (map fst d).
Proof.
  unfold set_prop. induction d as [|[k2 v2] d IH]; cbn.
  - intros [<-|[]]; auto.
  - destruct (k =? k2)%string; cbn; [tauto|]. intros [<-|H]; [tauto|].
    destruct (IH H); tauto.
Qed.

Lemma set_prop_unique (k : string) (v : property) (d : properties) :
  NoDup (map fst d) -> NoDup (map fst (set_prop k v d)).
Proof.
  induction d as [|[k2 v2] d IH]; cbn.
  - intros _. constructor; [tauto|constructor].
  - intros H. inversion H as [|? ? Hn Hd]; subst.
    destruct (k =? k2)%string eqn:E; cbn; [assumption|].
    constructor; [|apply IH; assumption].
    intros Hin. apply set_prop_keys in Hin. destruct Hin as [->|Hin]; [|tauto].
    rewrite String.eqb_refl in E. discriminate.
Qed.

(** After [pages.update] a property is the one written, or else the one
    the page had. *)
Lemma merge_get (k : string) (props page : properties) :
  NoDup (map fst props) ->
  get_prop k (merge page props) =
  match get_prop k props with Some v => Some v | None => get_prop k page end.
Proof.
  unfold merge. revert page.
  induction props as [|[k1 v1] ps IH]; intros page Hn; cbn [fold_left fst snd].
  - reflexivity.
  - inversion Hn as [|? ? Hk Hps]; subst. rewrite IH by assumption.
    unfold get_prop at 3. cbn [assoc_get]. fold (get_prop k ps).
    destruct (k =? k1)%string eqn:E.
    + apply String.eqb_eq in E. subst k1.
      rewrite (get_absent k ps Hk). apply get_set_same.
    + apply String.eqb_neq in E. rewrite (get_set_other k k1 v1 page E). reflexivity.
Qed.

Lemma properties_with_unique (cfg : notion_config) (rt : runtime) (e : entry) (k : Z) :
  NoDup (map fst (properties_with cfg rt e k)).
Proof. unfold properties_with. repeat apply set_prop_unique. constructor. Qed.

Lemma properties_with_id (cfg : notion_config) (rt : runtime) (e : entry) (k : Z) :
  id_property cfg <> date_property cfg ->
  id_property cfg <> checkbox_property cfg ->
  get_prop (id_property cfg) (properties_with cfg rt e k) =
  Some (Number (Finite (inject_Z k))).
Proof.
  intros H1 H2. unfold properties_with.
  rewrite get_set_other by assumption. rewrite get_set_other by assumption.
  apply get_set_same.
Qed.

Lemma properties_with_amount (cfg : notion_config) (rt : runtime) (e : entry) (k : Z) :
  amount_property cfg <> id_property cfg ->
  amount_property cfg <> date_property cfg ->
  amount_property cfg <> checkbox_property cfg ->
  get_prop (amount_property cfg) (properties_with cfg rt e k) =
  Some (Number (order_amount e)).
Proof.
  intros H1 H2 H3. unfold properties_with.
  rewrite !get_set_other by assumption. apply get_set_same.
Qed.

Lemma number_equals_written (name : string) (k : Z) (page props : properties) :
  NoDup (map fst props) ->
  get_prop name props = Some (Number (Finite (inject_Z k))) ->
  number_equals name k props = true /\ number_equals name k (merge page props) = true.
Proof.
  intros Hn Hg. unfold number_equals. rewrite merge_get by assumption. rewrite Hg.
  split; apply Qeq_bool_iff; reflexivity.
Qed.

Lemma query_from_ge (i j : page_id) (db : store) (name : string) (k : Z) :
  In j (query_from i db name k) -> (i <= j)%nat.
Proof.
  revert i. induction db as [|p db IH]; cbn; intros i; [tauto|].
  destruct (number_equals name k p); cbn.
  - intros [<-|H]; [lia|]. apply IH in H. lia.
  - intros H. apply IH in H. lia.
Qed.

Lemma query_from_app (i : page_id) (db : store) (p : properties) (name : string) (k : Z) :
  query_from i (create db p) name k =
  (query_from i db name k ++
   if number_equals name k p then [(i + length db)%nat] else [])%list.
Proof.
  unfold create. revert i. induction db as [|q db IH]; cbn; intros i.
  - rewrite Nat.add_0_r. destruct (number_equals name k p); reflexivity.
  - rewrite IH. replace (S i + length db)%nat with (i + S (length db))%nat by lia.
    destruct (number_equals name k q); reflexivity.
Qed.

Lemma query_from_nth (i j : page_id) (db : store) (name : string) (k : Z) :
  In (i + j)%nat (query_from i db name k) ->
  exists page, nth_error db j = Some page /\ number_equals name k page = true.
Proof.
  revert i j. induction db as [|p db IH]; cbn; intros i j; [tauto|].
  destruct j as [|j].
  - destruct (number_equals name k p) eqn:E.
    + intros _. exists p. auto.
    + intros H. apply query_from_ge in H. lia.
  - replace (i + S j)%nat with (S i + j)%nat by lia.
    destruct (number_equals name k p); cbn.
    + intros [H|H]; [lia|]. apply (IH (S i) j H).
    + apply (IH (S i) j).
Qed.

Lemma query_from_update (i j : page_id) (db : store) (props : properties)
      (name : string) (k : Z) :
  In (i + j)%nat (query_from i db name k) ->
  (forall page, number_equals name k (merge page props) = true) ->
  query_from i (update db j props) name k = query_from i db name k.
Proof.
  intros Hin Hp. revert i j Hin. induction db as [|p db IH]; intros i j Hin; [reflexivity|].
  destruct j as [|j]; cbn in *.
  - rewrite Hp. destruct (number_equals name k p); [reflexivity|].
    apply query_from_ge in Hin. lia.
  - replace (i + S j)%nat with (S i + j)%nat in Hin by lia.
    destruct (number_equals name k p).
    + destruct Hin as [H|H]; [lia|]. rewrite (IH (S i) j H). reflexivity.
    + apply (IH (S i) j Hin).
Qed.

Lemma nth_update (db : store) (j : page_id) (props page : properties) :
  nth_error db j = Some page ->
  nth_error (update db j props) j = Some (merge page props).
Proof.
  revert j. induction db as [|p db IH]; intros [|j]; cbn; try discriminate.
  - intros [= ->]. reflexivity.
  - apply IH.
Qed.

Lemma strip_nonempty (s : string) :
  Py.is_empty (Py.strip s) = false ->
  Py.is_empty s || Py.is_empty (Py.strip s) = false.
Proof. intros H. rewrite H. destruct s; [discriminate H|reflexivity]. Qed.

Lemma numeric_key_non_digit (rt : runtime) (s : string) :
  Py.isdigit s = false -> numeric_key rt s = Some 0.
Proof. intros H. unfold numeric_key. rewrite H. reflexivity. Qed.

(** What one call does when no call to the store raises, the id property
    is the queried one and the key is [key]: it asks for the key and
    writes the dict, by a create when no page passes the filter and else
    by an update of the first that does; afterwards the page written
    passes the filter. *)
Lemma upsert_writes_key (cfg : notion_config) (rt : runtime) (nt : faults)
      (done : list call) (db : store) (e : entry) (key : Z) :
  calls_succeed nt ->
  id_property cfg = "Order ID" ->
  id_property cfg <> date_property cfg ->
  id_property cfg <> checkbox_property cfg ->
  Py.is_empty (Py.strip (order_id e)) = false ->
  numeric_key rt (order_id e) = Some key ->
  let props := properties_with cfg rt e key in
  (query db "Order ID" key = [] /\
   create_or_update_notion_entry cfg rt nt done db e =
     (create db props, [Query "Order ID" key; Create props]) /\
   query (create db props) "Order ID" key = [length db]) \/
  (exists id rest page,
     query db "Order ID" key = id :: rest /\
     nth_error db id = Some page /\
     create_or_update_notion_entry cfg rt nt done db e =
       (update db id props, [Query "Order ID" key; Update id props]) /\
     query (update db id props) "Order ID" key = id :: rest).
Proof.
  intros Hnt Hid Hd Hc Hs Hk props.
  destruct (number_equals_written "Order ID" key [] props) as [Hw _].
  { apply properties_with_unique. }
  { rewrite <- Hid. apply properties_with_id; assumption. }
  assert (Hm : forall page, number_equals "Order ID" key (merge page props) = true).
  { intros page. apply number_equals_written.
    - apply properties_with_unique.
    - rewrite <- Hid. apply properties_with_id; assumption. }
  unfold create_or_update_notion_entry, check_notion_entry_exists, entry_properties.
  rewrite (strip_nonempty _ Hs), Hk. cbn [option_map]. fold props. rewrite Hnt.
  destruct (query db "Order ID" key) as [|id rest] eqn:Q; cbn [hd_error]; rewrite Hnt.
  - left. repeat split. unfold query. rewrite query_from_app.
    fold (query db "Order ID" key). rewrite Q, Hw. reflexivity.
  - right. assert (Hin : In (0 + id)%nat (query_from O db "Order ID" key)).
    { fold (query db "Order ID" key). rewrite Q. left. reflexivity. }
    destruct (query_from_nth _ _ _ _ _ Hin) as (page & Hn & _).
    exists id, rest, page. repeat split; try assumption.
    unfold query. rewrite (query_from_update _ _ _ _ _ _ Hin Hm). exact Q.
Qed.

Lemma upsert_on_single (cfg : notion_config) (rt : runtime) (nt : faults)
      (done : list call) (db : store) (e : entry) (key : Z) (id0 : page_id) :
  calls_succeed nt ->
  id_property cfg = "Order ID" ->
  names_apart cfg ->
  Py.is_empty (Py.strip (order_id e)) = false ->
  numeric_key rt (order_id e) = Some key ->
  query db "Order ID" key = [id0] ->
  exists page,
    query (fst (create_or_update_notion_entry cfg rt nt done db e)) "Order ID" key = [id0] /\
    nth_error (fst (create_or_update_notion_entry cfg rt nt done db e)) id0 = Some page /\
    get_prop (amount_property cfg) page = Some (Number (order_amount e)) /\
    snd (create_or_update_notion_entry cfg rt nt done db e) =
      [Query "Order ID" key; Update id0 (properties_with cfg rt e key)].
Proof.
  intros Hnt Hid (A1 & A2 & A3 & I1 & I2) Hs Hk Q.
  destruct (upsert_writes_key cfg rt nt done db e key Hnt Hid I1 I2 Hs Hk)
    as [(Q0 & _)|(id & rest & page & Q1 & Hn & -> & Q2)].
  - rewrite Q in Q0. discriminate.
  - rewrite Q in Q1. injection Q1 as <- <-. cbn [fst snd].
    exists (merge page (properties_with cfg rt e key)). repeat split.
    + exact Q2.
    + apply nth_update. assumption.
    + rewrite merge_get by apply properties_with_unique.
      rewrite properties_with_amount by assumption. reflexivity.
Qed.

Lemma names_apart_default : names_apart default_notion_config.
Proof. repeat split; discriminate. Qed.

Lemma no_faults_succeed : calls_succeed no_faults.
Proof. intros done c. reflexivity. Qed.

(** C1 (amended).  Let no call to the store raise, the configured id
    property be the queried [Order ID], the amount and id properties not
    be overwritten by a later key of the written dict, the order id be
    non-blank with [key] the number [int] gives for it (0 when [isdigit]
    is false of it), and the store hold at most one page with that key.
    Then two calls with this order id, whatever calls were made before
    them, leave exactly one page with the key; its amount is that of the
    second call, and the second call is an update of the page the key
    query found, not a create. *)
Theorem upsert_twice_one_record (cfg : notion_config) (rt : runtime) (nt : faults)
        (done : list call) (db : store) (e1 e2 : entry) (key : Z) :
  calls_succeed nt ->
  id_property cfg = "Order ID" ->
  names_apart cfg ->
  order_id e2 = order_id e1 ->
  Py.is_empty (Py.strip (order_id e1)) = false ->
  numeric_key rt (order_id e1) = Some key ->
  (length (query db "Order ID" key) <= 1)%nat ->
  let first := create_or_update_notion_entry cfg rt nt done db e1 in
  let second :=
    create_or_update_notion_entry cfg rt nt (done ++ snd first)%list (fst first) e2 in
  exists id page,
    query (fst second) "Order ID" key = [id] /\
    nth_error (fst second) id = Some page /\
    get_prop (amount_property cfg) page = Some (Number (order_amount e2)) /\
    snd second = [Query "Order ID" key; Update id (properties_with cfg rt e2 key)].
Proof.
  intros Hnt Hid Hn He Hs Hk Hq first second. subst first second.
  assert (Q1 : exists id0,
             query (fst (create_or_update_notion_entry cfg rt nt done db e1)) "Order ID" key
             = [id0]).
  { destruct Hn as (_ & _ & _ & I1 & I2).
    destruct (upsert_writes_key cfg rt nt done db e1 key Hnt Hid I1 I2 Hs Hk)
      as [(_ & -> & Q)|(id & rest & page & Q0 & _ & -> & Q)]; cbn [fst].
    - eexists; exact Q.
    - rewrite Q0 in Hq. destruct rest; [|cbn in Hq; lia].
      eexists; exact Q. }
  destruct Q1 as [id0 Q1]. rewrite <- He in Hs, Hk.
  destruct (upsert_on_single cfg rt nt
              (done ++ snd (create_or_update_notion_entry cfg rt nt done db e1))%list
              _ e2 key id0 Hnt Hid Hn Hs Hk Q1) as (page & H).
  exists id0, page. exact H.
Qed.

Lemma upsert_twice_one_record_witness :
  exists id page,
    query (sync_entries default_notion_config sample_runtime no_faults [] []
                        [order_1001 5; order_1001 7]) "Order ID" 1001 = [id] /\
    nth_error (sync_entries default_notion_config sample_runtime no_faults [] []
                            [order_1001 5; order_1001 7]) id = Some page /\
    get_prop "Order Amount" page = Some (Number (Finite 7)).
Proof.
  destruct (upsert_twice_one_record default_notion_config sample_runtime no_faults [] []
              (order_1001 5) (order_1001 7) 1001)
    as (id & page & H1 & H2 & H3 & _).
  - apply no_faults_succeed.
  - reflexivity.
  - apply names_apart_default.
  - reflexivity.
  - reflexivity.
  - reflexivity.
  - cbn. lia.
  - exists id, page. repeat split; assumption.
Defined.

(** C1 as stated fails on a store that already holds two pages with the
    key: after the two calls both are still there, and the second page
    keeps the amount it had.  It fails on the empty store as well when
    the query of the second call raises: no page counts as found, the
    second call creates, and two pages carry the key. *)
Lemma upsert_twice_keeps_duplicates :
  (query (sync_entries default_notion_config sample_runtime no_faults []
                       [page_1001; page_1001]
                       [order_1001 5; order_1001 7]) "Order ID" 1001 = [0%nat; 1%nat] /\
   option_map (get_prop "Order Amount")
              (nth_error (sync_entries default_notion_config sample_runtime no_faults []
                                       [page_1001; page_1001]
                                       [order_1001 5; order_1001 7]) 1)
   = Some (Some (Number (Finite 3)))) /\
  (query (sync_entries default_notion_config sample_runtime second_query_raises [] []
                       [order_1001 5; order_1001 7]) "Order ID" 1001 = [0%nat; 1%nat] /\
   sync_calls default_notion_config sample_runtime second_query_raises [] []
              [order_1001 5; order_1001 7] =
   [Query "Order ID" 1001;
    Create (properties_with default_notion_config sample_runtime (order_1001 5) 1001);
    Query "Order ID" 1001;
    Create (properties_with default_notion_config sample_runtime (order_1001 7) 1001)]).
Proof. repeat split; reflexivity. Qed.

(** C10 (amended).  For a record whose order id is not blank and of
    which [isdigit] is false, the written dict carries the number 0 under
    the id property (when no later key of the dict repeats its name), and
    the call asks the store for key 0 and then sends that dict, by a
    create or by an update.  When no call to the store raises and the id
    property is the queried [Order ID], a second such record, whatever
    its order id, updates the page of the first: the two collapse onto
    key 0. *)
Theorem non_digit_id_uses_key_zero (cfg : notion_config) (rt : runtime) (nt : faults)
        (done : list call) (db : store) (e : entry) :
  Py.is_empty (Py.strip (order_id e)) = false ->
  Py.isdigit (order_id e) = false ->
  id_property cfg <> date_property cfg ->
  id_property cfg <> checkbox_property cfg ->
  let props := properties_with cfg rt e 0 in
  let first := create_or_update_notion_entry cfg rt nt done db e in
  entry_properties cfg rt e = Some props /\
  get_prop (id_property cfg) props = Some (Number (Finite 0)) /\
  (exists write, snd first = [Query "Order ID" 0; write] /\
                 (write = Create props \/ exists id, write = Update id props)) /\
  (calls_succeed nt ->
   id_property cfg = "Order ID" ->
   forall e', Py.is_empty (Py.strip (order_id e')) = false ->
              Py.isdigit (order_id e') = false ->
              exists id,
                snd (create_or_update_notion_entry cfg rt nt (done ++ snd first)%list
                                                   (fst first) e')
                = [Query "Order ID" 0; Update id (properties_with cfg rt e' 0)]).
Proof.
  intros Hs Hd I1 I2 props first.
  pose proof (numeric_key_non_digit rt _ Hd) as K.
  split; [|split; [|split]].
  - unfold entry_properties. rewrite K. reflexivity.
  - subst props. rewrite properties_with_id by assumption. reflexivity.
  - subst first. unfold create_or_update_notion_entry, entry_properties.
    rewrite (strip_nonempty _ Hs), K. cbn [option_map]. fold props.
    destruct (check_notion_entry_exists rt nt done db (order_id e)) as [id|]; cbn [snd];
      eexists; split; try reflexivity; [right; exists id; reflexivity|left; reflexivity].
  - intros Hnt Hid e' Hs' Hd'.
    pose proof (numeric_key_non_digit rt _ Hd') as K'.
    assert (Q : query (fst first) "Order ID" 0 <> []).
    { subst first.
      destruct (upsert_writes_key cfg rt nt done db e 0 Hnt Hid I1 I2 Hs K)
        as [(_ & -> & Q)|(id & rest & page & _ & _ & -> & Q)];
        cbn [fst]; rewrite Q; discriminate. }
    destruct (upsert_writes_key cfg rt nt (done ++ snd first)%list (fst first) e' 0
                                Hnt Hid I1 I2 Hs' K')
      as [(Q0 & _)|(id & rest & page & _ & _ & -> & _)].
    + contradiction.
    + exists id. reflexivity.
Qed.

Lemma non_digit_id_uses_key_zero_witness :
  get_prop "Order ID" (properties_with default_notion_config sample_runtime fractional_order 0)
  = Some (Number (Finite 0)).
Proof.
  apply (non_digit_id_uses_key_zero default_notion_config sample_runtime no_faults [] []
           fractional_order);
    try reflexivity; discriminate.
Defined.

(** C10 as stated fails where a call to the store raises.  For the order
    id [25.5] over the empty store, when the create raises, the key 0 is
    asked for, the handler runs and nothing is stored; and when the query
    of the second of two such records raises, no page counts as found and
    a second page is created: the two records do not collapse onto one
    page of key 0. *)
Lemma non_digit_id_lost_when_call_raises :
  Py.is_empty (order_id fractional_order) = false /\
  Py.isdigit (order_id fractional_order) = false /\
  create_or_update_notion_entry default_notion_config sample_runtime create_raises [] []
                                fractional_order
  = ([], [Query "Order ID" 0;
          Create (properties_with default_notion_config sample_runtime fractional_order 0)]) /\
  upsert_raises default_notion_config sample_runtime create_raises [] [] fractional_order
  = true /\
  query (sync_entries default_notion_config sample_runtime second_query_raises [] []
                      [fractional_order; other_fractional_order]) "Order ID" 0
  = [0%nat; 1%nat].
Proof. repeat split; reflexivity. Qed.

(** An order id that is the superscript two, which both parsers return,
    is outside this: [isdigit] is true of it and [int] refuses it, so that
    the call neither asks the store nor writes to it, and ends in its
    handler. *)
Lemma superscript_id_not_written :
  parse_csv_source1 (sample_config "Source1") sample_runtime superscript_csv =
    Ok [superscript_order] /\
  Py.is_empty (order_id superscript_order) = false /\
  Py.isdigit (order_id superscript_order) = true /\
  Py.all_chars Py.is_decimal (order_id superscript_order) = false /\
  create_or_update_notion_entry default_notion_config sample_runtime no_faults [] []
                                superscript_order = ([], []) /\
  upsert_raises default_notion_config sample_runtime no_faults [] [] superscript_order = true.
Proof. repeat split; reflexivity. Qed.

(** ** The attachment extractor *)

(** The scan reads the file name and the body of the parts it is given
    and nothing below them. *)
Lemma scan_attachment_ignores_subparts
      (get_attachment : string -> string -> option string)
      (decode_strict : string -> option string) (msg_id : string) (ps : list part) :
  scan_attachment get_attachment decode_strict msg_id
    (map (fun p => Part EmptyString (part_filename p) (part_body_of p) []) ps)
  = scan_attachment get_attachment decode_strict msg_id ps.
Proof.
  induction ps as [|[mime name b sub] ps IH]; cbn; [reflexivity|].
  rewrite IH. reflexivity.
Qed.

(** The body collector, the sibling of the attachment scan, does descend
    into the sub-parts. *)
Lemma extract_bodies_descends (decode_lenient : string -> option string) (data : string) :
  data <> EmptyString ->
  extract_bodies decode_lenient
    [Part "multipart/alternative" "" None
          [Part "text/plain" "" (Some (mkbody (Some data) None)) []]]
    (EmptyString, EmptyString)
  = match decode_lenient data with
    | Some t => Some (EmptyString, t)
    | None => None
    end.
Proof.
  intros H. destruct data; [contradiction|]. cbn.
  destruct (decode_lenient _); reflexivity.
Qed.

(** C2, the code at the failing input.  The CSV part of [nested_message]
    is a node of the content tree, has a file name ending in [.csv] and an
    attachment reference; the pre-order scan the specification describes
    downloads and decodes it, and [extract_attachment], which reads only
    the parts directly below the payload, returns nothing. *)
Theorem nested_attachment_not_found
        (get_attachment : string -> string -> option string)
        (decode_strict : string -> option string) (msg_id : string) :
  In csv_part (preorder_parts (payload_parts nested_message)) /\
  is_csv_name (part_filename csv_part) = true /\
  spec_extract_attachment get_attachment decode_strict msg_id nested_message =
    match get_attachment msg_id "ATT1" with
    | Some data => decode_strict data
    | None => None
    end /\
  extract_attachment get_attachment decode_strict msg_id nested_message = None.
Proof.
  split; [cbn; tauto|]. split; [reflexivity|]. split; reflexivity.
Qed.

(** ** The link search *)

Lemma append_assoc (a b c : string) : (a ++ b) ++ c = a ++ (b ++ c).
Proof. induction a as [|x a IH]; cbn; [reflexivity|rewrite IH; reflexivity]. Qed.

Lemma append_empty_r (a : string) : a ++ EmptyString = a.
Proof. induction a as [|x a IH]; cbn; [reflexivity|rewrite IH; reflexivity]. Qed.

Lemma length_append (a b : string) :
  String.length (a ++ b) = (String.length a + String.length b)%nat.
Proof. induction a as [|x a IH]; cbn; [reflexivity|rewrite IH; reflexivity]. Qed.

Lemma take_append (a b : string) : Py.take (String.length a) (a ++ b) = a.
Proof. induction a as [|x a IH]; cbn; [destruct b; reflexivity|rewrite IH; reflexivity]. Qed.

Lemma lower_append (a b : string) : Py.lower (a ++ b) = Py.lower a ++ Py.lower b.
Proof. induction a as [|x a IH]; cbn; [reflexivity|rewrite IH; reflexivity]. Qed.

Lemma all_chars_append (p : ascii -> bool) (a b : string) :
  Py.all_chars p (a ++ b) = Py.all_chars p a && Py.all_chars p b.
Proof.
  induction a as [|x a IH]; cbn; [reflexivity|].
  rewrite IH, andb_assoc. reflexivity.
Qed.

Lemma starts_with_append (p a b : string) :
  Py.starts_with p a = true -> Py.starts_with p (a ++ b) = true.
Proof.
  revert a. induction p as [|x p IH]; intros a; [reflexivity|].
  destruct a as [|y a]; cbn; [discriminate|].
  intros H. apply andb_prop in H. destruct H as [-> H]. apply IH, H.
Qed.

Lemma starts_with_self (p b : string) : Py.starts_with p (p ++ b) = true.
Proof. induction p as [|x p IH]; cbn; [reflexivity|]. rewrite Ascii.eqb_refl. exact IH. Qed.

Lemma contains_unfold (p s : string) :
  Py.contains p s =
  Py.starts_with p s || match s with EmptyString => false | String _ r => Py.contains p r end.
Proof. destruct s; reflexivity. Qed.

Lemma contains_append_l (p a b : string) :
  Py.contains p a = true -> Py.contains p (a ++ b) = true.
Proof.
  induction a as [|x a IH]; intros H.
  - rewrite contains_unfold in H. rewrite orb_false_r in H.
    destruct p; [|discriminate]. destruct b; reflexivity.
  - rewrite contains_unfold in H. cbn [append]. rewrite contains_unfold.
    apply orb_prop in H. destruct H as [H|H].
    + change (String x (a ++ b)) with (String x a ++ b).
      rewrite (starts_with_append _ _ _ H). reflexivity.
    + rewrite (IH H). apply orb_true_r.
Qed.

Lemma contains_append_r (p a b : string) :
  Py.contains p b = true -> Py.contains p (a ++ b) = true.
Proof.
  intros H. induction a as [|x a IH]; [exact H|].
  cbn [append]. rewrite contains_unfold, IH. apply orb_true_r.
Qed.

(** ** The matcher *)

Lemma literal_split (ic : bool) (l s s' : string) :
  literal ic l s = Some s' -> exists x, s = x ++ s' /\ literal ic l x = Some EmptyString.
Proof.
  revert s. induction l as [|a l IH]; intros s; cbn.
  - intros [= <-]. exists EmptyString. auto.
  - destruct s as [|b s]; [discriminate|].
    destruct (same_char ic a b) eqn:E; [|discriminate].
    intros H. destruct (IH s H) as (x & -> & Hx).
    exists (String b x). cbn. rewrite E. auto.
Qed.

Lemma literal_append (ic : bool) (l x s' : string) :
  literal ic l x = Some EmptyString -> literal ic l (x ++ s') = Some s'.
Proof.
  revert x. induction l as [|a l IH]; intros x; cbn.
  - intros [= ->]. reflexivity.
  - destruct x as [|b x]; [discriminate|]. cbn.
    destruct (same_char ic a b); [|discriminate]. apply IH.
Qed.

Lemma literal_self (l : string) : literal true l l = Some EmptyString.
Proof.
  induction l as [|a l IH]; cbn; [reflexivity|].
  rewrite Ascii.eqb_refl. exact IH.
Qed.

Lemma literal_lower (l x : string) :
  literal true l x = Some EmptyString -> Py.lower x = Py.lower l.
Proof.
  revert x. induction l as [|a l IH]; intros x; cbn.
  - intros [= ->]. reflexivity.
  - destruct x as [|b x]; [discriminate|]. cbn.
    destruct (Py.lower_char a =? Py.lower_char b)%char eqn:E; [|discriminate].
    apply Ascii.eqb_eq in E. intros H. rewrite (IH x H), E. reflexivity.
Qed.

Section Engine.
Context {A : Type}.

Lemma many_sound (p : ascii -> bool) (s : string) (k : string -> option A) (res : A) :
  many p s k = Some res ->
  exists x s', s = x ++ s' /\ Py.all_chars p x = true /\ k s' = Some res.
Proof.
  induction s as [|b s IH]; cbn.
  - intros H. exists EmptyString, EmptyString. auto.
  - destruct (p b) eqn:E.
    + destruct (many p s k) as [y|] eqn:M.
      * intros [= ->]. destruct (IH eq_refl) as (x & s' & -> & Hx & Hk).
        exists (String b x), s'. cbn. rewrite E. auto.
      * intros H. exists EmptyString, (String b s). auto.
    + intros H. exists EmptyString, (String b s). auto.
Qed.

Lemma many_complete (p : ascii -> bool) (x s' : string) (k : string -> option A) :
  Py.all_chars p x = true -> k s' <> None -> many p (x ++ s') k <> None.
Proof.
  induction x as [|b x IH]; cbn.
  - intros _ H. destruct s' as [|c s']; cbn; [exact H|].
    destruct (p c); [|exact H].
    destruct (many p s' k); [discriminate|exact H].
  - intros Hx Hk. apply andb_prop in Hx. destruct Hx as [-> Hx].
    specialize (IH Hx Hk).
    destruct (many p (x ++ s') k); [discriminate|contradiction].
Qed.

Lemma rmatch_sound (ic : bool) (r : regex) :
  forall (s : string) (g : option string) (k : string -> option string -> option A) (res : A),
  rmatch ic r s g k = Some res ->
  exists x s' g', s = x ++ s' /\ lang ic r x /\ k s' g' = Some res.
Proof.
  induction r as [l|p|p|p|c|a IHa b IHb|a IHa b IHb|a IHa]; intros s g k res; cbn [rmatch lang].
  - destruct (literal ic l s) as [s'|] eqn:E; [|discriminate].
    intros H. destruct (literal_split _ _ _ _ E) as (x & -> & Hx).
    exists x, s', g. auto.
  - destruct s as [|b s]; [discriminate|]. destruct (p b) eqn:E; [|discriminate].
    intros H. exists (String b EmptyString), s, g. repeat split; eauto.
  - intros H. apply many_sound in H. destruct H as (x & s' & -> & Hx & Hk).
    exists x, s', g. auto.
  - destruct s as [|b s]; [discriminate|]. destruct (p b) eqn:E; [|discriminate].
    intros H. apply many_sound in H. destruct H as (x & s' & -> & Hx & Hk).
    exists (String b x), s', g. cbn. rewrite E. repeat split; auto. discriminate.
  - destruct s as [|b s].
    + intros H. exists EmptyString, EmptyString, g. auto.
    + destruct (same_char ic c b) eqn:E.
      * destruct (k s g) as [y|] eqn:K.
        -- intros [= <-]. exists (String b EmptyString), s, g. repeat split; eauto.
        -- intros H. exists EmptyString, (String b s), g. auto.
      * intros H. exists EmptyString, (String b s), g. auto.
  - intros H. apply IHa in H. destruct H as (x1 & s1 & g1 & -> & H1 & H).
    apply IHb in H. destruct H as (x2 & s2 & g2 & -> & H2 & H).
    exists (x1 ++ x2), s2, g2. rewrite append_assoc. repeat split; eauto.
  - destruct (rmatch ic a s g k) as [y|] eqn:E.
    + intros [= <-]. apply IHa in E. destruct E as (x & s' & g' & -> & Hx & Hk).
      exists x, s', g'. auto.
    + intros H. apply IHb in H. destruct H as (x & s' & g' & -> & Hx & Hk).
      exists x, s', g'. auto.
  - intros H. apply IHa in H. destruct H as (x & s' & g' & -> & Hx & Hk).
    eexists x, s', _. repeat split; eauto.
Qed.

Lemma rmatch_complete (ic : bool) (r : regex) :
  forall (x s' : string) (g : option string) (k : string -> option string -> option A),
  lang ic r x -> (forall g', k s' g' <> None) -> rmatch ic r (x ++ s') g k <> None.
Proof.
  induction r as [l|p|p|p|c|a IHa b IHb|a IHa b IHb|a IHa]; intros x s' g k; cbn [rmatch lang].
  - intros Hx Hk. rewrite (literal_append _ _ _ _ Hx). apply Hk.
  - intros (c & -> & Hc) Hk. cbn. rewrite Hc. apply Hk.
  - intros Hx Hk. apply many_complete; [assumption|apply Hk].
  - intros [Hn Hx] Hk. destruct x as [|b x]; [contradiction|]. cbn in *.
    apply andb_prop in Hx. destruct Hx as [-> Hx].
    apply many_complete; [assumption|apply Hk].
  - intros [->|(b & -> & Hb)] Hk; cbn.
    + destruct s' as [|b s']; [apply Hk|].
      destruct (same_char ic c b); [|apply Hk].
      destruct (k s' g); [discriminate|apply Hk].
    + rewrite Hb. destruct (k s' g) eqn:K; [discriminate|]. exfalso. apply (Hk g K).
  - intros (x1 & x2 & -> & H1 & H2) Hk. rewrite append_assoc.
    apply IHa; [assumption|]. intros g'. apply IHb; assumption.
  - intros [H|H] Hk.
    + pose proof (IHa x s' g k H Hk) as E.
      destruct (rmatch ic a (x ++ s') g k); [discriminate|contradiction].
    + destruct (rmatch ic a (x ++ s') g k) eqn:E; [discriminate|].
      apply IHb; assumption.
  - intros Hx Hk. apply IHa; [assumption|]. intros g'. apply Hk.
Qed.

End Engine.

Lemma at_break_ext (p q : ascii -> bool) (s : string) :
  (forall c, q c = p c) -> at_break q s = at_break p s.
Proof. intros H. destruct s; cbn; [reflexivity|rewrite H; reflexivity]. Qed.

Lemma many_greedy_break (p : ascii -> bool) (s : string) (g : option string)
      (res : string * option string) :
  many p s (fun t => Some (t, g)) = Some res -> at_break p (fst res) = true.
Proof.
  induction s as [|b s IH]; cbn.
  - intros [= <-]. reflexivity.
  - destruct (p b) eqn:E.
    + destruct (many p s (fun t => Some (t, g))) as [y|] eqn:M.
      * intros [= <-]. apply IH. reflexivity.
      * exfalso. apply (many_complete p EmptyString s (fun t => Some (t, g)));
          [reflexivity|discriminate|exact M].
    + intros [= <-]. cbn. rewrite E. reflexivity.
Qed.

(** The match of a pattern that ends in a greedy run stops where the
    run must stop. *)
Lemma rmatch_greedy_break (ic : bool) (p : ascii -> bool) (r : regex) :
  ends_greedy p r ->
  forall (s : string) (g : option string) (res : string * option string),
  rmatch ic r s g (fun s' g' => Some (s', g')) = Some res ->
  at_break p (fst res) = true.
Proof.
  induction r as [l|q|q|q|c|a IHa b IHb|a IHa b IHb|a IHa]; cbn [ends_greedy rmatch];
    try contradiction; intros He s g res.
  - intros H. apply many_greedy_break in H. rewrite <- H. symmetry. apply at_break_ext, He.
  - destruct s as [|b s]; [discriminate|]. destruct (q b); [|discriminate].
    intros H. apply many_greedy_break in H. rewrite <- H. symmetry. apply at_break_ext, He.
  - intros H. apply rmatch_sound in H. destruct H as (x & s' & g' & _ & _ & H).
    apply (IHb He _ _ _ H).
Qed.

Lemma match_at_shape (ic : bool) (p : ascii -> bool) (r : regex) (s rest : string)
      (g : option string) :
  ends_greedy p r ->
  match_at ic r s = Some (rest, g) ->
  exists x, s = x ++ rest /\ lang ic r x /\ at_break p rest = true.
Proof.
  intros He H. unfold match_at in H.
  pose proof (rmatch_greedy_break ic p r He _ _ _ H) as Hb.
  apply rmatch_sound in H. destruct H as (x & s' & g' & -> & Hx & [= -> _]).
  exists x. auto.
Qed.

Lemma run_unique (p : ascii -> bool) (m u rest post : string) :
  m ++ rest = u ++ post ->
  Py.all_chars p m = true -> Py.all_chars p u = true ->
  at_break p rest = true -> at_break p post = true ->
  m = u /\ rest = post.
Proof.
  revert u. induction m as [|c m IH]; intros [|d u]; cbn.
  - auto.
  - intros -> _ Hu Hr _. cbn in Hr. apply andb_prop in Hu. destruct Hu as [Hd _].
    rewrite Hd in Hr. discriminate.
  - intros <- Hm _ _ Hp. cbn in Hp. apply andb_prop in Hm. destruct Hm as [Hc _].
    rewrite Hc in Hp. discriminate.
  - intros [= -> E] Hm Hu Hr Hp.
    apply andb_prop in Hm. destruct Hm as [_ Hm].
    apply andb_prop in Hu. destruct Hu as [_ Hu].
    destruct (IH u E Hm Hu Hr Hp) as [-> ->]. auto.
Qed.

Lemma run_before_break (p : ascii -> bool) (a m rest t : string) (c : ascii) :
  a ++ String c t = m ++ rest ->
  Py.all_chars p m = true -> p c = false ->
  exists m', a = m ++ m'.
Proof.
  revert a. induction m as [|d m IH]; intros a; cbn.
  - intros _ _ _. exists a. reflexivity.
  - destruct a as [|d' a]; cbn.
    + intros [= -> _] Hm Hc. rewrite Hc in Hm. discriminate.
    + intros [= -> E] Hm Hc. apply andb_prop in Hm. destruct Hm as [_ Hm].
      destruct (IH a E Hm Hc) as (m' & ->). exists m'. reflexivity.
Qed.

Lemma suffix_keeps_last (pre a b : string) (c : ascii) :
  pre ++ String c EmptyString = a ++ b -> b <> EmptyString ->
  exists b', b = b' ++ String c EmptyString.
Proof.
  revert pre. induction a as [|x a IH]; intros pre; cbn.
  - intros <- _. exists pre. reflexivity.
  - destruct pre as [|y pre]; cbn.
    + intros [= _ E] Hb. destruct a; [cbn in E; congruence|discriminate].
    + intros [= _ E]. apply (IH pre E).
Qed.

Lemma matches_skip_prefix (ic : bool) (r : regex) (pre rest : string) :
  (forall a b, pre = a ++ b -> b <> EmptyString -> match_at ic r (b ++ rest) = None) ->
  matches ic r (pre ++ rest) 0 = matches ic r rest 0.
Proof.
  induction pre as [|c pre IH]; intros H; [reflexivity|].
  cbn [append matches].
  assert (E : match_at ic r (String c (pre ++ rest)) = None)
    by (apply (H EmptyString (String c pre) eq_refl); discriminate).
  rewrite E. apply IH. intros a b -> Hb. apply (H (String c a) b); [reflexivity|assumption].
Qed.

Lemma matches_none (ic : bool) (r : regex) (s : string) :
  (forall a b, s = a ++ b -> match_at ic r b = None) -> matches ic r s 0 = [].
Proof.
  induction s as [|c s IH]; intros H; [reflexivity|].
  cbn [matches]. rewrite (H EmptyString (String c s) eq_refl).
  apply IH. intros a b ->. apply (H (String c a) b). reflexivity.
Qed.

Lemma matches_head (ic : bool) (r : regex) (u post : string) (g : option string) :
  u <> EmptyString ->
  match_at ic r (u ++ post) = Some (post, g) ->
  exists tl, matches ic r (u ++ post) 0 = (u, g) :: tl.
Proof.
  intros Hu H. destruct u as [|c u]; [contradiction|].
  cbn [append matches]. change (String c (u ++ post)) with (String c u ++ post).
  rewrite H. rewrite length_append, Nat.add_sub, take_append. eexists. reflexivity.
Qed.

(** ** The patterns of the link search *)

Lemma url_char_lower (c : ascii) : url_char (Py.lower_char c) = url_char c.
Proof. destruct c as [[] [] [] [] [] [] [] []]; reflexivity. Qed.

Lemma all_url_lower (x : string) :
  Py.all_chars url_char (Py.lower x) = Py.all_chars url_char x.
Proof.
  induction x as [|c x IH]; cbn; [reflexivity|].
  rewrite url_char_lower, IH. reflexivity.
Qed.

Lemma literal_url_chars (l x : string) :
  Py.all_chars url_char l = true ->
  literal true l x = Some EmptyString -> Py.all_chars url_char x = true.
Proof.
  intros Hl H. apply literal_lower in H.
  rewrite <- all_url_lower, H, all_url_lower. exact Hl.
Qed.

Lemma literal_contains (l x : string) :
  Py.lower l = l ->
  literal true l x = Some EmptyString -> Py.contains l (Py.lower x) = true.
Proof.
  intros Hl H. apply literal_lower in H. rewrite H, Hl.
  rewrite <- (append_empty_r l) at 2. rewrite contains_unfold, starts_with_self. reflexivity.
Qed.

Lemma http_url_chars (x : string) :
  lang true http x -> Py.all_chars url_char x = true.
Proof.
  cbn [lang http]. intros (x1 & x2 & -> & H1 & x3 & x4 & -> & H3 & H4).
  rewrite !all_chars_append.
  rewrite (literal_url_chars "http" _ eq_refl H1), (literal_url_chars "://" _ eq_refl H4).
  destruct H3 as [->|(b & -> & Hb)]; [reflexivity|].
  unfold same_char in Hb. apply Ascii.eqb_eq in Hb. cbn [Py.all_chars].
  rewrite <- url_char_lower, <- Hb. reflexivity.
Qed.

Lemma s3_link_shape (x : string) :
  lang true s3_link_pattern x ->
  Py.all_chars url_char x = true /\ Py.contains storage_domain (Py.lower x) = true.
Proof.
  unfold s3_link_pattern. cbn [lang].
  intros (x1 & x2 & -> & H1 & x3 & x4 & -> & H3 & x5 & x6 & -> & H5 & _ & H6).
  split.
  - rewrite !all_chars_append, (http_url_chars _ H1), H3, H6.
    rewrite (literal_url_chars storage_domain _ eq_refl H5). reflexivity.
  - rewrite !lower_append. apply contains_append_r, contains_append_r, contains_append_l.
    apply literal_contains; [reflexivity|exact H5].
Qed.

Lemma s3_link_greedy : ends_greedy url_char s3_link_pattern.
Proof. intros c. reflexivity. Qed.

Lemma csv_link_shape (x : string) :
  lang true csv_link_pattern x -> Py.contains ".csv" (Py.lower x) = true.
Proof.
  unfold csv_link_pattern. cbn [lang].
  intros (x1 & x2 & -> & H1 & x3 & x4 & -> & H3 & x5 & x6 & -> & H5 & H6).
  rewrite !lower_append. apply contains_append_r, contains_append_r, contains_append_l.
  apply literal_contains; [reflexivity|exact H5].
Qed.

Lemma storage_url_lang (secure : bool) (h p : string) :
  Py.all_chars url_char h = true -> Py.all_chars url_char p = true ->
  p <> EmptyString ->
  lang true s3_link_pattern (storage_url secure h p).
Proof.
  intros Hh Hp Hn. unfold s3_link_pattern, storage_url. cbn [lang].
  exists (if secure then "https://" else "http://"), (h ++ storage_domain ++ p).
  split; [reflexivity|]. split.
  - exists "http", (if secure then "s://" else "://"). split; [destruct secure; reflexivity|].
    split; [reflexivity|].
    exists (if secure then "s" else EmptyString), "://".
    split; [destruct secure; reflexivity|]. split; [|reflexivity].
    destruct secure; [right; exists "s"%char; auto|left; reflexivity].
  - exists h, (storage_domain ++ p). split; [reflexivity|]. split; [assumption|].
    exists storage_domain, p. split; [reflexivity|]. split; [apply literal_self|].
    split; assumption.
Qed.

Lemma storage_url_chars (secure : bool) (h p : string) :
  Py.all_chars url_char h = true -> Py.all_chars url_char p = true ->
  Py.all_chars url_char (storage_url secure h p) = true.
Proof.
  intros Hh Hp. unfold storage_url. rewrite !all_chars_append, Hh, Hp.
  destruct secure; reflexivity.
Qed.

(** Where something follows the domain, the storage rule is applied
    before the keyword rule.  With an empty HTML body, let the text be
    [pre], then a URL of the storage domain, then [post], where the URL
    is a scheme, URL characters, [s3.amazonaws.com] and at least one more
    URL character, [pre] is empty or ends outside the URL characters and
    does not mention the domain, [post] is empty or begins outside the URL
    characters, and the text nowhere contains [.csv].  Then [extract_link]
    returns that URL, whatever links with csv or export in them stand
    before or after it. *)
Lemma storage_link_precedes_keyword_link (secure : bool) (pre h p post : string) :
  let url := storage_url secure h p in
  let text := pre ++ url ++ post in
  Py.all_chars url_char h = true ->
  Py.all_chars url_char p = true ->
  p <> EmptyString ->
  ends_at_break pre ->
  at_break url_char post = true ->
  Py.contains storage_domain (Py.lower pre) = false ->
  Py.contains ".csv" (Py.lower text) = false ->
  extract_link EmptyString text = Some url.
Proof.
  intros url text Hh Hp Hn Hpre Hpost Hdom Hcsv.
  assert (Hu : url <> EmptyString) by (unfold url, storage_url; destruct secure; discriminate).
  assert (Ht : Py.is_empty text = false).
  { unfold text. destruct pre; [|reflexivity]. cbn.
    destruct url; [contradiction|reflexivity]. }
  unfold extract_link, link_from_html, link_from_text. cbn [Py.is_empty]. rewrite Ht.
  assert (C : findall true csv_link_pattern text = []).
  { unfold findall. rewrite matches_none; [reflexivity|].
    intros a b E. destruct (match_at true csv_link_pattern b) as [[rest g]|] eqn:M;
      [|reflexivity].
    exfalso. unfold match_at in M. apply rmatch_sound in M.
    destruct M as (x & s' & g' & -> & Hx & _). apply csv_link_shape in Hx.
    rewrite E, !lower_append in Hcsv.
    rewrite (contains_append_r _ _ _ (contains_append_l _ _ _ Hx)) in Hcsv. discriminate. }
  rewrite C.
  assert (S : exists tl, findall true s3_link_pattern text = url :: tl).
  { unfold findall, text. rewrite matches_skip_prefix.
    - destruct (match_at true s3_link_pattern (url ++ post)) as [[rest g]|] eqn:M.
      + destruct (match_at_shape true url_char _ _ _ _ s3_link_greedy M)
          as (x & E & Hx & Hb).
        apply s3_link_shape in Hx. destruct Hx as [Hx _].
        destruct (run_unique url_char x url rest post (eq_sym E) Hx
                    (storage_url_chars secure h p Hh Hp) Hb Hpost) as [_ ->].
        destruct (matches_head true s3_link_pattern url post g Hu M) as (tl & ->).
        eexists. reflexivity.
      + exfalso. apply (rmatch_complete true s3_link_pattern url post None
                          (fun s' g => Some (s', g)));
          [apply storage_url_lang; assumption|discriminate|exact M].
    - intros a b E Hb.
      destruct (match_at true s3_link_pattern (b ++ url ++ post)) as [[rest g]|] eqn:M;
        [|reflexivity].
      exfalso. unfold match_at in M. apply rmatch_sound in M.
      destruct M as (x & s' & g' & E' & Hx & _). apply s3_link_shape in Hx.
      destruct Hx as [Hx Hd].
      destruct Hpre as [->|(pre' & c & -> & Hc)].
      + destruct a; [|discriminate]. cbn in E. congruence.
      + destruct (suffix_keeps_last _ _ _ _ E Hb) as (b' & ->).
        rewrite append_assoc in E'. cbn [append] in E'.
        destruct (run_before_break url_char _ _ _ _ _ E' Hx Hc) as (m' & ->).
        rewrite E, !lower_append in Hdom.
        rewrite (contains_append_r _ _ _
                   (contains_append_l _ _ _ (contains_append_l _ _ _ Hd))) in Hdom.
        discriminate. }
  destruct S as (tl & ->). reflexivity.
Qed.

Lemma storage_link_after_export_link :
  extract_link EmptyString export_first_text =
  Some "https://bucket.s3.amazonaws.com/reports/weekly?id=7".
Proof.
  apply (storage_link_precedes_keyword_link true
           "Download https://example.com/export or " "bucket."
           "/reports/weekly?id=7" " today"); try reflexivity.
  - discriminate.
  - right. exists "Download https://example.com/export or", " "%char.
    split; reflexivity.
Qed.

(** C5, the code at the failing input.  The text holds a URL of the
    storage domain, with no [.csv] in it, and a distinct URL with export
    in it, and the HTML body is empty.  Nothing follows the domain in the
    first, the storage pattern of the text asks for one character more,
    so that the storage rule finds nothing and the keyword rule returns
    the second URL.  The pattern of the HTML body takes the same URL: it
    asks for nothing after the domain. *)
Theorem bare_storage_host_loses :
  Py.contains "https://bucket.s3.amazonaws.com" bare_host_text = true /\
  Py.contains "https://example.com/export" bare_host_text = true /\
  Py.contains ".csv" (Py.lower bare_host_text) = false /\
  findall true s3_link_pattern bare_host_text = [] /\
  findall true html_url_pattern bare_host_text = ["https://bucket.s3.amazonaws.com"] /\
  extract_link EmptyString bare_host_text = Some "https://example.com/export".
Proof. repeat split; reflexivity. Qed.

(** * Further properties of the pipeline *)

(** ** Trimming *)

Lemma rstrip_cons (c : ascii) (r : string) :
  Py.rstrip (String c r) =
  match Py.rstrip r with
  | EmptyString => if Py.is_space c then EmptyString else String c EmptyString
  | r' => String c r'
  end.
Proof. reflexivity. Qed.

Lemma lstrip_shape (s : string) :
  Py.lstrip s = EmptyString \/
  exists c r, Py.lstrip s = String c r /\ Py.is_space c = false.
Proof.
  induction s as [|c r IH]; [left; reflexivity|]. cbn.
  destruct (Py.is_space c) eqn:E; [exact IH|]. right. exists c, r. auto.
Qed.

Lemma rstrip_head (c : ascii) (r : string) :
  Py.is_space c = false -> exists r', Py.rstrip (String c r) = String c r'.
Proof.
  intros H. rewrite rstrip_cons. destruct (Py.rstrip r).
  - rewrite H. eauto.
  - eauto.
Qed.

Lemma rstrip_idempotent (s : string) : Py.rstrip (Py.rstrip s) = Py.rstrip s.
Proof.
  induction s as [|c r IH]; [reflexivity|]. rewrite rstrip_cons.
  destruct (Py.rstrip r) as [|a r'] eqn:E.
  - destruct (Py.is_space c) eqn:Ec; [reflexivity|]. cbn. rewrite Ec. reflexivity.
  - rewrite rstrip_cons, IH. reflexivity.
Qed.

Lemma strip_idempotent (s : string) : Py.strip (Py.strip s) = Py.strip s.
Proof.
  unfold Py.strip. destruct (lstrip_shape s) as [E|(c & r & E & Hc)]; rewrite E.
  - reflexivity.
  - destruct (rstrip_head c r Hc) as [r' E']. rewrite E'.
    cbn [Py.lstrip]. rewrite Hc, <- E'. apply rstrip_idempotent.
Qed.

Lemma has_char_append (p : ascii -> bool) (a b : string) :
  has_char p (a ++ b) = has_char p a || has_char p b.
Proof.
  induction a as [|c a IH]; [reflexivity|]. cbn. rewrite IH. apply orb_assoc.
Qed.

Lemma lstrip_has_char (s : string) :
  has_char no_space (Py.lstrip s) = has_char no_space s.
Proof.
  induction s as [|c r IH]; [reflexivity|]. cbn [Py.lstrip has_char].
  destruct (Py.is_space c) eqn:E; [|reflexivity].
  assert (N : no_space c = false) by (unfold no_space; rewrite E; reflexivity).
  rewrite N. exact IH.
Qed.

Lemma rstrip_visible (s : string) :
  has_char no_space s = true -> Py.rstrip s <> EmptyString.
Proof.
  induction s as [|c r IH]; [discriminate|]. cbn [has_char]. rewrite rstrip_cons.
  intros H. destruct (Py.rstrip r) eqn:E; [|discriminate].
  destruct (Py.is_space c) eqn:Ec; [|discriminate].
  assert (N : no_space c = false) by (unfold no_space; rewrite Ec; reflexivity).
  rewrite N in H. exfalso. apply IH; [exact H|reflexivity].
Qed.

(** A text with a character that is no space is not blank. *)
Lemma strip_visible (s : string) :
  has_char no_space s = true ->
  Py.is_empty s || Py.is_empty (Py.strip s) = false.
Proof.
  intros H. apply strip_nonempty. unfold Py.strip.
  rewrite <- lstrip_has_char in H. apply rstrip_visible in H.
  destruct (Py.rstrip (Py.lstrip s)); [contradiction|reflexivity].
Qed.

Lemma strftime_visible (fill : bool) (t : tm) :
  has_char no_space (strftime fill t) = true.
Proof.
  unfold strftime, bare_year, pad4, pad2.
  destruct fill; repeat destruct (_ <? _);
    cbn [has_char]; unfold no_space; rewrite digit_char_not_space; reflexivity.
Qed.

Lemma parse_date_visible (rt : runtime) (s : string) :
  has_char no_space (_parse_date rt s) = true.
Proof.
  unfold _parse_date, today_str.
  destruct (_ || _); [apply strftime_visible|].
  destruct (full_date s); apply strftime_visible.
Qed.

Lemma parse_date_with_year_visible (rt : runtime) (s : string) (year : Z) :
  has_char no_space (_parse_date_with_year rt s year) = true.
Proof.
  unfold _parse_date_with_year.
  destruct (yearless_date s year yearless_formats).
  - apply strftime_visible.
  - unfold first_of_january. rewrite has_char_append. apply orb_true_r.
  - apply parse_date_visible.
Qed.

(** X1.  Neither date normaliser ever returns an empty or an all-blank
    string, whatever the token, the year and the clock: the test
    [not order_date or order_date.strip() == ''] that [parse_csv_source2]
    makes on the result of [_parse_date_with_year] is never true, and no
    row is passed over by it. *)
Theorem normalised_date_never_blank (rt : runtime) (s : string) (year : Z) :
  Py.is_empty (_parse_date rt s) || Py.is_empty (Py.strip (_parse_date rt s)) = false /\
  Py.is_empty (_parse_date_with_year rt s year) ||
    Py.is_empty (Py.strip (_parse_date_with_year rt s year)) = false.
Proof.
  split.
  - apply strip_visible, parse_date_visible.
  - apply strip_visible, parse_date_with_year_visible.
Qed.

(** ** Reading full dates *)

Lemma run_day_then (fmt : list item) (d : Z) (rest : string) (t : tm) (r : tm * string) :
  1 <= d <= 31 ->
  run fmt rest (set_field FDay d t) = Some r ->
  run (FDay :: fmt) (pad2 d rest) t = Some r.
Proof.
  intros H Hr. rewrite run_cons.
  destruct (day_cases d H) as [C|[C|[C|C]]]; repeat (destruct C as [C|C]); subst d;
    eval_candidates; cbn [first_some fst snd]; rewrite Hr; reflexivity.
Qed.

(** No year stands where the third character is a slash. *)
Lemma year_refuses_slash (fmt : list item) (a : Z) (rest : string) (t : tm) :
  run (FYear :: fmt) (pad2 a (String "/" rest)) t = None.
Proof.
  rewrite run_cons. unfold pad2. cbn [candidates alternation collect four].
  destruct rest; [reflexivity|].
  replace (Py.is_decimal "/") with false by reflexivity.
  rewrite !andb_false_r. reflexivity.
Qed.

(** A number above 12 is no month, and its first digit alone is not
    followed by the slash. *)
Lemma month_refuses_day (fmt : list item) (d : Z) (rest : string) (t : tm) :
  12 < d <= 31 ->
  run (FMonth :: FLit "/" :: fmt) (pad2 d rest) t = None.
Proof.
  intros H. rewrite run_cons.
  assert (C : 1 <= d <= 31) by lia.
  destruct (day_cases d C) as [D|[D|[D|D]]]; repeat (destruct D as [D|D]);
    subst d; try lia;
    eval_candidates; cbn [first_some fst snd]; rewrite run_cons;
    eval_candidates; reflexivity.
Qed.

Lemma valid_tm_midnight (y m d : Z) :
  valid_tm (mktm y m d 0 0 0) = valid_date y m d.
Proof. unfold valid_tm. cbn -[valid_date]. rewrite !andb_true_r. reflexivity. Qed.

Lemma valid_date_bounds (y m d : Z) :
  valid_date y m d = true -> 1 <= y <= 9999 /\ 1 <= m <= 12 /\ 1 <= d <= 31.
Proof.
  intros H. rewrite <- valid_tm_midnight in H. apply valid_tm_bounds in H. exact H.
Qed.

Lemma slash_date_no_space (a b y : Z) :
  Py.all_chars no_space (slash_date a b y) = true.
Proof.
  unfold slash_date, pad4, pad2, no_space. cbn [Py.all_chars].
  rewrite !digit_char_not_space. reflexivity.
Qed.

Lemma month_first_parses (y m d : Z) :
  valid_date y m d = true ->
  strptime [FMonth; FLit "/"; FDay; FLit "/"; FYear] (slash_date m d y)
  = Some (mktm y m d 0 0 0).
Proof.
  intros Hv. destruct (valid_date_bounds y m d Hv) as (By & Bm & Bd).
  unfold strptime, slash_date.
  rewrite (run_month _ _ _ _ (mktm y m d 0 0 0, EmptyString)); [|lia|].
  - rewrite valid_tm_midnight, Hv. reflexivity.
  - rewrite run_lit. apply run_day_then; [lia|].
    rewrite run_lit, run_year by lia. reflexivity.
Qed.

Lemma day_first_parses (y m d : Z) :
  valid_date y m d = true ->
  strptime [FDay; FLit "/"; FMonth; FLit "/"; FYear] (slash_date d m y)
  = Some (mktm y m d 0 0 0).
Proof.
  intros Hv. destruct (valid_date_bounds y m d Hv) as (By & Bm & Bd).
  unfold strptime, slash_date.
  rewrite (run_day_then _ _ _ _ (mktm y m d 0 0 0, EmptyString)); [|lia|].
  - rewrite valid_tm_midnight, Hv. reflexivity.
  - rewrite run_lit. apply run_month; [lia|].
    rewrite run_lit, run_year by lia. reflexivity.
Qed.

(** X2.  A date written with slashes is read month first whenever that
    reading is a calendar date, also when the day-first reading is one
    too ([03/04/2024] is the fourth of March); it is read day first only
    when its first number is above 12. *)
Theorem slash_date_month_first (rt : runtime) (y m d : Z) :
  valid_date y m d = true ->
  _parse_date rt (slash_date m d y) = strftime (zero_fill_year rt) (mktm y m d 0 0 0) /\
  (12 < d ->
   _parse_date rt (slash_date d m y) = strftime (zero_fill_year rt) (mktm y m d 0 0 0)).
Proof.
  intros Hv. destruct (valid_date_bounds y m d Hv) as (By & Bm & Bd). split.
  - apply parse_date_parsed. unfold full_date.
    rewrite strip_no_space by apply slash_date_no_space.
    unfold full_formats. cbn [first_some].
    unfold strptime at 1, slash_date at 1. rewrite year_refuses_slash.
    rewrite month_first_parses by assumption. reflexivity.
  - intros Hd. apply parse_date_parsed. unfold full_date.
    rewrite strip_no_space by apply slash_date_no_space.
    unfold full_formats. cbn [first_some].
    unfold strptime at 1, slash_date at 1. rewrite year_refuses_slash.
    unfold strptime at 1, slash_date at 1. rewrite month_refuses_day by lia.
    rewrite day_first_parses by assumption. reflexivity.
Qed.

Lemma slash_date_month_first_witness :
  _parse_date sample_runtime "03/04/2024" = "2024-03-04" /\
  _parse_date sample_runtime "25/12/2024" = "2024-12-25".
Proof.
  destruct (slash_date_month_first sample_runtime 2024 3 4 eq_refl) as [H _].
  destruct (slash_date_month_first sample_runtime 2024 12 25 eq_refl) as [_ H'].
  split; [exact H|apply H'; reflexivity].
Defined.

(** X3.  A calendar date already written the ISO way, [YYYY-MM-DD], is
    returned as it is: the canonical dates are fixed points of
    [_parse_date].  Where the C library prints a year below 1000 without
    zeros the statement is for years of four digits. *)
Theorem iso_date_unchanged (rt : runtime) (y m d : Z) :
  valid_date y m d = true ->
  zero_fill_year rt = true \/ 1000 <= y ->
  _parse_date rt (iso_date y m d) = iso_date y m d.
Proof.
  intros Hv Hy.
  assert (E : iso_date y m d = strftime (zero_fill_year rt) (mktm y m d 0 0 0))
    by (symmetry; apply strftime_padded; exact Hy).
  rewrite E at 1. rewrite (parse_date_parsed rt _ (date_of (mktm y m d 0 0 0))).
  - rewrite strftime_date_of. symmetry. exact E.
  - apply full_date_strftime; [|exact Hy]. rewrite valid_tm_midnight. exact Hv.
Qed.

Lemma iso_date_unchanged_witness :
  _parse_date sample_runtime "2024-02-29" = "2024-02-29".
Proof.
  apply (iso_date_unchanged sample_runtime 2024 2 29); [reflexivity|right; lia].
Defined.

(** ** Reading year-less dates *)

Lemma valid_date_any_year (y m d : Z) :
  1 <= y <= 9999 -> valid_date 1900 m d = true -> valid_date y m d = true.
Proof.
  intros Hy H. unfold valid_date in *.
  repeat (apply andb_prop in H; destruct H as [H ?]).
  assert (L : days_in_month 1900 m <= days_in_month y m).
  { unfold days_in_month. destruct (m =? 2); [|lia].
    replace (is_leap 1900) with false by reflexivity.
    destruct (is_leap y); lia. }
  repeat (apply andb_true_intro; split); lia.
Qed.

Lemma month_day_parses (m d : Z) :
  valid_date 1900 m d = true ->
  strptime [FMonth; FLit "/"; FDay] (month_day m d) = Some (mktm 1900 m d 0 0 0).
Proof.
  intros Hv. destruct (valid_date_bounds 1900 m d Hv) as (_ & Bm & Bd).
  unfold strptime, month_day.
  rewrite (run_month _ _ _ _ (mktm 1900 m d 0 0 0, EmptyString)); [|lia|].
  - rewrite valid_tm_midnight, Hv. reflexivity.
  - rewrite run_lit, run_day by lia. reflexivity.
Qed.

(** X4.  A year-less date [MM/DD] of a day that every year has is given
    the year passed in: [_parse_date_with_year] returns that year, the
    month and the day, whatever today's date is. *)
Theorem yearless_date_takes_given_year (rt : runtime) (year m d : Z) :
  1 <= year <= 9999 ->
  valid_date 1900 m d = true ->
  _parse_date_with_year rt (month_day m d) year
  = strftime (zero_fill_year rt) (mktm year m d 0 0 0).
Proof.
  intros Hy Hv. unfold _parse_date_with_year, yearless_formats.
  cbn [yearless_date]. rewrite month_day_parses by assumption.
  replace (fits_c_int year) with true
    by (symmetry; unfold fits_c_int; apply andb_true_intro; split; lia).
  unfold replace_year. cbn [tm_mon tm_mday tm_hour tm_min tm_sec].
  rewrite valid_tm_midnight, (valid_date_any_year year m d Hy Hv). reflexivity.
Qed.

Lemma yearless_date_takes_given_year_witness :
  _parse_date_with_year sample_runtime "03/04" 2024 = "2024-03-04".
Proof.
  apply (yearless_date_takes_given_year sample_runtime 2024 3 4); [lia|reflexivity].
Defined.

(** X5.  The 29th of February written without a year is lost: the
    year-less formats are checked against the year 1900, which has no such
    day, so that for every way of writing it and for every year passed
    in, leap or not, [_parse_date_with_year] returns today's date. *)
Theorem yearless_leap_day_becomes_today (rt : runtime) (year : Z) (s : string) :
  In s leap_day_tokens ->
  _parse_date_with_year rt s year = today_str rt.
Proof.
  intros H. rewrite yearless_fallback.
  - apply parse_date_fallback.
    repeat (destruct H as [<-|H]; [reflexivity|]). destruct H.
  - repeat (destruct H as [<-|H]; [reflexivity|]). destruct H.
Qed.

Lemma yearless_leap_day_becomes_today_witness :
  _parse_date_with_year sample_runtime "02/29" 2028 = "2026-11-04".
Proof.
  apply (yearless_leap_day_becomes_today sample_runtime 2028 "02/29").
  left. reflexivity.
Defined.

(** ** What a parsed record holds *)

Lemma get_stripped_trimmed (field : key) (row : dict) (s : string) :
  get_stripped field row = Some s -> Py.strip s = s.
Proof.
  unfold get_stripped. destruct (dict_get field row) as [[t| |l]|]; try discriminate.
  - intros [= <-]. apply strip_idempotent.
  - intros [= <-]. reflexivity.
Qed.

(** The record of a row of the first source, field by field. *)
Lemma entry_source1_fields (cfg : csv_config) (rt : runtime) (row : dict) (e : entry) :
  entry_source1 cfg rt row = Some e ->
  exists oid d a,
    get_stripped (id_field cfg) row = Some oid /\
    get_stripped (date_field cfg) row = Some d /\
    get_amount (amount_field cfg) row = Some a /\
    e = mkentry (source_name cfg) a oid (_parse_date rt d).
Proof.
  unfold entry_source1.
  destruct (get_stripped (id_field cfg) row) as [oid|]; [|discriminate].
  destruct (get_stripped (date_field cfg) row) as [d|]; [|discriminate].
  destruct (_ || _); [discriminate|].
  destruct (negb _); [discriminate|].
  destruct (get_amount (amount_field cfg) row) as [a|]; [|discriminate].
  intros [= <-]. exists oid, d, a. auto.
Qed.

(** The record of a row of the second source, field by field. *)
Lemma entry_source2_fields (cfg : csv_config) (rt : runtime) (row : dict) (e : entry) :
  entry_source2 cfg rt row = Some e ->
  exists oid d a,
    get_stripped (id_field cfg) row = Some oid /\
    get_stripped (date_field cfg) row = Some d /\
    get_amount (amount_field cfg) row = Some a /\
    e = mkentry (source_name cfg) a oid (_parse_date_with_year rt d (tm_year (now rt))).
Proof.
  unfold entry_source2.
  destruct (get_stripped (date_field cfg) row) as [d|]; [|discriminate].
  destruct (get_stripped (id_field cfg) row) as [oid|]; [|discriminate].
  destruct (_ || _); [discriminate|].
  destruct (negb _); [discriminate|].
  destruct (first_col_value row) as [v|]; [|discriminate].
  destruct (existsb _ _); [discriminate|].
  destruct (_ || _); [discriminate|].
  destruct (get_amount (amount_field cfg) row) as [a|]; [|discriminate].
  intros [= <-]. exists oid, d, a. auto.
Qed.

(** Each record either parser returns comes from a row of the table. *)
Lemma parsed_entry_row (cfg : csv_config) (skip_rows : Z) (rt : runtime)
      (csv_content : string) (entries : list entry) (e : entry) :
  parse_csv_source1 cfg rt csv_content = Ok entries \/
  parse_csv_source2 cfg skip_rows rt csv_content = Ok entries ->
  In e entries ->
  exists row, entry_source1 cfg rt row = Some e \/ entry_source2 cfg rt row = Some e.
Proof.
  unfold parse_csv_source1, parse_csv_source2. intros [H|H] Hin.
  - destruct (DictReader csv_content) as [rows|]; [|discriminate].
    cbn in H. injection H as <-.
    apply filter_map_In in Hin. destruct Hin as (row & _ & Hrow). eauto.
  - destruct (DictReader _) as [rows|]; [|discriminate].
    cbn in H. injection H as <-.
    apply filter_map_In in Hin. destruct Hin as (row & _ & Hrow). eauto.
Qed.

(** X6.  Every record either parser returns carries the configured source
    label, and its order id has no white space left at either end. *)
Theorem parsed_records_labelled_and_trimmed (cfg : csv_config) (skip_rows : Z)
        (rt : runtime) (csv_content : string) (entries : list entry) :
  parse_csv_source1 cfg rt csv_content = Ok entries \/
  parse_csv_source2 cfg skip_rows rt csv_content = Ok entries ->
  Forall (fun e => source e = source_name cfg /\ Py.strip (order_id e) = order_id e)
         entries.
Proof.
  intros H. apply Forall_forall. intros e Hin.
  destruct (parsed_entry_row cfg skip_rows rt csv_content entries e H Hin) as (row & [R|R]).
  - apply entry_source1_fields in R. destruct R as (oid & d & a & Ho & _ & _ & ->).
    split; [reflexivity|]. cbn. eapply get_stripped_trimmed; eassumption.
  - apply entry_source2_fields in R. destruct R as (oid & d & a & Ho & _ & _ & ->).
    split; [reflexivity|]. cbn. eapply get_stripped_trimmed; eassumption.
Qed.

Lemma parsed_records_labelled_and_trimmed_witness :
  Forall (fun e => source e = "Daily" /\ Py.strip (order_id e) = order_id e)
         [mkentry "Daily" (Finite (5 # 1)) "1001" "2024-03-01"].
Proof.
  apply (parsed_records_labelled_and_trimmed (sample_config "Daily") 0 sample_runtime
           ("id,amt,date" ++ LF ++ " 1001 ,5,3/1/2024" ++ LF)).
  left. reflexivity.
Defined.

(** ** The dates of parsed records *)

Lemma yearless_date_fits (s : string) (year : Z) (fmts : list (list item)) :
  fits_c_int year = true -> yearless_date s year fmts <> Overflow.
Proof.
  intros Hy. induction fmts as [|fmt rest IH]; cbn; [discriminate|].
  destruct (strptime fmt s); [|exact IH]. rewrite Hy.
  destruct (replace_year year t); [discriminate|exact IH].
Qed.

Lemma yearless_date_replaced (s : string) (year : Z) (fmts : list (list item)) (dt : tm) :
  yearless_date s year fmts = Replaced dt -> valid_tm dt = true /\ tm_year dt = year.
Proof.
  induction fmts as [|fmt rest IH]; cbn; [discriminate|].
  destruct (strptime fmt s) as [t|]; [|exact IH].
  destruct (fits_c_int year); [|discriminate].
  unfold replace_year.
  destruct (valid_tm (mktm year _ _ _ _ _)) eqn:E; [|exact IH].
  intros [= <-]. split; [exact E|reflexivity].
Qed.

(** The result of [_parse_date] is the print of a calendar date. *)
Lemma parse_date_calendar (rt : runtime) (s : string) :
  valid_tm (now rt) = true ->
  exists t, valid_tm t = true /\ _parse_date rt s = strftime (zero_fill_year rt) t.
Proof.
  intros Hn. unfold _parse_date, today_str.
  destruct (_ || _); [eauto|].
  destruct (full_date s) as [dt|] eqn:E; [|eauto].
  exists dt. split; [eapply full_date_valid; eassumption|reflexivity].
Qed.

Lemma parse_date_with_year_calendar (rt : runtime) (s : string) :
  valid_tm (now rt) = true ->
  exists t, valid_tm t = true /\
    _parse_date_with_year rt s (tm_year (now rt)) = strftime (zero_fill_year rt) t.
Proof.
  intros Hn. unfold _parse_date_with_year.
  destruct (yearless_date s (tm_year (now rt)) yearless_formats) as [dt| |] eqn:E.
  - apply yearless_date_replaced in E. exists dt. split; [apply E|reflexivity].
  - exfalso. revert E. apply yearless_date_fits.
    destruct (valid_tm_bounds _ Hn) as (By & _). unfold fits_c_int.
    apply andb_true_intro; split; lia.
  - apply parse_date_calendar, Hn.
Qed.

(** X7.  Under a clock that shows a calendar date, the date of every
    record either parser returns is the print of a calendar date (one the
    [datetime] constructor accepts); it is a well-formed [YYYY-MM-DD]
    string when that date's year has four digits or the C library fills
    the year with zeros.  No record carries a blank date, free text, or
    the [<year>-01-01] of the outer handler. *)
Theorem parsed_dates_are_calendar_dates (cfg : csv_config) (skip_rows : Z)
        (rt : runtime) (csv_content : string) (entries : list entry) :
  valid_tm (now rt) = true ->
  parse_csv_source1 cfg rt csv_content = Ok entries \/
  parse_csv_source2 cfg skip_rows rt csv_content = Ok entries ->
  Forall (fun e => exists t,
            valid_tm t = true /\
            order_date e = strftime (zero_fill_year rt) t /\
            (zero_fill_year rt = true \/ 1000 <= tm_year t ->
             well_formed_date (order_date e) = true))
         entries.
Proof.
  intros Hn H. apply Forall_forall. intros e Hin.
  assert (G : exists t, valid_tm t = true /\ order_date e = strftime (zero_fill_year rt) t).
  { destruct (parsed_entry_row cfg skip_rows rt csv_content entries e H Hin) as (row & [R|R]).
    - apply entry_source1_fields in R. destruct R as (oid & d & a & _ & _ & _ & ->).
      apply parse_date_calendar, Hn.
    - apply entry_source2_fields in R. destruct R as (oid & d & a & _ & _ & _ & ->).
      apply parse_date_with_year_calendar, Hn. }
  destruct G as (t & Hv & E). exists t. split; [exact Hv|]. split; [exact E|].
  intros Hy. rewrite E. apply strftime_well_formed, Hy.
Qed.

Lemma parsed_dates_are_calendar_dates_witness :
  Forall (fun e => exists t,
            valid_tm t = true /\
            order_date e = strftime false t /\
            (false = true \/ 1000 <= tm_year t ->
             well_formed_date (order_date e) = true))
         [mkentry "Weekly" (Finite (5 # 1)) "7" "2026-03-04"].
Proof.
  apply (parsed_dates_are_calendar_dates (sample_config "Weekly") 1 sample_runtime
           ("Weekly report" ++ LF ++ "id,amt,date" ++ LF ++ "7,5,3/4" ++ LF)).
  - reflexivity.
  - right. reflexivity.
Defined.

(** ** The lines of the second source *)

Lemma split_on_nonempty (sep : ascii) (s : string) : Py.split_on sep s <> [].
Proof.
  destruct s as [|c r]; cbn; [discriminate|].
  destruct (c =? sep)%char; [discriminate|].
  destruct (Py.split_on sep r); discriminate.
Qed.

Lemma join_cons (sep x y : string) (l : list string) :
  Py.join sep (x :: y :: l) = x ++ sep ++ Py.join sep (y :: l).
Proof. reflexivity. Qed.

(** Joining the pieces of a split with the separator gives the text back. *)
Lemma join_split_on (sep : ascii) (s : string) :
  Py.join (String sep EmptyString) (Py.split_on sep s) = s.
Proof.
  induction s as [|c r IH]; [reflexivity|]. cbn [Py.split_on].
  pose proof (split_on_nonempty sep r) as N.
  destruct (Py.split_on sep r) as [|x xs]; [contradiction|].
  destruct (c =? sep)%char eqn:E.
  - apply Ascii.eqb_eq in E. subst c. rewrite join_cons. rewrite IH. reflexivity.
  - destruct xs as [|x' xs'].
    + cbn in IH |- *. rewrite IH. reflexivity.
    + rewrite join_cons in IH |- *. rewrite <- IH. reflexivity.
Qed.

Lemma split_on_line (a b : string) :
  Py.all_chars not_LF a = true ->
  Py.split_on "010" (a ++ LF ++ b) = a :: Py.split_on "010" b.
Proof.
  induction a as [|c a IH]; intros H.
  - reflexivity.
  - cbn [Py.all_chars] in H. apply andb_prop in H. destruct H as [Hc Ha].
    cbn [append Py.split_on]. unfold not_LF in Hc.
    destruct (c =? "010")%char; [discriminate|]. rewrite (IH Ha). reflexivity.
Qed.

Lemma split_on_banner (banners : list string) (body : string) :
  Forall (fun b => Py.all_chars not_LF b = true) banners ->
  Py.split_on "010" (with_banner banners body)
  = (banners ++ Py.split_on "010" body)%list.
Proof.
  induction 1 as [|b bs Hb _ IH]; [reflexivity|].
  cbn [with_banner fold_right]. rewrite split_on_line by exact Hb.
  fold (with_banner bs body). rewrite IH. reflexivity.
Qed.

Lemma skipn_app_length {A : Type} (l l' : list A) : skipn (length l) (l ++ l')%list = l'.
Proof. induction l as [|x l IH]; [reflexivity|exact IH]. Qed.

(** X8.  [parse_csv_source2] drops leading lines only when the text,
    trimmed, has more lines than [CSV2_SKIP_ROWS]: with a count that is
    zero or negative, or that reaches the number of lines, nothing is
    dropped and the whole trimmed text is read as the table, its first
    line as the header. *)
Theorem parse_csv_source2_skip_out_of_range (cfg : csv_config) (skip_rows : Z)
        (rt : runtime) (csv_content : string) :
  skip_rows <= 0 \/
  Z.of_nat (length (Py.split_on "010" (Py.strip csv_content))) <= skip_rows ->
  parse_csv_source2 cfg skip_rows rt csv_content
  = read_source2 cfg rt (Py.strip csv_content).
Proof.
  intros H. unfold parse_csv_source2, read_source2.
  replace ((0 <? skip_rows) && _) with false.
  - rewrite join_split_on. reflexivity.
  - symmetry. apply andb_false_iff. destruct H; [left|right]; lia.
Qed.

Lemma parse_csv_source2_skip_out_of_range_witness :
  parse_csv_source2 (sample_config "Weekly") 1 sample_runtime "Weekly report"
  = read_source2 (sample_config "Weekly") sample_runtime "Weekly report".
Proof.
  apply (parse_csv_source2_skip_out_of_range (sample_config "Weekly") 1 sample_runtime
           "Weekly report").
  right. cbn. lia.
Defined.

(** X9.  When the trimmed text opens with [n > 0] lines and
    [CSV2_SKIP_ROWS] is [n], [parse_csv_source2] reads exactly what
    follows those lines: the table is the text after the [n]-th line
    feed, unchanged, and the dropped lines play no part. *)
Theorem parse_csv_source2_skips_banner (cfg : csv_config) (rt : runtime)
        (csv_content : string) (banners : list string) (body : string) :
  banners <> [] ->
  Forall (fun b => Py.all_chars not_LF b = true) banners ->
  Py.strip csv_content = with_banner banners body ->
  parse_csv_source2 cfg (Z.of_nat (length banners)) rt csv_content
  = read_source2 cfg rt body.
Proof.
  intros Hn Hb E. unfold parse_csv_source2, read_source2.
  rewrite E, split_on_banner by exact Hb.
  pose proof (split_on_nonempty "010" body) as N.
  replace ((0 <? Z.of_nat (length banners)) && _) with true.
  - rewrite Nat2Z.id, skipn_app_length, join_split_on. reflexivity.
  - symmetry. apply andb_true_intro. rewrite length_app.
    destruct banners; [contradiction|].
    destruct (Py.split_on "010" body); [contradiction|]. cbn [length].
    split; apply Z.ltb_lt; lia.
Qed.

Lemma parse_csv_source2_skips_banner_witness :
  parse_csv_source2 (sample_config "Weekly") 2 sample_runtime
    (LF ++ "Weekly report" ++ LF ++ "week 45" ++ LF ++ "id,amt,date" ++ LF ++ "7,5,3/4" ++ LF)
  = read_source2 (sample_config "Weekly") sample_runtime ("id,amt,date" ++ LF ++ "7,5,3/4").
Proof.
  apply (parse_csv_source2_skips_banner (sample_config "Weekly") sample_runtime _
           ["Weekly report"; "week 45"] ("id,amt,date" ++ LF ++ "7,5,3/4")).
  - discriminate.
  - repeat constructor.
  - reflexivity.
Defined.

(** ** Reading a table of plain fields *)

Lemma rev_string_rev (a b c : string) :
  Py.rev_string (Py.rev_string a b) c = Py.rev_string b (a ++ c).
Proof.
  revert b. induction a as [|x a IH]; intros b; [reflexivity|].
  cbn [Py.rev_string]. rewrite IH. reflexivity.
Qed.

Lemma rev_string_involutive (a : string) :
  Py.rev_string (Py.rev_string a EmptyString) EmptyString = a.
Proof. rewrite rev_string_rev. cbn. apply append_empty_r. Qed.

Lemma plain_char_cases (c : ascii) :
  plain_char c = true ->
  is_newline c = false /\ (c =? quotechar)%char = false /\ (c =? ",")%char = false.
Proof.
  unfold plain_char. intros H.
  apply andb_prop in H. destruct H as [H H3].
  apply andb_prop in H. destruct H as [H1 H2].
  repeat split; apply negb_true_iff; assumption.
Qed.

(** The characters of a plain field, inside the field. *)
Lemma feed_in_field (f rest : string) (fs : list string) :
  forall (acc : string) (n : N),
  Py.all_chars plain_char f = true ->
  (n + N.of_nat (String.length f) <= field_limit)%N ->
  feed (mkreader IN_FIELD fs acc n) (f ++ rest)
  = feed (mkreader IN_FIELD fs (Py.rev_string f acc) (n + N.of_nat (String.length f))) rest.
Proof.
  induction f as [|c f IH]; intros acc n Hp Hn.
  - cbn [append Py.rev_string String.length]. rewrite N.add_0_r. reflexivity.
  - cbn [Py.all_chars] in Hp. apply andb_prop in Hp. destruct Hp as [Hc Hf].
    destruct (plain_char_cases c Hc) as (N1 & N2 & N3).
    cbn [String.length] in Hn |- *. rewrite Nat2N.inj_succ in Hn |- *.
    cbn [append feed]. unfold parse_process_char. cbn [st].
    rewrite N1, N3. unfold parse_add_char. cbn [field_len Csv.fields Csv.field Csv.st].
    replace (field_limit <=? n)%N with false by (symmetry; apply N.leb_gt; lia).
    cbn [bind]. rewrite IH by (try assumption; lia).
    cbn [Py.rev_string]. f_equal. f_equal. lia.
Qed.

(** A plain field that is not empty, from the place where a field starts. *)
Lemma feed_new_field (s0 : state) (c : ascii) (f rest : string) (fs : list string) :
  field_start s0 = true ->
  plain_field (String c f) = true ->
  feed (mkreader s0 fs EmptyString 0) (String c f ++ rest)
  = feed (mkreader IN_FIELD fs (Py.rev_string (String c f) EmptyString)
                   (N.of_nat (String.length (String c f)))) rest.
Proof.
  intros Hs Hp. unfold plain_field in Hp. apply andb_prop in Hp.
  destruct Hp as [Hp Hn]. apply N.leb_le in Hn.
  cbn [Py.all_chars] in Hp. apply andb_prop in Hp. destruct Hp as [Hc Hf].
  destruct (plain_char_cases c Hc) as (N1 & N2 & N3).
  cbn [String.length] in Hn |- *. rewrite Nat2N.inj_succ in Hn |- *.
  assert (E : parse_process_char (mkreader s0 fs EmptyString 0) (Some c)
              = Ok (mkreader IN_FIELD fs (String c EmptyString) 1)).
  { unfold parse_process_char. cbn [st]. rewrite N1, N2, N3.
    destruct s0; try discriminate; reflexivity. }
  cbn [append feed]. rewrite E. cbn [bind].
  rewrite feed_in_field by (try assumption; lia).
  cbn [Py.rev_string]. f_equal. f_equal. lia.
Qed.

(** A plain field up to the comma that closes it. *)
Lemma feed_field_comma (s0 : state) (f rest : string) (fs : list string) :
  field_start s0 = true ->
  plain_field f = true ->
  feed (mkreader s0 fs EmptyString 0) (f ++ String "," rest)
  = feed (mkreader START_FIELD (f :: fs) EmptyString 0) rest.
Proof.
  intros Hs Hp. destruct f as [|c f].
  - destruct s0; try discriminate; reflexivity.
  - rewrite feed_new_field by assumption.
    cbn [feed]. unfold parse_process_char. cbn [st is_newline Ascii.eqb Bool.eqb orb].
    cbn [bind]. unfold set_state, parse_save_field.
    cbn [Csv.st Csv.fields Csv.field Csv.field_len].
    rewrite rev_string_involutive. reflexivity.
Qed.

Lemma feed_line_end (fs : list string) (acc : string) (n : N) (e : option bool) :
  feed (mkreader IN_FIELD fs acc n) (line_end e)
  = Ok (mkreader START_RECORD (Py.rev_string acc EmptyString :: fs) EmptyString 0).
Proof. destruct e as [[|]|]; reflexivity. Qed.

(** The last plain field of a line, up to the end of the line. *)
Lemma feed_field_end (s0 : state) (f : string) (fs : list string) (e : option bool) :
  field_start s0 = true ->
  plain_field f = true ->
  s0 = START_FIELD \/ f <> EmptyString ->
  feed (mkreader s0 fs EmptyString 0) (f ++ line_end e)
  = Ok (mkreader START_RECORD (f :: fs) EmptyString 0).
Proof.
  intros Hs Hp Hn. destruct f as [|c f].
  - destruct Hn as [->|Hn]; [|contradiction]. destruct e as [[|]|]; reflexivity.
  - rewrite feed_new_field by assumption.
    rewrite feed_line_end, rev_string_involutive. reflexivity.
Qed.

(** A line of plain fields leaves the reader at the start of a record,
    with the fields of the line. *)
Lemma feed_record (e : option bool) (r : list string) :
  forall (s0 : state) (fs : list string),
  field_start s0 = true ->
  forallb plain_field r = true ->
  r <> [] ->
  s0 = START_FIELD \/ r <> [EmptyString] ->
  feed (mkreader s0 fs EmptyString 0) (Py.join "," r ++ line_end e)
  = Ok (mkreader START_RECORD (rev r ++ fs)%list EmptyString 0).
Proof.
  induction r as [|f r IH]; intros s0 fs Hs Hp Hr Hn; [contradiction|].
  cbn [forallb] in Hp. apply andb_prop in Hp. destruct Hp as [Hf Hp].
  destruct r as [|g r].
  - cbn [Py.join rev app]. apply feed_field_end; try assumption.
    destruct Hn as [Hn|Hn]; [left; exact Hn|right].
    intros ->. apply Hn. reflexivity.
  - rewrite join_cons, !append_assoc. cbn [append].
    rewrite feed_field_comma by assumption.
    rewrite IH; [|reflexivity|exact Hp|discriminate|left; reflexivity].
    cbn [rev]. rewrite <- !app_assoc. reflexivity.
Qed.

Lemma plain_not_LF (c : ascii) : plain_char c = true -> not_LF c = true.
Proof.
  intros H. destruct (plain_char_cases c H) as (N1 & _). unfold not_LF.
  unfold is_newline in N1. apply orb_false_elim in N1. destruct N1 as [N1 _].
  rewrite N1. reflexivity.
Qed.

Lemma all_chars_impl (p q : ascii -> bool) (s : string) :
  (forall c, p c = true -> q c = true) ->
  Py.all_chars p s = true -> Py.all_chars q s = true.
Proof.
  intros Hpq. induction s as [|c s IH]; [reflexivity|]. cbn [Py.all_chars].
  intros H. apply andb_prop in H. destruct H as [Hc Hs].
  rewrite (Hpq c Hc), (IH Hs). reflexivity.
Qed.

Lemma join_plain_not_LF (r : list string) :
  forallb plain_field r = true -> Py.all_chars not_LF (Py.join "," r) = true.
Proof.
  induction r as [|f r IH]; [reflexivity|]. cbn [forallb].
  intros H. apply andb_prop in H. destruct H as [Hf Hr].
  assert (F : Py.all_chars not_LF f = true).
  { unfold plain_field in Hf. apply andb_prop in Hf. destruct Hf as [Hf _].
    revert Hf. apply all_chars_impl, plain_not_LF. }
  destruct r as [|g r]; [exact F|].
  rewrite join_cons, !all_chars_append, F, (IH Hr). reflexivity.
Qed.

Lemma lines_of_line (crlf : bool) (a rest : string) :
  Py.all_chars not_LF a = true ->
  lines_of (a ++ newline crlf ++ rest) = (a ++ newline crlf) :: lines_of rest.
Proof.
  induction a as [|c a IH]; intros H; [destruct crlf; reflexivity|].
  cbn [Py.all_chars] in H. apply andb_prop in H. destruct H as [Hc Ha].
  cbn [append lines_of]. unfold not_LF in Hc.
  destruct (c =? "010")%char; [discriminate|]. rewrite (IH Ha). reflexivity.
Qed.

Lemma plain_record_parts (r : list string) :
  plain_record r = true ->
  forallb plain_field r = true /\ r <> [] /\ r <> [EmptyString].
Proof.
  unfold plain_record. intros H. apply andb_prop in H. destruct H as [Hf Hr].
  split; [exact Hf|]. destruct r as [|[|c f] [|g r]]; try discriminate;
    split; discriminate.
Qed.

(** The records of a table of plain fields, whatever text follows it. *)
Lemma reader_rows_prefix (crlf : bool) (rs : list (list string)) (t : string) :
  Forall (fun r => plain_record r = true) rs ->
  reader_rows (csv_text crlf rs ++ t)
  = (rows <- reader_rows t ;; Ok (rs ++ rows)%list).
Proof.
  unfold reader_rows. induction 1 as [|r rs Hr _ IH].
  - cbn [csv_text fold_right append app].
    destruct (records (lines_of t) parse_reset); reflexivity.
  - destruct (plain_record_parts r Hr) as (Hf & Hn & He).
    cbn [csv_text fold_right]. fold (csv_text crlf rs).
    rewrite !append_assoc, lines_of_line by (apply join_plain_not_LF; exact Hf).
    cbn [records]. unfold parse_reset at 1.
    change (Py.join "," r ++ newline crlf)
      with (Py.join "," r ++ line_end (Some crlf)).
    rewrite (feed_record (Some crlf) r START_RECORD []);
      [|reflexivity|exact Hf|exact Hn|right; exact He].
    cbn [bind at_record_start st Csv.fields]. rewrite IH.
    destruct (records (lines_of t) parse_reset); cbn [bind]; [|reflexivity].
    rewrite app_nil_r, rev_involutive. reflexivity.
Qed.

Lemma lines_of_open (a : string) :
  Py.all_chars not_LF a = true -> a <> EmptyString -> lines_of a = [a].
Proof.
  induction a as [|c a IH]; intros H Hn; [contradiction|].
  cbn [Py.all_chars] in H. apply andb_prop in H. destruct H as [Hc Ha].
  cbn [lines_of]. unfold not_LF in Hc. destruct (c =? "010")%char; [discriminate|].
  destruct a as [|c' a']; [reflexivity|].
  rewrite (IH Ha) by discriminate. reflexivity.
Qed.

Lemma join_plain_nonempty (r : list string) :
  r <> [] -> r <> [EmptyString] -> Py.join "," r <> EmptyString.
Proof.
  intros Hn He. destruct r as [|f [|g r]]; [contradiction| |].
  - cbn. intros ->. apply He. reflexivity.
  - rewrite join_cons. destruct f; discriminate.
Qed.

(** The one record of a last line that no line feed closes. *)
Lemma reader_rows_open_line (r : list string) :
  plain_record r = true -> reader_rows (Py.join "," r) = Ok [r].
Proof.
  intros Hr. destruct (plain_record_parts r Hr) as (Hf & Hn & He).
  unfold reader_rows.
  rewrite lines_of_open
    by (try apply join_plain_not_LF; try apply join_plain_nonempty; assumption).
  cbn [records]. unfold parse_reset at 1.
  replace (Py.join "," r) with (Py.join "," r ++ line_end None)
    by apply append_empty_r.
  rewrite (feed_record None r START_RECORD []);
    [|reflexivity|exact Hf|exact Hn|right; exact He].
  cbn. rewrite app_nil_r, rev_involutive. reflexivity.
Qed.

Lemma plain_records_nonempty (rs : list (list string)) :
  Forall (fun r => plain_record r = true) rs -> filter nonempty_row rs = rs.
Proof.
  induction 1 as [|r rs Hr _ IH]; [reflexivity|].
  destruct (plain_record_parts r Hr) as (_ & Hn & _).
  cbn [filter]. destruct r; [contradiction|]. cbn [nonempty_row]. rewrite IH. reflexivity.
Qed.

Lemma DictReader_plain_table (crlf : bool) (h : list string) (rs : list (list string)) :
  Forall (fun r => plain_record r = true) (h :: rs) ->
  DictReader (csv_text crlf (h :: rs)) = Ok (map (make_row h) rs).
Proof.
  intros H. unfold DictReader.
  rewrite <- (append_empty_r (csv_text crlf (h :: rs))), reader_rows_prefix by exact H.
  cbn. rewrite app_nil_r, plain_records_nonempty; [reflexivity|].
  inversion H; assumption.
Qed.

Lemma DictReader_plain_table_open (crlf : bool) (h : list string)
      (rs : list (list string)) (r : list string) :
  Forall (fun r => plain_record r = true) (h :: rs) ->
  plain_record r = true ->
  DictReader (csv_text crlf (h :: rs) ++ Py.join "," r)
  = Ok (map (make_row h) (rs ++ [r])).
Proof.
  intros H Hr. unfold DictReader.
  rewrite reader_rows_prefix, reader_rows_open_line by assumption.
  cbn [bind app]. rewrite plain_records_nonempty; [reflexivity|].
  apply Forall_app. split; [inversion H; assumption|]. constructor; [exact Hr|constructor].
Qed.

(** X10.  A table written one record per line, the lines closed by LF
    or by CR LF, the fields separated by commas and holding no comma,
    double quote, CR or LF, is read row by row: the first line is the
    header, and the records are those of the data lines, in order, each
    line mapped by the header; the reader merges, splits and drops no
    line.  The same holds when nothing closes the last line. *)
Theorem plain_table_read_line_by_line (cfg : csv_config) (rt : runtime) (crlf : bool)
        (h : list string) (rs : list (list string)) (r : list string) :
  Forall (fun r => plain_record r = true) (h :: rs) ->
  plain_record r = true ->
  parse_csv_source1 cfg rt (csv_text crlf (h :: rs))
    = Ok (filter_map (entry_source1 cfg rt) (map (make_row h) rs)) /\
  parse_csv_source1 cfg rt (csv_text crlf (h :: rs) ++ Py.join "," r)
    = Ok (filter_map (entry_source1 cfg rt) (map (make_row h) (rs ++ [r]))) /\
  read_source2 cfg rt (csv_text crlf (h :: rs))
    = Ok (filter_map (entry_source2 cfg rt) (map (make_row h) rs)) /\
  read_source2 cfg rt (csv_text crlf (h :: rs) ++ Py.join "," r)
    = Ok (filter_map (entry_source2 cfg rt) (map (make_row h) (rs ++ [r]))).
Proof.
  intros H Hr. unfold parse_csv_source1, read_source2.
  rewrite DictReader_plain_table, DictReader_plain_table_open by assumption.
  repeat split; reflexivity.
Qed.

Lemma plain_table_read_line_by_line_witness :
  parse_csv_source1 (sample_config "Daily") sample_runtime
    ("id,amt,date" ++ newline true ++ "1001,25.50,2024-03-01" ++ newline true
     ++ "1002,4,2024-03-02")
  = Ok [mkentry "Daily" (Finite (51 # 2)) "1001" "2024-03-01";
        mkentry "Daily" (Finite 4) "1002" "2024-03-02"].
Proof.
  assert (H : Forall (fun r => plain_record r = true)
                     [["id"; "amt"; "date"]; ["1001"; "25.50"; "2024-03-01"]])
    by (repeat constructor).
  destruct (plain_table_read_line_by_line (sample_config "Daily") sample_runtime true
              ["id"; "amt"; "date"] [["1001"; "25.50"; "2024-03-01"]]
              ["1002"; "4"; "2024-03-02"] H eq_refl) as (_ & E & _).
  etransitivity; [exact E|]. vm_compute. reflexivity.
Defined.

(** ** Rows looked up by field name *)

Lemma key_eqb_eq (a b : key) : key_eqb a b = true <-> a = b.
Proof.
  destruct a as [x|], b as [y|]; cbn; split; intros H;
    try discriminate; try reflexivity.
  - apply String.eqb_eq in H. subst. reflexivity.
  - injection H as ->. apply String.eqb_refl.
Qed.

Lemma key_eqb_neq (a b : key) : a <> b -> key_eqb a b = false.
Proof.
  intros H. destruct (key_eqb a b) eqn:E; [|reflexivity].
  apply key_eqb_eq in E. contradiction.
Qed.

Lemma dict_get_set_same (k : key) (v : cell) (d : dict) :
  dict_get k (dict_set k v d) = Some v.
Proof.
  induction d as [|[k' v'] d IH]; cbn.
  - rewrite (proj2 (key_eqb_eq k k) eq_refl). reflexivity.
  - destruct (key_eqb k k') eqn:E; cbn; rewrite E; [reflexivity|exact IH].
Qed.

Lemma dict_get_set_other (k k' : key) (v : cell) (d : dict) :
  k <> k' -> dict_get k (dict_set k' v d) = dict_get k d.
Proof.
  intros H. induction d as [|[k0 v0] d IH]; cbn.
  - rewrite (key_eqb_neq k k' H). reflexivity.
  - destruct (key_eqb k' k0) eqn:E; cbn.
    + apply key_eqb_eq in E. subst k0. rewrite (key_eqb_neq k k' H). reflexivity.
    + destruct (key_eqb k k0); [reflexivity|exact IH].
Qed.

Lemma fold_fields_other (k : key) (l : list (string * string)) :
  forall d : dict,
  (forall kv, In kv l -> Some (fst kv) <> k) ->
  dict_get k (fold_left (fun d kv => dict_set (Some (fst kv)) (CStr (snd kv)) d) l d)
  = dict_get k d.
Proof.
  induction l as [|kv l IH]; intros d H; [reflexivity|]. cbn [fold_left].
  rewrite IH by (intros kv' Hin; apply H; right; exact Hin).
  apply dict_get_set_other. intros E. apply (H kv); [left; reflexivity|symmetry; exact E].
Qed.

Lemma fold_absent_other (k : key) (l : list string) :
  forall d : dict,
  (forall n, In n l -> Some n <> k) ->
  dict_get k (fold_left (fun d n => dict_set (Some n) CNone d) l d) = dict_get k d.
Proof.
  induction l as [|n l IH]; intros d H; [reflexivity|]. cbn [fold_left].
  rewrite IH by (intros n' Hin; apply H; right; exact Hin).
  apply dict_get_set_other. intros E. apply (H n); [left; reflexivity|symmetry; exact E].
Qed.

Lemma in_skipn {A : Type} (x : A) (l : list A) :
  forall n : nat, In x (skipn n l) -> In x l.
Proof.
  induction l as [|y l IH]; intros n H.
  - destruct n; exact H.
  - destruct n as [|n]; [exact H|]. right. exact (IH n H).
Qed.

(** The value of a row under a name the header does not have. *)
Lemma make_row_get_unknown (h r : list string) (name : string) :
  ~ In name h -> dict_get (Some name) (make_row h r) = None.
Proof.
  intros Hn. unfold make_row.
  assert (F : dict_get (Some name)
                (fold_left (fun d kv => dict_set (Some (fst kv)) (CStr (snd kv)) d)
                           (combine h r) []) = None).
  { rewrite fold_fields_other; [reflexivity|].
    intros [a b] Hin [= ->]. apply in_combine_l in Hin. contradiction. }
  destruct (length h <? length r)%nat.
  - rewrite dict_get_set_other by discriminate. exact F.
  - rewrite fold_absent_other; [exact F|].
    intros n Hin [= ->]. apply Hn. revert Hin. apply in_skipn.
Qed.

(** The value of a row under the key of the surplus fields. *)
Lemma make_row_get_rest (h r : list string) :
  dict_get None (make_row h r) =
  if (length h <? length r)%nat then Some (CList (skipn (length h) r)) else None.
Proof.
  unfold make_row. destruct (length h <? length r)%nat.
  - apply dict_get_set_same.
  - rewrite fold_absent_other by discriminate.
    rewrite fold_fields_other by discriminate. reflexivity.
Qed.

Lemma fold_fields_get (h : list string) :
  forall (r : list string) (i : nat) (name v : string) (d : dict),
  NoDup h ->
  nth_error h i = Some name -> nth_error r i = Some v ->
  dict_get (Some name)
    (fold_left (fun d kv => dict_set (Some (fst kv)) (CStr (snd kv)) d) (combine h r) d)
  = Some (CStr v).
Proof.
  induction h as [|k h IH]; intros r i name v d Hd Hh Hr.
  - destruct i; discriminate.
  - destruct r as [|v0 r]; [destruct i; discriminate|].
    inversion Hd as [|? ? Hk Hd']; subst. cbn [combine fold_left fst snd].
    destruct i as [|i].
    + cbn in Hh, Hr. injection Hh as ->. injection Hr as ->.
      rewrite fold_fields_other.
      * apply dict_get_set_same.
      * intros [a b] Hin [= ->]. apply in_combine_l in Hin. contradiction.
    + cbn in Hh, Hr. eapply IH; eassumption.
Qed.

Lemma nodup_skipn_apart (h : list string) :
  forall (i n : nat) (name : string),
  NoDup h -> nth_error h i = Some name -> (i < n)%nat -> ~ In name (skipn n h).
Proof.
  induction h as [|k h IH]; intros i n name Hd Hh Hlt.
  - destruct i; discriminate.
  - inversion Hd as [|? ? Hk Hd']; subst. destruct n as [|n]; [lia|]. cbn [skipn].
    destruct i as [|i].
    + cbn in Hh. injection Hh as ->. intros Hin. apply Hk. revert Hin. apply in_skipn.
    + cbn in Hh. apply (IH i n name Hd' Hh). lia.
Qed.

Lemma make_row_get_column (h r : list string) (i : nat) (name v : string) :
  NoDup h ->
  nth_error h i = Some name -> nth_error r i = Some v ->
  dict_get (Some name) (make_row h r) = Some (CStr v).
Proof.
  intros Hd Hh Hr. unfold make_row. destruct (length h <? length r)%nat.
  - rewrite dict_get_set_other by discriminate. eapply fold_fields_get; eassumption.
  - rewrite fold_absent_other.
    + eapply fold_fields_get; eassumption.
    + intros n Hin [= ->]. revert Hin. apply (nodup_skipn_apart h i); try assumption.
      apply nth_error_Some. rewrite Hr. discriminate.
Qed.

(** X11.  When no name stands twice in the header, what the parsers look
    up in a row under a header name is the field of that column: the
    trimmed field for the id and the date, [float] of the field for the
    amount; fields beyond the header and columns the row lacks do not
    change it. *)
Theorem row_lookup_reads_named_column (h r : list string) (i : nat) (name v : string) :
  NoDup h ->
  nth_error h i = Some name ->
  nth_error r i = Some v ->
  get_stripped (Some name) (make_row h r) = Some (Py.strip v) /\
  get_amount (Some name) (make_row h r) = Float.of_string v.
Proof.
  intros Hd Hh Hr. unfold get_stripped, get_amount.
  rewrite (make_row_get_column h r i name v Hd Hh Hr). split; reflexivity.
Qed.

Lemma row_lookup_reads_named_column_witness :
  get_stripped (Some "amt") (make_row ["id"; "amt"; "date"] ["7"; " 12.5 "; "3/4"; "extra"])
    = Some "12.5" /\
  get_amount (Some "amt") (make_row ["id"; "amt"; "date"] ["7"; " 12.5 "; "3/4"; "extra"])
    = Some (Finite (25 # 2)).
Proof.
  apply (row_lookup_reads_named_column ["id"; "amt"; "date"]
           ["7"; " 12.5 "; "3/4"; "extra"] 1 "amt" " 12.5 ").
  - repeat constructor; cbn; intuition discriminate.
  - reflexivity.
  - reflexivity.
Defined.

(** ** Field names that name no column *)

Lemma get_stripped_missing (f : key) (h r : list string) (s : string) :
  missing f h -> get_stripped f (make_row h r) = Some s -> s = EmptyString.
Proof.
  unfold get_stripped. destruct f as [name|]; cbn [missing]; intros Hm.
  - rewrite make_row_get_unknown by exact Hm. intros [= <-]. reflexivity.
  - rewrite make_row_get_rest. destruct (length h <? length r)%nat; [discriminate|].
    intros [= <-]. reflexivity.
Qed.

Lemma get_amount_missing (f : key) (h r : list string) (a : amount) :
  missing f h -> get_amount f (make_row h r) = Some a -> a = Finite 0.
Proof.
  unfold get_amount. destruct f as [name|]; cbn [missing]; intros Hm.
  - rewrite make_row_get_unknown by exact Hm. intros [= <-]. reflexivity.
  - rewrite make_row_get_rest. destruct (length h <? length r)%nat; [discriminate|].
    intros [= <-]. reflexivity.
Qed.

Lemma entry_source1_missing (cfg : csv_config) (rt : runtime) (h r : list string) :
  missing (id_field cfg) h \/ missing (date_field cfg) h ->
  entry_source1 cfg rt (make_row h r) = None.
Proof.
  intros Hm. unfold entry_source1.
  destruct (get_stripped (id_field cfg) (make_row h r)) as [oid|] eqn:Eo; [|reflexivity].
  destruct (get_stripped (date_field cfg) (make_row h r)) as [d|] eqn:Ed; [|reflexivity].
  destruct Hm as [Hm|Hm].
  - rewrite (get_stripped_missing _ h r oid Hm Eo). reflexivity.
  - rewrite (get_stripped_missing _ h r d Hm Ed). rewrite orb_true_r. reflexivity.
Qed.

Lemma entry_source2_missing (cfg : csv_config) (rt : runtime) (h r : list string) :
  missing (id_field cfg) h \/ missing (date_field cfg) h ->
  entry_source2 cfg rt (make_row h r) = None.
Proof.
  intros Hm. unfold entry_source2.
  destruct (get_stripped (date_field cfg) (make_row h r)) as [d|] eqn:Ed; [|reflexivity].
  destruct (get_stripped (id_field cfg) (make_row h r)) as [oid|] eqn:Eo; [|reflexivity].
  destruct Hm as [Hm|Hm].
  - rewrite (get_stripped_missing _ h r oid Hm Eo). reflexivity.
  - rewrite (get_stripped_missing _ h r d Hm Ed). rewrite orb_true_r. reflexivity.
Qed.

Lemma filter_map_none {A B : Type} (f : A -> option B) (l : list A) :
  (forall x, In x l -> f x = None) -> filter_map f l = [].
Proof.
  induction l as [|x l IH]; intros H; [reflexivity|]. cbn.
  rewrite (H x) by (left; reflexivity). apply IH. intros y Hy. apply H. right. exact Hy.
Qed.

Lemma DictReader_rows (table : string) (h : list string) (rest : list (list string)) :
  reader_rows table = Ok (h :: rest) ->
  DictReader table = Ok (map (make_row h) (filter nonempty_row rest)).
Proof. intros H. unfold DictReader. rewrite H. reflexivity. Qed.

(** X12.  When the configured id field or date field is unset or names
    no column of the header, every row reads as one with an empty id or
    date and is passed over: the parser returns no record at all, and
    raises nothing that would tell. *)
Theorem unknown_key_column_gives_no_record (cfg : csv_config) (rt : runtime)
        (table : string) (h : list string) (rest : list (list string)) :
  reader_rows table = Ok (h :: rest) ->
  missing (id_field cfg) h \/ missing (date_field cfg) h ->
  parse_csv_source1 cfg rt table = Ok [] /\ read_source2 cfg rt table = Ok [].
Proof.
  intros Hr Hm. unfold parse_csv_source1, read_source2.
  rewrite (DictReader_rows table h rest Hr). cbn [bind]. split; f_equal.
  - apply filter_map_none. intros row Hin. apply in_map_iff in Hin.
    destruct Hin as (r & <- & _). apply entry_source1_missing, Hm.
  - apply filter_map_none. intros row Hin. apply in_map_iff in Hin.
    destruct Hin as (r & <- & _). apply entry_source2_missing, Hm.
Qed.

Lemma unknown_key_column_gives_no_record_witness :
  parse_csv_source1 (sample_config "Daily") sample_runtime
    ("ID,amt,date" ++ LF ++ "1001,25.50,2024-03-01" ++ LF) = Ok [] /\
  read_source2 (sample_config "Daily") sample_runtime
    ("ID,amt,date" ++ LF ++ "1001,25.50,2024-03-01" ++ LF) = Ok [].
Proof.
  apply (unknown_key_column_gives_no_record (sample_config "Daily") sample_runtime
           ("ID,amt,date" ++ LF ++ "1001,25.50,2024-03-01" ++ LF)
           ["ID"; "amt"; "date"] [["1001"; "25.50"; "2024-03-01"]]).
  - reflexivity.
  - left. cbn. intuition discriminate.
Defined.

(** X13.  When the configured amount field is unset or names no column
    of the header, the records are still returned, each with the amount
    0: the default of [row.get(amount_field, 0)] stands in for the
    column. *)
Theorem unknown_amount_column_gives_zero (cfg : csv_config) (rt : runtime)
        (table : string) (h : list string) (rest : list (list string))
        (entries : list entry) :
  reader_rows table = Ok (h :: rest) ->
  missing (amount_field cfg) h ->
  parse_csv_source1 cfg rt table = Ok entries \/ read_source2 cfg rt table = Ok entries ->
  Forall (fun e => order_amount e = Finite 0) entries.
Proof.
  intros Hr Hm H. apply Forall_forall. intros e Hin.
  unfold parse_csv_source1, read_source2 in H.
  rewrite (DictReader_rows table h rest Hr) in H. cbn [bind] in H.
  destruct H as [H|H]; injection H as <-;
    apply filter_map_In in Hin; destruct Hin as (row & Hrow & He);
    apply in_map_iff in Hrow; destruct Hrow as (r & <- & _).
  - apply entry_source1_fields in He. destruct He as (oid & d & a & _ & _ & Ha & ->).
    cbn. eapply get_amount_missing; eassumption.
  - apply entry_source2_fields in He. destruct He as (oid & d & a & _ & _ & Ha & ->).
    cbn. eapply get_amount_missing; eassumption.
Qed.

Lemma unknown_amount_column_gives_zero_witness :
  Forall (fun e => order_amount e = Finite 0)
         [mkentry "Daily" (Finite 0) "1001" "2024-03-01"].
Proof.
  apply (unknown_amount_column_gives_zero (sample_config "Daily") sample_runtime
           ("id,total,date" ++ LF ++ "1001,25.50,2024-03-01" ++ LF)
           ["id"; "total"; "date"] [["1001"; "25.50"; "2024-03-01"]]).
  - reflexivity.
  - cbn. intuition discriminate.
  - left. reflexivity.
Defined.

(** ** A carriage return that ends a line by itself *)

(** Outside quotes the reader takes a character that is no quote, or
    raises; it stays outside quotes. *)
Lemma step_outside (r0 : reader) (c : ascii) :
  outside_quotes (st r0) = true ->
  no_quote c = true ->
  (exists e, parse_process_char r0 (Some c) = Raise e) \/
  (exists r1, parse_process_char r0 (Some c) = Ok r1 /\ outside_quotes (st r1) = true).
Proof.
  intros Hs Hc. unfold no_quote in Hc. apply negb_true_iff in Hc.
  destruct r0 as [s fs f n]. cbn [st] in Hs.
  destruct s; try discriminate; unfold parse_process_char; cbn [st]; rewrite ?Hc;
    destruct (is_newline c); try (right; eexists; split; reflexivity);
    try (left; eexists; reflexivity);
    destruct (c =? ",")%char; try (right; eexists; split; reflexivity);
    unfold parse_add_char; cbn [field_len]; destruct (field_limit <=? n)%N; cbn [bind];
    try (right; eexists; split; reflexivity); left; eexists; reflexivity.
Qed.

(** A carriage return leaves the reader waiting for the rest of the line
    end. *)
Lemma step_cr (r0 : reader) :
  outside_quotes (st r0) = true ->
  exists r1, parse_process_char r0 (Some "013"%char) = Ok r1 /\ st r1 = EAT_CRNL.
Proof.
  intros Hs. destruct r0 as [s fs f n]. cbn [st] in Hs.
  destruct s; try discriminate; unfold parse_process_char; cbn [st];
    eexists; split; reflexivity.
Qed.

(** There, any other character than a line end is refused. *)
Lemma step_after_cr (r0 : reader) (c : ascii) :
  st r0 = EAT_CRNL -> is_newline c = false ->
  exists e, parse_process_char r0 (Some c) = Raise e.
Proof.
  intros Hs Hc. unfold parse_process_char. rewrite Hs, Hc. eexists. reflexivity.
Qed.

(** Outside quotes the end of a line ends the record. *)
Lemma step_end_outside (r0 : reader) :
  outside_quotes (st r0) = true ->
  exists r1, parse_process_char r0 None = Ok r1 /\ st r1 = START_RECORD.
Proof.
  intros Hs. destruct r0 as [s fs f n]. cbn [st] in Hs.
  destruct s; try discriminate; unfold parse_process_char; cbn [st];
    eexists; split; reflexivity.
Qed.

Lemma feed_outside (line : string) :
  forall r0 : reader,
  outside_quotes (st r0) = true ->
  Py.all_chars no_quote line = true ->
  (exists e, feed r0 line = Raise e) \/
  (exists r1, feed r0 line = Ok r1 /\ st r1 = START_RECORD).
Proof.
  induction line as [|c line IH]; intros r0 Hs Hq; cbn [feed].
  - right. apply step_end_outside. exact Hs.
  - cbn [Py.all_chars] in Hq. apply andb_prop in Hq. destruct Hq as [Hc Hq].
    destruct (step_outside r0 c Hs Hc) as [(e & ->)|(r1 & -> & S1)]; cbn [bind].
    + left. eexists. reflexivity.
    + apply IH; assumption.
Qed.

Lemma feed_bare_cr (line : string) :
  forall r0 : reader,
  outside_quotes (st r0) = true ->
  Py.all_chars no_quote line = true ->
  bare_cr line = true ->
  exists e, feed r0 line = Raise e.
Proof.
  induction line as [|c line IH]; intros r0 Hs Hq Hb; [discriminate|].
  cbn [Py.all_chars] in Hq. apply andb_prop in Hq. destruct Hq as [Hc Hq].
  cbn [bare_cr] in Hb. cbn [feed]. apply orb_prop in Hb. destruct Hb as [Hb|Hb].
  - apply andb_prop in Hb. destruct Hb as [E Hn]. apply Ascii.eqb_eq in E. subst c.
    destruct line as [|c' line]; [discriminate|]. apply negb_true_iff in Hn.
    destruct (step_cr r0 Hs) as (r1 & -> & S1). cbn [bind feed].
    destruct (step_after_cr r1 c' S1 Hn) as (e & ->). eexists. reflexivity.
  - destruct (step_outside r0 c Hs Hc) as [(e & ->)|(r1 & -> & S1)]; cbn [bind].
    + eexists. reflexivity.
    + apply IH; assumption.
Qed.

Lemma records_bare_cr (lines : list string) :
  forall r0 : reader,
  outside_quotes (st r0) = true ->
  forallb (Py.all_chars no_quote) lines = true ->
  existsb bare_cr lines = true ->
  exists e, records lines r0 = Raise e.
Proof.
  induction lines as [|line lines IH]; intros r0 Hs Hq Hb; [discriminate|].
  cbn [forallb] in Hq. apply andb_prop in Hq. destruct Hq as [Hl Hq].
  cbn [existsb] in Hb. cbn [records].
  destruct (feed_outside line r0 Hs Hl) as [(e & ->)|(r1 & E1 & S1)].
  - eexists. reflexivity.
  - apply orb_prop in Hb. destruct Hb as [Hb|Hb].
    + destruct (feed_bare_cr line r0 Hs Hl Hb) as (e & E). rewrite E. eexists. reflexivity.
    + rewrite E1. cbn [bind]. unfold at_record_start. rewrite S1.
      destruct (IH parse_reset eq_refl Hq Hb) as (e & ->). eexists. reflexivity.
Qed.

(** The first line of a text begins with its first character. *)
Lemma lines_of_cons (c : ascii) (s : string) :
  exists x xs, lines_of (String c s) = String c x :: xs.
Proof.
  cbn [lines_of]. destruct (c =? "010")%char; [eauto|].
  destruct (lines_of s); eauto.
Qed.

Lemma lines_of_no_quote (s : string) :
  Py.all_chars no_quote s = true -> forallb (Py.all_chars no_quote) (lines_of s) = true.
Proof.
  induction s as [|c s IH]; intros H; [reflexivity|].
  cbn [Py.all_chars] in H. apply andb_prop in H. destruct H as [Hc Hs].
  specialize (IH Hs). cbn [lines_of]. destruct (c =? "010")%char.
  - cbn [forallb Py.all_chars]. rewrite Hc, IH. reflexivity.
  - destruct (lines_of s) as [|x xs]; cbn [forallb Py.all_chars] in *.
    + rewrite Hc. reflexivity.
    + rewrite Hc. exact IH.
Qed.

(** A bare carriage return of a text is one of a line of it: no line is
    cut between a CR and a character that is no LF. *)
Lemma lines_of_bare_cr (s : string) :
  bare_cr s = true -> existsb bare_cr (lines_of s) = true.
Proof.
  induction s as [|c s IH]; intros H; [discriminate|].
  cbn [bare_cr] in H. apply orb_prop in H.
  destruct s as [|c' s'].
  { destruct H as [H|H]; [rewrite andb_false_r in H|]; discriminate. }
  destruct (lines_of_cons c' s') as (x & xs & E).
  assert (H' : (c =? "013")%char && negb (is_newline c') = true \/
               existsb bare_cr (String c' x :: xs) = true).
  { destruct H as [H|H]; [left; exact H|right; rewrite <- E; apply IH; exact H]. }
  clear H IH. remember (String c' s') as t eqn:T. cbn [lines_of]. rewrite E. clear T E.
  destruct (c =? "010")%char eqn:L.
  - cbn [existsb] in *. destruct H' as [H|H]; [|rewrite H; apply orb_true_r].
    apply andb_prop in H. destruct H as [H _]. apply Ascii.eqb_eq in H.
    apply Ascii.eqb_eq in L. subst c. discriminate.
  - cbn [existsb bare_cr]. destruct H' as [H|H].
    + rewrite H. reflexivity.
    + cbn [existsb] in H. apply orb_prop in H. destruct H as [I|I].
      * cbn [bare_cr] in I. rewrite I, orb_true_r. reflexivity.
      * rewrite I, !orb_true_r. reflexivity.
Qed.

Lemma reader_rows_bare_cr (table : string) :
  Py.all_chars no_quote table = true ->
  bare_cr table = true ->
  exists msg, reader_rows table = Raise (CsvError msg).
Proof.
  intros Hq Hb. unfold reader_rows.
  destruct (records_bare_cr (lines_of table) parse_reset eq_refl
              (lines_of_no_quote table Hq) (lines_of_bare_cr table Hb)) as ([msg] & E).
  exists msg. exact E.
Qed.

(** X14.  In a table that holds no double quote, a carriage return that
    is followed by a character other than LF and CR is not accepted,
    wherever it stands: the reader raises [csv.Error], neither parser
    catches it, and no record of the text is returned, not even those of
    the lines before. *)
Theorem bare_carriage_return_raises (cfg : csv_config) (rt : runtime) (table : string) :
  Py.all_chars no_quote table = true ->
  bare_cr table = true ->
  exists msg,
    parse_csv_source1 cfg rt table = Raise (CsvError msg) /\
    read_source2 cfg rt table = Raise (CsvError msg).
Proof.
  intros Hq Hb. destruct (reader_rows_bare_cr table Hq Hb) as (msg & E).
  exists msg. unfold parse_csv_source1, read_source2, DictReader.
  rewrite E. split; reflexivity.
Qed.

Lemma bare_carriage_return_raises_witness :
  exists msg,
    parse_csv_source1 (sample_config "Daily") sample_runtime
      ("id,amt,date" ++ LF ++ "1001,25.50,2024-03-01" ++ String "013" "1002,7,2024-03-02")
      = Raise (CsvError msg) /\
    read_source2 (sample_config "Daily") sample_runtime
      ("id,amt,date" ++ LF ++ "1001,25.50,2024-03-01" ++ String "013" "1002,7,2024-03-02")
      = Raise (CsvError msg).
Proof.
  apply (bare_carriage_return_raises (sample_config "Daily") sample_runtime
           ("id,amt,date" ++ LF ++ "1001,25.50,2024-03-01" ++
            String "013" "1002,7,2024-03-02"));
    reflexivity.
Defined.

(** ** The store under a run of upserts *)

Lemma number_equals_two_keys (name : string) (k k' : Z) (page : properties) :
  number_equals name k page = true -> number_equals name k' page = true -> k = k'.
Proof.
  unfold number_equals.
  destruct (get_prop name page) as [[c|[q|b|]|s|b]|]; try discriminate.
  intros H H'. apply Qeq_bool_iff in H, H'.
  apply inject_Z_injective. rewrite <- H, <- H'. reflexivity.
Qed.

Lemma query_from_update_same (name : string) (k : Z) (props : properties) (db : store) :
  forall (i j : page_id),
  (forall page, nth_error db j = Some page ->
     number_equals name k (merge page props) = number_equals name k page) ->
  query_from i (update db j props) name k = query_from i db name k.
Proof.
  induction db as [|p db IH]; intros i j H; [reflexivity|].
  destruct j as [|j]; cbn [update query_from].
  - rewrite (H p eq_refl). reflexivity.
  - rewrite (IH (S i) j) by (intros page Hp; apply H; exact Hp). reflexivity.
Qed.

Lemma length_update (db : store) (props : properties) :
  forall j : page_id, length (update db j props) = length db.
Proof.
  induction db as [|p db IH]; intros [|j]; cbn; try reflexivity.
  rewrite IH. reflexivity.
Qed.

Lemma nth_update_other (db : store) (props : properties) :
  forall i j : page_id, i <> j -> nth_error (update db j props) i = nth_error db i.
Proof.
  induction db as [|p db IH]; intros i j H; [destruct j; reflexivity|].
  destruct j as [|j], i as [|i]; cbn; try reflexivity; try contradiction.
  apply IH. intros ->. apply H. reflexivity.
Qed.

(** The ways a call of [create_or_update_notion_entry] ends: nothing is
    sent; or the key is asked for and a create is sent, no page being
    found or the query having raised; or the key is asked for and an
    update of the first page found is sent.  A write that raises leaves
    the store as it is. *)
Lemma upsert_cases (cfg : notion_config) (rt : runtime) (nt : faults)
      (done : list call) (db : store) (e : entry) :
  let r := create_or_update_notion_entry cfg rt nt done db e in
  r = (db, []) \/
  exists k,
    numeric_key rt (order_id e) = Some k /\
    Py.is_empty (order_id e) || Py.is_empty (Py.strip (order_id e)) = false /\
    (((nt done (Query "Order ID" k) = true \/ query db "Order ID" k = []) /\
      snd r = [Query "Order ID" k; Create (properties_with cfg rt e k)] /\
      ((fst r = db /\
        nt (done ++ [Query "Order ID" k])%list (Create (properties_with cfg rt e k)) = true) \/
       (fst r = create db (properties_with cfg rt e k) /\
        nt (done ++ [Query "Order ID" k])%list (Create (properties_with cfg rt e k)) = false))) \/
     (exists id rest,
        nt done (Query "Order ID" k) = false /\
        query db "Order ID" k = id :: rest /\
        snd r = [Query "Order ID" k; Update id (properties_with cfg rt e k)] /\
        ((fst r = db /\
          nt (done ++ [Query "Order ID" k])%list
             (Update id (properties_with cfg rt e k)) = true) \/
         (fst r = update db id (properties_with cfg rt e k) /\
          nt (done ++ [Query "Order ID" k])%list
             (Update id (properties_with cfg rt e k)) = false)))).
Proof.
  cbv zeta.
  unfold create_or_update_notion_entry, entry_properties, check_notion_entry_exists.
  destruct (_ || _) eqn:B; [left; reflexivity|].
  destruct (numeric_key rt (order_id e)) as [k|] eqn:K; [|left; reflexivity].
  right. exists k. split; [reflexivity|]. split; [reflexivity|]. cbn [option_map].
  destruct (nt done (Query "Order ID" k)) eqn:F.
  - left. split; [left; reflexivity|]. split; [reflexivity|]. cbn [fst].
    destruct (nt _ (Create _)); [left|right]; split; reflexivity.
  - destruct (query db "Order ID" k) as [|id rest] eqn:Q; cbn [hd_error].
    + left. split; [right; reflexivity|]. split; [reflexivity|]. cbn [fst].
      destruct (nt _ (Create _)); [left|right]; split; reflexivity.
    + right. exists id, rest. split; [reflexivity|]. split; [reflexivity|].
      split; [reflexivity|]. cbn [fst].
      destruct (nt _ (Update _ _)); [left|right]; split; reflexivity.
Qed.

(** When no call raises, the call is the one over a store that cannot
    fail. *)
Lemma upsert_no_faults (cfg : notion_config) (rt : runtime) (nt : faults)
      (done : list call) (db : store) (e : entry) :
  calls_succeed nt ->
  create_or_update_notion_entry cfg rt nt done db e =
  create_or_update_notion_entry cfg rt no_faults [] db e.
Proof.
  intros Hnt. unfold create_or_update_notion_entry, check_notion_entry_exists.
  destruct (_ || _); [reflexivity|].
  destruct (numeric_key rt (order_id e)) as [k|]; [|reflexivity].
  destruct (entry_properties cfg rt e) as [props|]; [|reflexivity].
  rewrite Hnt. unfold no_faults.
  destruct (hd_error _); rewrite Hnt; reflexivity.
Qed.

Lemma upsert_keys_unique (cfg : notion_config) (rt : runtime) (nt : faults)
      (done : list call) (db : store) (e : entry) :
  queries_succeed nt ->
  id_property cfg = "Order ID" ->
  id_property cfg <> date_property cfg ->
  id_property cfg <> checkbox_property cfg ->
  keys_unique db ->
  keys_unique (fst (create_or_update_notion_entry cfg rt nt done db e)).
Proof.
  intros Hq Hid Hd Hc Hu.
  destruct (upsert_cases cfg rt nt done db e)
    as [E|(k & _ & _ & [(Q & _ & [(E & _)|(E & _)])
                       |(id & rest & _ & Q & _ & [(E & _)|(E & _)])])];
    rewrite E; cbn [fst]; try exact Hu.
  - (* a page is created *)
    destruct Q as [Q|Q]; [rewrite Hq in Q; discriminate|].
    pose proof (properties_with_id cfg rt e k Hd Hc) as G. rewrite Hid in G.
    destruct (number_equals_written "Order ID" k [] _
                (properties_with_unique cfg rt e k) G) as [W _].
    intros k'. unfold query. rewrite query_from_app.
    destruct (number_equals "Order ID" k' (properties_with cfg rt e k)) eqn:N.
    + rewrite (number_equals_two_keys _ _ _ _ N W). fold (query db "Order ID" k).
      rewrite Q. cbn. lia.
    + rewrite app_nil_r. apply Hu.
  - (* a page is updated *)
    pose proof (properties_with_id cfg rt e k Hd Hc) as G. rewrite Hid in G.
    assert (Hin : In (O + id)%nat (query_from O db "Order ID" k))
      by (fold (query db "Order ID" k); rewrite Q; left; reflexivity).
    destruct (query_from_nth O id db "Order ID" k Hin) as (page & Hp & Hm).
    intros k'. unfold query. rewrite query_from_update_same; [apply Hu|].
    intros page' Hp'. rewrite Hp in Hp'. injection Hp' as <-.
    destruct (number_equals_written "Order ID" k page _
                (properties_with_unique cfg rt e k) G) as [_ W].
    destruct (number_equals "Order ID" k' (merge page _)) eqn:N1;
      destruct (number_equals "Order ID" k' page) eqn:N2; try reflexivity.
    + rewrite (number_equals_two_keys _ _ _ _ N1 W), Hm in N2. discriminate.
    + rewrite (number_equals_two_keys _ _ _ _ N2 Hm), W in N1. discriminate.
Qed.

(** While no query raises, the sync loop keeps the store at one page per
    order number. *)
Lemma sync_keys_unique (cfg : notion_config) (rt : runtime) (nt : faults)
      (entries : list entry) :
  queries_succeed nt ->
  id_property cfg = "Order ID" ->
  id_property cfg <> date_property cfg ->
  id_property cfg <> checkbox_property cfg ->
  forall (done : list call) (db : store),
    keys_unique db -> keys_unique (sync_entries cfg rt nt done db entries).
Proof.
  intros Hq Hid Hd Hc.
  induction entries as [|e rest IH]; intros done db Hu; cbn [sync_entries]; [exact Hu|].
  apply IH. apply upsert_keys_unique; assumption.
Qed.

Lemma properties_with_keys (cfg : notion_config) (rt : runtime) (e : entry) (k : Z)
      (name : string) :
  In name (map fst (properties_with cfg rt e k)) -> In name (written_names cfg).
Proof.
  unfold properties_with, written_names. intros H.
  repeat (apply set_prop_keys in H; destruct H as [->|H]; [cbn; tauto|]).
  destruct H.
Qed.

Lemma merge_keeps_other (cfg : notion_config) (rt : runtime) (e : entry) (k : Z)
      (page : properties) (name : string) :
  ~ In name (written_names cfg) ->
  get_prop name (merge page (properties_with cfg rt e k)) = get_prop name page.
Proof.
  intros H. rewrite merge_get by apply properties_with_unique.
  rewrite get_absent; [reflexivity|].
  intros Hin. apply H. eapply properties_with_keys. exact Hin.
Qed.

(** X15.  One call of [create_or_update_notion_entry] removes no page and
    adds at most one; it leaves every page as it was except the one it
    updates, and on that page every property it does not write (any name
    other than the five configured ones) keeps its value.  This holds
    whichever calls to the store raise. *)
Theorem upsert_touches_one_page (cfg : notion_config) (rt : runtime) (nt : faults)
        (done : list call) (db : store) (e : entry) :
  let r := create_or_update_notion_entry cfg rt nt done db e in
  (length db <= length (fst r) <= S (length db))%nat /\
  forall (j : page_id) (page : properties),
    nth_error db j = Some page ->
    nth_error (fst r) j = Some page \/
    exists k page',
      snd r = [Query "Order ID" k; Update j (properties_with cfg rt e k)] /\
      nth_error (fst r) j = Some page' /\
      forall name, ~ In name (written_names cfg) ->
                   get_prop name page' = get_prop name page.
Proof.
  cbv zeta.
  destruct (upsert_cases cfg rt nt done db e)
    as [E|(k & _ & _ & [(_ & S & [(E & _)|(E & _)])
                       |(id & rest & _ & Q & S & [(E & _)|(E & _)])])];
    rewrite ?E; try rewrite S; cbn [fst snd].
  - split; [lia|]. intros j page H. left. exact H.
  - split; [lia|]. intros j page H. left. exact H.
  - split.
    + unfold create. rewrite length_app. cbn. lia.
    + intros j page H. left. unfold create. rewrite nth_error_app1; [exact H|].
      apply nth_error_Some. rewrite H. discriminate.
  - split; [lia|]. intros j page H. left. exact H.
  - split; [rewrite length_update; lia|].
    intros j page H. destruct (Nat.eq_dec j id) as [->|N].
    + right. exists k, (merge page (properties_with cfg rt e k)).
      split; [reflexivity|]. split; [apply nth_update; exact H|].
      intros name Hn. apply merge_keeps_other. exact Hn.
    + left. rewrite nth_update_other by exact N. exact H.
Qed.

Lemma sync_entries_app (cfg : notion_config) (rt : runtime) (nt : faults)
      (a b : list entry) :
  forall (done : list call) (db : store),
  sync_entries cfg rt nt done db (a ++ b)
  = sync_entries cfg rt nt (done ++ sync_calls cfg rt nt done db a)%list
                 (sync_entries cfg rt nt done db a) b.
Proof.
  induction a as [|e a IH]; intros done db.
  - cbn. rewrite app_nil_r. reflexivity.
  - cbn [app sync_entries sync_calls]. rewrite IH, app_assoc. reflexivity.
Qed.

Lemma sync_calls_app (cfg : notion_config) (rt : runtime) (nt : faults)
      (a b : list entry) :
  forall (done : list call) (db : store),
  sync_calls cfg rt nt done db (a ++ b)
  = (sync_calls cfg rt nt done db a ++
     sync_calls cfg rt nt (done ++ sync_calls cfg rt nt done db a)%list
                (sync_entries cfg rt nt done db a) b)%list.
Proof.
  induction a as [|e a IH]; intros done db.
  - cbn. rewrite app_nil_r. reflexivity.
  - cbn [app sync_entries sync_calls]. rewrite IH, <- !app_assoc. reflexivity.
Qed.

(** A record of another key leaves the page of a key where and as it
    is. *)
Lemma upsert_other_key (cfg : notion_config) (rt : runtime) (nt : faults)
      (done : list call) (db : store) (e : entry)
      (k : Z) (id : page_id) (page : properties) :
  queries_succeed nt ->
  id_property cfg = "Order ID" ->
  id_property cfg <> date_property cfg ->
  id_property cfg <> checkbox_property cfg ->
  numeric_key rt (order_id e) <> Some k ->
  query db "Order ID" k = [id] ->
  nth_error db id = Some page ->
  query (fst (create_or_update_notion_entry cfg rt nt done db e)) "Order ID" k = [id] /\
  nth_error (fst (create_or_update_notion_entry cfg rt nt done db e)) id = Some page.
Proof.
  intros Hq Hid Hd Hc Hk Q P.
  assert (M : number_equals "Order ID" k page = true).
  { assert (Hin : In (O + id)%nat (query_from O db "Order ID" k))
      by (fold (query db "Order ID" k); rewrite Q; left; reflexivity).
    destruct (query_from_nth O id db "Order ID" k Hin) as (page0 & Hp & Hm).
    rewrite P in Hp. injection Hp as <-. exact Hm. }
  destruct (upsert_cases cfg rt nt done db e)
    as [E|(k' & K' & _ & [(Q' & _ & [(E & _)|(E & _)])
                         |(id' & rest & _ & Q' & _ & [(E & _)|(E & _)])])];
    rewrite E; cbn [fst]; try (split; assumption).
  - pose proof (properties_with_id cfg rt e k' Hd Hc) as G. rewrite Hid in G.
    destruct (number_equals_written "Order ID" k' [] _
                (properties_with_unique cfg rt e k') G) as [W _].
    split.
    + unfold query. rewrite query_from_app. fold (query db "Order ID" k). rewrite Q.
      destruct (number_equals "Order ID" k (properties_with cfg rt e k')) eqn:N;
        [|reflexivity].
      exfalso. apply Hk. rewrite K'. f_equal. exact (number_equals_two_keys _ _ _ _ W N).
    + unfold create. rewrite nth_error_app1; [exact P|].
      apply nth_error_Some. rewrite P. discriminate.
  - pose proof (properties_with_id cfg rt e k' Hd Hc) as G. rewrite Hid in G.
    assert (Hin : In (O + id')%nat (query_from O db "Order ID" k'))
      by (fold (query db "Order ID" k'); rewrite Q'; left; reflexivity).
    destruct (query_from_nth O id' db "Order ID" k' Hin) as (page' & Hp' & Hm').
    assert (D : k' <> k) by (intros ->; apply Hk; exact K').
    split.
    + unfold query. rewrite query_from_update_same; [exact Q|].
      intros p Hp. rewrite Hp' in Hp. injection Hp as <-.
      destruct (number_equals_written "Order ID" k' page' _
                  (properties_with_unique cfg rt e k') G) as [_ W].
      destruct (number_equals "Order ID" k (merge page' _)) eqn:N1;
        destruct (number_equals "Order ID" k page') eqn:N2; try reflexivity;
        exfalso; apply D.
      * exact (number_equals_two_keys _ _ _ _ W N1).
      * exact (number_equals_two_keys _ _ _ _ Hm' N2).
    + rewrite nth_update_other; [exact P|].
      intros ->. rewrite P in Hp'. injection Hp' as <-.
      apply D. exact (number_equals_two_keys _ _ _ _ Hm' M).
Qed.

Lemma sync_other_keys (cfg : notion_config) (rt : runtime) (nt : faults) (k : Z)
      (id : page_id) (page : properties) (post : list entry) :
  queries_succeed nt ->
  id_property cfg = "Order ID" ->
  id_property cfg <> date_property cfg ->
  id_property cfg <> checkbox_property cfg ->
  Forall (fun e => numeric_key rt (order_id e) <> Some k) post ->
  forall (done : list call) (db : store),
  query db "Order ID" k = [id] ->
  nth_error db id = Some page ->
  query (sync_entries cfg rt nt done db post) "Order ID" k = [id] /\
  nth_error (sync_entries cfg rt nt done db post) id = Some page.
Proof.
  intros Hq Hid Hd Hc.
  induction 1 as [|e post He _ IH]; intros done db Q P; [split; assumption|].
  cbn [sync_entries].
  destruct (upsert_other_key cfg rt nt done db e k id page Hq Hid Hd Hc He Q P) as [Q' P'].
  apply IH; assumption.
Qed.

Lemma calls_queries_succeed (nt : faults) : calls_succeed nt -> queries_succeed nt.
Proof. intros H done name k. apply H. Qed.

(** X16.  When no call to the store raises, over a store that holds at
    most one page per order number, a run of the sync loop ends with
    exactly one page for the number of each record written, and that page
    carries the amount of the last record of the list with that number:
    later records of other numbers do not touch it, earlier records of
    the same number are overwritten. *)
Theorem sync_last_write_wins (cfg : notion_config) (rt : runtime) (nt : faults)
        (done : list call) (db : store) (pre post : list entry) (e : entry) (k : Z) :
  calls_succeed nt ->
  id_property cfg = "Order ID" ->
  names_apart cfg ->
  keys_unique db ->
  Py.is_empty (Py.strip (order_id e)) = false ->
  numeric_key rt (order_id e) = Some k ->
  Forall (fun e' => numeric_key rt (order_id e') <> Some k) post ->
  exists id page,
    query (sync_entries cfg rt nt done db (pre ++ e :: post)) "Order ID" k = [id] /\
    nth_error (sync_entries cfg rt nt done db (pre ++ e :: post)) id = Some page /\
    get_prop (amount_property cfg) page = Some (Number (order_amount e)).
Proof.
  intros Hnt Hid Hn Hu Hb Hk Hpost. destruct Hn as (A1 & A2 & A3 & Hd & Hc).
  pose proof (calls_queries_succeed nt Hnt) as Hq.
  rewrite sync_entries_app. cbn [sync_entries].
  assert (U1 : keys_unique (sync_entries cfg rt nt done db pre))
    by (apply sync_keys_unique; assumption).
  set (db1 := sync_entries cfg rt nt done db pre) in *.
  set (done1 := (done ++ sync_calls cfg rt nt done db pre)%list) in *.
  assert (G : exists id page,
             query (fst (create_or_update_notion_entry cfg rt nt done1 db1 e))
                   "Order ID" k = [id] /\
             nth_error (fst (create_or_update_notion_entry cfg rt nt done1 db1 e)) id
             = Some page /\
             get_prop (amount_property cfg) page = Some (Number (order_amount e))).
  { destruct (upsert_writes_key cfg rt nt done1 db1 e k Hnt Hid Hd Hc Hb Hk)
      as [(Q & E & Q')|(id & rest & page & Q & P & E & Q')]; rewrite E; cbn [fst].
    - exists (length db1), (properties_with cfg rt e k). split; [exact Q'|]. split.
      + unfold create. rewrite nth_error_app2 by lia. rewrite Nat.sub_diag. reflexivity.
      + apply properties_with_amount; assumption.
    - pose proof (U1 k) as L. rewrite Q in L. destruct rest; [|cbn in L; lia].
      exists id, (merge page (properties_with cfg rt e k)). split; [exact Q'|]. split.
      + apply nth_update. exact P.
      + rewrite merge_get by apply properties_with_unique.
        rewrite properties_with_amount by assumption. reflexivity. }
  destruct G as (id & page & Q & P & A). exists id, page.
  destruct (sync_other_keys cfg rt nt k id page post Hq Hid Hd Hc Hpost
              (done1 ++ snd (create_or_update_notion_entry cfg rt nt done1 db1 e))%list
              _ Q P) as [Q' P'].
  auto.
Qed.

Lemma sync_last_write_wins_witness :
  exists id page,
    query (sync_entries default_notion_config sample_runtime no_faults [] []
             ([order_1001 5] ++ order_1001 7 :: [fractional_order])) "Order ID" 1001 = [id] /\
    nth_error (sync_entries default_notion_config sample_runtime no_faults [] []
                 ([order_1001 5] ++ order_1001 7 :: [fractional_order])) id = Some page /\
    get_prop "Order Amount" page = Some (Number (Finite 7)).
Proof.
  apply (sync_last_write_wins default_notion_config sample_runtime no_faults [] []
           [order_1001 5] [fractional_order] (order_1001 7) 1001).
  - apply no_faults_succeed.
  - reflexivity.
  - apply names_apart_default.
  - intros k. cbn. lia.
  - reflexivity.
  - reflexivity.
  - constructor; [discriminate|constructor].
Defined.

(** ** The bodies of a message *)

Lemma part_nested_ind (P : part -> Prop) :
  (forall mime filename body parts, Forall P parts -> P (Part mime filename body parts)) ->
  forall p, P p.
Proof.
  intros H. fix IH 1. intros [mime filename body parts]. apply H.
  induction parts as [|q qs IHqs]; constructor; [apply IH|exact IHqs].
Qed.

Lemma body_step_none (decode_lenient : string -> option string) (nodes : list part) :
  fold_left (body_step decode_lenient) nodes None = None.
Proof. induction nodes as [|p nodes IH]; [reflexivity|exact IH]. Qed.

Lemma extract_body_preorder (decode_lenient : string -> option string) (p : part) :
  forall acc : option (string * string),
  match acc with
  | Some bodies => extract_body decode_lenient p bodies
  | None => None
  end = fold_left (body_step decode_lenient) (preorder p) acc.
Proof.
  induction p as [mime filename body parts IH] using part_nested_ind.
  intros [bodies|]; [|symmetry; apply body_step_none].
  cbn [extract_body preorder fold_left body_step].
  change (if (mime =? "text/html")%string then _ else _)
    with (body_here decode_lenient (Part mime filename body parts) bodies).
  generalize (body_here decode_lenient (Part mime filename body parts) bodies).
  induction IH as [|q qs Hq _ IHqs]; intros acc; [reflexivity|].
  rewrite fold_left_app, <- Hq. destruct acc as [bd|].
  - apply IHqs.
  - symmetry. apply body_step_none.
Qed.

(** X17.  The bodies [extract_csv_link] collects are those of every node
    of the content tree below the payload, at any depth, taken in
    pre-order: each HTML node adds its decoded data to the HTML body and
    each plain-text node to the text body, in the order a depth-first walk
    from left to right meets them, and one decoding failure anywhere
    fails the whole collection. *)
Theorem extract_bodies_preorder (decode_lenient : string -> option string)
        (ps : list part) (bodies : string * string) :
  extract_bodies decode_lenient ps bodies
  = collect_bodies decode_lenient (preorder_parts ps) bodies.
Proof.
  unfold collect_bodies, preorder_parts. revert bodies.
  induction ps as [|p ps IH]; intros bodies; [reflexivity|].
  cbn [extract_bodies flat_map]. rewrite fold_left_app.
  rewrite <- (extract_body_preorder decode_lenient p (Some bodies)).
  destruct (extract_body decode_lenient p bodies) as [bd|].
  - apply IH.
  - symmetry. apply body_step_none.
Qed.

(** ** Where a link comes from *)

Lemma substring_refl (s : string) : substring s s.
Proof. exists EmptyString, EmptyString. cbn. symmetry. apply append_empty_r. Qed.

Lemma substring_empty (s : string) : substring EmptyString s.
Proof. exists EmptyString, s. reflexivity. Qed.

Lemma substring_append_l (y a b : string) : substring y a -> substring y (a ++ b).
Proof.
  intros (p & q & ->). exists p, (q ++ b). rewrite !append_assoc. reflexivity.
Qed.

Lemma substring_append_r (y a b : string) : substring y b -> substring y (a ++ b).
Proof.
  intros (p & q & ->). exists (a ++ p), q. rewrite !append_assoc. reflexivity.
Qed.

Section Groups.
Context {A : Type}.

(** What a successful match hands on: the text it matched, and as group
    either the group it was given or a piece of the matched text. *)
Lemma rmatch_group (ic : bool) (r : regex) :
  forall (s : string) (g : option string) (k : string -> option string -> option A) (res : A),
  rmatch ic r s g k = Some res ->
  exists x s' g',
    s = x ++ s' /\ lang ic r x /\ k s' g' = Some res /\
    (g' = g \/ exists y, g' = Some y /\ substring y x).
Proof.
  induction r as [l|p|p|p|c|a IHa b IHb|a IHa b IHb|a IHa]; intros s g k res; cbn [rmatch lang].
  - destruct (literal ic l s) as [s'|] eqn:E; [|discriminate].
    intros H. destruct (literal_split _ _ _ _ E) as (x & -> & Hx).
    exists x, s', g. auto.
  - destruct s as [|b s]; [discriminate|]. destruct (p b) eqn:E; [|discriminate].
    intros H. exists (String b EmptyString), s, g. repeat split; eauto.
  - intros H. apply many_sound in H. destruct H as (x & s' & -> & Hx & Hk).
    exists x, s', g. auto.
  - destruct s as [|b s]; [discriminate|]. destruct (p b) eqn:E; [|discriminate].
    intros H. apply many_sound in H. destruct H as (x & s' & -> & Hx & Hk).
    exists (String b x), s', g. cbn. rewrite E. repeat split; auto. discriminate.
  - destruct s as [|b s].
    + intros H. exists EmptyString, EmptyString, g. auto.
    + destruct (same_char ic c b) eqn:E.
      * destruct (k s g) as [y|] eqn:K.
        -- intros [= <-]. exists (String b EmptyString), s, g. repeat split; eauto.
        -- intros H. exists EmptyString, (String b s), g. auto.
      * intros H. exists EmptyString, (String b s), g. auto.
  - intros H. apply IHa in H. destruct H as (x1 & s1 & g1 & -> & H1 & H & G1).
    apply IHb in H. destruct H as (x2 & s2 & g2 & -> & H2 & H & G2).
    exists (x1 ++ x2), s2, g2. rewrite append_assoc.
    split; [reflexivity|]. split; [eauto|]. split; [exact H|].
    destruct G2 as [->|(y & -> & Hy)].
    + destruct G1 as [->|(y & -> & Hy)]; [left; reflexivity|].
      right. exists y. split; [reflexivity|]. apply substring_append_l, Hy.
    + right. exists y. split; [reflexivity|]. apply substring_append_r, Hy.
  - destruct (rmatch ic a s g k) as [y|] eqn:E.
    + intros [= <-]. apply IHa in E. destruct E as (x & s' & g' & -> & Hx & Hk & G).
      exists x, s', g'. auto.
    + intros H. apply IHb in H. destruct H as (x & s' & g' & -> & Hx & Hk & G).
      exists x, s', g'. auto.
  - intros H. apply IHa in H. destruct H as (x & s' & g' & -> & Hx & Hk & _).
    rewrite length_append, Nat.add_sub, take_append in Hk.
    exists x, s', (Some x). split; [reflexivity|]. split; [exact Hx|]. split; [exact Hk|].
    right. exists x. split; [reflexivity|apply substring_refl].
Qed.

End Groups.

Lemma match_at_parts (ic : bool) (r : regex) (s rest : string) (g : option string) :
  match_at ic r s = Some (rest, g) ->
  exists x, s = x ++ rest /\ lang ic r x /\
            (g = None \/ exists y, g = Some y /\ substring y x).
Proof.
  unfold match_at. intros H. apply rmatch_group in H.
  destruct H as (x & s' & g' & -> & Hx & [= -> ->] & G). exists x. auto.
Qed.

Lemma matches_here (ic : bool) (r : regex) (c : ascii) (s : string) :
  matches ic r (String c s) 0 =
  match match_at ic r (String c s) with
  | Some (rest, g) =>
      (Py.take (String.length (String c s) - String.length rest) (String c s), g)
        :: matches ic r s (String.length (String c s) - String.length rest - 1)
  | None => matches ic r s 0
  end.
Proof. reflexivity. Qed.

Lemma substring_cons (y s : string) (c : ascii) : substring y s -> substring y (String c s).
Proof. apply (substring_append_r y (String c EmptyString) s). Qed.

(** Every match [findall] lists is a text of the pattern found in the
    subject, and its group a piece of it. *)
Lemma matches_in (ic : bool) (r : regex) (m : string) (g : option string) (s : string) :
  forall skip : nat,
  In (m, g) (matches ic r s skip) ->
  lang ic r m /\ substring m s /\
  (g = None \/ exists y, g = Some y /\ substring y s).
Proof.
  induction s as [|c s IH]; intros skip H; [destruct H|].
  assert (T : forall n, In (m, g) (matches ic r s n) ->
              lang ic r m /\ substring m (String c s) /\
              (g = None \/ exists y, g = Some y /\ substring y (String c s))).
  { intros n T. apply IH in T. destruct T as (L & S & G).
    split; [exact L|]. split; [apply substring_cons, S|].
    destruct G as [->|(y & -> & Hy)]; [left; reflexivity|].
    right. exists y. split; [reflexivity|]. apply substring_cons, Hy. }
  destruct skip as [|n]; [|exact (T n H)].
  rewrite matches_here in H.
  destruct (match_at ic r (String c s)) as [[rest g0]|] eqn:E; [|exact (T _ H)].
  destruct H as [H|H]; [|exact (T _ H)].
  apply pair_equal_spec in H. destruct H as [Hm Hg]. subst g0.
  destruct (match_at_parts _ _ _ _ _ E) as (x & Ex & Hx & G).
  rewrite Ex, length_append, Nat.add_sub, take_append in Hm. subst m.
  split; [exact Hx|]. rewrite Ex.
  split; [apply substring_append_l, substring_refl|].
  destruct G as [->|(y & -> & Hy)]; [left; reflexivity|].
  right. exists y. split; [reflexivity|]. apply substring_append_l, Hy.
Qed.

Lemma findall_in (ic : bool) (r : regex) (s u : string) :
  In u (findall ic r s) -> lang ic r u /\ substring u s.
Proof.
  unfold findall. intros H. apply in_map_iff in H. destruct H as ([m g] & <- & H).
  apply matches_in in H. destruct H as (L & S & _). auto.
Qed.

Lemma findall_group_in (ic : bool) (r : regex) (s u : string) :
  In u (findall_group ic r s) -> substring u s.
Proof.
  unfold findall_group. intros H. apply in_map_iff in H.
  destruct H as ([m g] & <- & H). apply matches_in in H.
  destruct H as (_ & _ & [->|(y & -> & Hy)]); [apply substring_empty|exact Hy].
Qed.

Lemma literal_weaken (l x s' : string) :
  literal false l x = Some s' -> literal true l x = Some s'.
Proof.
  revert x. induction l as [|a l IH]; intros x; cbn; [auto|].
  destruct x as [|b x]; [discriminate|]. cbn.
  destruct (a =? b)%char eqn:E; [|discriminate].
  apply Ascii.eqb_eq in E. subst b. rewrite Ascii.eqb_refl. apply IH.
Qed.

(** What matches with regard to case matches without. *)
Lemma lang_weaken (r : regex) : forall x, lang false r x -> lang true r x.
Proof.
  induction r as [l|p|p|p|c|a IHa b IHb|a IHa b IHb|a IHa]; intros x; cbn [lang].
  - apply literal_weaken.
  - auto.
  - auto.
  - auto.
  - intros [->|(b & -> & Hb)]; [left; reflexivity|]. right. exists b.
    split; [reflexivity|]. cbn in Hb |- *. apply Ascii.eqb_eq in Hb. subst b.
    apply Ascii.eqb_refl.
  - intros (x1 & x2 & -> & H1 & H2). exists x1, x2. auto.
  - intros [H|H]; [left|right]; auto.
  - apply IHa.
Qed.

Lemma http_lower (h : string) :
  lang true http h -> Py.lower h = "http://" \/ Py.lower h = "https://".
Proof.
  cbn [lang http]. intros (x1 & x2 & -> & H1 & x3 & x4 & -> & H3 & H4).
  rewrite !lower_append, (literal_lower _ _ H1), (literal_lower _ _ H4).
  destruct H3 as [->|(b & -> & Hb)]; [left; reflexivity|]. right.
  unfold same_char in Hb. apply Ascii.eqb_eq in Hb. cbn [Py.lower]. rewrite <- Hb.
  reflexivity.
Qed.

Lemma http_prefix (r : regex) (x : string) :
  lang true (Seq http r) x ->
  Py.starts_with "http://" (Py.lower x) = true \/
  Py.starts_with "https://" (Py.lower x) = true.
Proof.
  cbn [lang]. intros (h & t & -> & H & _). rewrite lower_append.
  destruct (http_lower h H) as [->| ->]; [left|right]; apply starts_with_self.
Qed.

Lemma contains_tail (c : ascii) (p s : string) :
  Py.contains (String c p) s = true -> Py.contains p s = true.
Proof.
  induction s as [|b s IH]; [discriminate|].
  rewrite (contains_unfold (String c p)), (contains_unfold p (String b s)).
  intros H. apply orb_prop in H. destruct H as [H|H].
  - cbn [Py.starts_with] in H. apply andb_prop in H. destruct H as [_ H].
    rewrite (contains_unfold p s), H. apply orb_true_r.
  - rewrite (IH H). apply orb_true_r.
Qed.

Lemma csv_link_chars (x : string) :
  lang true csv_link_pattern x -> Py.all_chars url_char x = true.
Proof.
  unfold csv_link_pattern. cbn [lang].
  intros (x1 & x2 & -> & H1 & x3 & x4 & -> & (_ & H3) & x5 & x6 & -> & H5 & H6).
  rewrite !all_chars_append, (http_url_chars _ H1), H3, H6.
  rewrite (literal_url_chars ".csv" _ eq_refl H5). reflexivity.
Qed.

Lemma link_chars (x : string) :
  lang true link_pattern x -> Py.all_chars url_char x = true.
Proof.
  unfold link_pattern. cbn [lang]. intros (x1 & x2 & -> & H1 & _ & H2).
  rewrite all_chars_append, (http_url_chars _ H1), H2. reflexivity.
Qed.

Lemma html_url_shape (x : string) :
  lang true html_url_pattern x ->
  Py.contains ".csv" (Py.lower x) = true \/ Py.contains storage_domain (Py.lower x) = true.
Proof.
  unfold html_url_pattern. cbn [lang].
  intros (x1 & x2 & -> & H1 & x3 & x4 & -> & _ & [H|(x5 & x6 & -> & H5 & _)]).
  - left. rewrite !lower_append. apply contains_append_r, contains_append_r.
    apply literal_contains; [reflexivity|exact H].
  - right. rewrite !lower_append.
    apply contains_append_r, contains_append_r, contains_append_l.
    apply literal_contains; [reflexivity|exact H5].
Qed.

(** The link the text search returns, and the rule that found it. *)
Lemma link_from_text_found (body_text u : string) :
  link_from_text body_text = Some u ->
  substring u body_text /\
  (lang true csv_link_pattern u \/ lang true s3_link_pattern u \/
   (lang true link_pattern u /\ is_export_link u = true)).
Proof.
  unfold link_from_text. destruct (Py.is_empty body_text); [discriminate|].
  destruct (findall true csv_link_pattern body_text) as [|l1 t1] eqn:E1.
  - destruct (findall true s3_link_pattern body_text) as [|l2 t2] eqn:E2.
    + intros H. apply find_some in H. destruct H as [Hin He].
      apply findall_in in Hin. destruct Hin as [L S].
      split; [exact S|]. right. right. split; [apply lang_weaken, L|exact He].
    + intros [= <-].
      assert (Hin : In l2 (findall true s3_link_pattern body_text))
        by (rewrite E2; left; reflexivity).
      apply findall_in in Hin. destruct Hin as [L S]. auto.
  - intros [= <-].
    assert (Hin : In l1 (findall true csv_link_pattern body_text))
      by (rewrite E1; left; reflexivity).
    apply findall_in in Hin. destruct Hin as [L S]. auto.
Qed.

(** The link the HTML search returns, and the rule that found it. *)
Lemma link_from_html_found (body_html u : string) :
  link_from_html body_html = Some u ->
  substring u body_html /\ (is_link_href u = true \/ lang true html_url_pattern u).
Proof.
  unfold link_from_html. destruct (Py.is_empty body_html); [discriminate|].
  destruct (find is_link_href (findall_group true href_pattern body_html)) as [href|] eqn:F.
  - intros [= <-]. apply find_some in F. destruct F as [Hin Hl].
    apply findall_group_in in Hin. auto.
  - destruct (findall true html_url_pattern body_html) as [|l t] eqn:E; [discriminate|].
    intros [= <-].
    assert (Hin : In l (findall true html_url_pattern body_html))
      by (rewrite E; left; reflexivity).
    apply findall_in in Hin. destruct Hin as [L S]. auto.
Qed.

Lemma mentions_nonempty (u : string) : mentions_report u = true -> u <> EmptyString.
Proof. intros H ->. discriminate. Qed.

(** The link of the search: where it stands and what it mentions. *)
Lemma extract_link_found (body_html body_text u : string) :
  extract_link body_html body_text = Some u ->
  (substring u body_html \/ substring u body_text) /\ mentions_report u = true.
Proof.
  unfold extract_link, mentions_report. intros H.
  destruct (link_from_html body_html) as [l|] eqn:E.
  - injection H as ->. apply link_from_html_found in E.
    destruct E as [S R]. split; [left; exact S|].
    assert (C : Py.contains ".csv" (Py.lower u) = true \/
                Py.contains storage_domain (Py.lower u) = true).
    { destruct R as [R|R]; [|apply html_url_shape, R].
      unfold is_link_href in R. apply orb_prop in R. exact R. }
    destruct C as [C|C]; [rewrite (contains_tail _ _ _ C)|rewrite C];
      rewrite ?orb_true_r; reflexivity.
  - apply link_from_text_found in H. destruct H as [S R]. split; [right; exact S|].
    destruct R as [R|[R|[_ R]]].
    + apply csv_link_shape in R. rewrite (contains_tail _ _ _ R). reflexivity.
    + apply s3_link_shape in R. destruct R as [_ R]. rewrite R, orb_true_r. reflexivity.
    + unfold is_export_link in R. apply orb_prop in R.
      destruct R as [R|R]; rewrite R, ?orb_true_r; reflexivity.
Qed.

Lemma extract_csv_link_nonempty (decode_lenient : string -> option string)
      (m : message) (u : string) :
  extract_csv_link decode_lenient m = Some u -> u <> EmptyString.
Proof.
  unfold extract_csv_link.
  destruct (extract_bodies _ _ _) as [[h t]|]; [|discriminate].
  destruct (_ && _).
  - destruct (Py.is_empty _); [discriminate|].
    destruct (decode_lenient _) as [d|]; [|discriminate].
    destruct (_ || _); intros H; apply extract_link_found in H;
      apply mentions_nonempty, H.
  - intros H. apply extract_link_found in H. apply mentions_nonempty, H.
Qed.

(** X18.  A link [extract_csv_link] finds is never made up and never
    unrelated: it is a piece of the HTML body or of the text body as it
    stands there, it is not empty, and it mentions, in any case, the word
    csv, the storage domain [s3.amazonaws.com] or the word export. *)
Theorem extracted_link_comes_from_body (body_html body_text u : string) :
  extract_link body_html body_text = Some u ->
  u <> EmptyString /\
  (substring u body_html \/ substring u body_text) /\
  mentions_report u = true.
Proof.
  intros H. apply extract_link_found in H. destruct H as [S M].
  split; [apply mentions_nonempty, M|]. split; [exact S|exact M].
Qed.

Lemma extracted_link_comes_from_body_witness :
  "https://files.example.com/export?id=7" <> EmptyString /\
  (substring "https://files.example.com/export?id=7" "" \/
   substring "https://files.example.com/export?id=7"
             "Your report: https://files.example.com/export?id=7 (valid 24h)") /\
  mentions_report "https://files.example.com/export?id=7" = true.
Proof.
  apply (extracted_link_comes_from_body ""
           "Your report: https://files.example.com/export?id=7 (valid 24h)").
  reflexivity.
Defined.

(** X19.  A link taken from the plain-text body is a whole URL: it begins
    with http:// or https:// (in any case) and holds no white space, no
    angle bracket and no double quote.  (A link taken from an [href] of
    the HTML body carries no such guarantee: it is whatever the attribute
    holds.) *)
Theorem text_link_is_url (body_text u : string) :
  link_from_text body_text = Some u ->
  (Py.starts_with "http://" (Py.lower u) = true \/
   Py.starts_with "https://" (Py.lower u) = true) /\
  Py.all_chars url_char u = true.
Proof.
  intros H. apply link_from_text_found in H. destruct H as [_ [R|[R|[R _]]]].
  - split; [exact (http_prefix _ _ R)|apply csv_link_chars, R].
  - split; [exact (http_prefix _ _ R)|apply s3_link_shape, R].
  - split; [exact (http_prefix _ _ R)|apply link_chars, R].
Qed.

Lemma text_link_is_url_witness :
  (Py.starts_with "http://" (Py.lower "HTTPS://Files.example.com/Report.CSV?x=1") = true \/
   Py.starts_with "https://" (Py.lower "HTTPS://Files.example.com/Report.CSV?x=1") = true) /\
  Py.all_chars url_char "HTTPS://Files.example.com/Report.CSV?x=1" = true.
Proof.
  apply (text_link_is_url "see <HTTPS://Files.example.com/Report.CSV?x=1> today").
  reflexivity.
Defined.

(** ** The run *)

Lemma upsert_entries_effect (cfg : settings) (sv : services) (rt : runtime)
      (entries : list entry) :
  forall r : run_state,
  notion (upsert_entries cfg sv rt entries r)
    = sync_entries (notion_names cfg) rt (notion_raises sv) (store_calls r) (notion r)
                   entries /\
  store_calls (upsert_entries cfg sv rt entries r)
    = (store_calls r ++
       sync_calls (notion_names cfg) rt (notion_raises sv) (store_calls r) (notion r)
                  entries)%list /\
  mailbox_calls (upsert_entries cfg sv rt entries r) = mailbox_calls r /\
  missing_reports (upsert_entries cfg sv rt entries r) = missing_reports r /\
  processed_emails (upsert_entries cfg sv rt entries r) = processed_emails r /\
  entries_created (upsert_entries cfg sv rt entries r)
    = (entries_created r + length entries)%nat /\
  exists said, logged (upsert_entries cfg sv rt entries r) = (logged r ++ said)%list.
Proof.
  unfold upsert_entries.
  induction entries as [|e entries IH]; intros r;
    cbn [fold_left sync_entries sync_calls length].
  - rewrite Nat.add_0_r, app_nil_r. repeat split; try reflexivity.
    exists []. symmetry. apply app_nil_r.
  - destruct (IH (upsert_entry cfg sv rt r e)) as (H1 & H0 & H2 & H3 & H4 & H5 & said & H6).
    rewrite H1, H0, H2, H3, H4, H5, H6. cbn [upsert_entry notion store_calls mailbox_calls
      missing_reports processed_emails entries_created logged].
    repeat split; try reflexivity; try lia.
    + symmetry. apply app_assoc.
    + exists (notion_error cfg sv rt r e ++ said)%list. symmetry. apply app_assoc.
Qed.

Lemma sync_source_effect (cfg : settings) (sv : services) (rt : runtime)
      (name msg_id : string) (parsed : result (list entry)) (r0 r r' : run_state)
      (e : ending) (said : list log_call) :
  msg_id <> EmptyString ->
  mailbox_calls r = mailbox_calls r0 ->
  logged r = (logged r0 ++ said)%list ->
  processed_emails r = processed_emails r0 ->
  missing_reports r = missing_reports r0 ->
  notion r = notion r0 ->
  store_calls r = store_calls r0 ->
  entries_created r = entries_created r0 ->
  sync_source cfg sv rt name msg_id parsed r = (r', e) ->
  half_done cfg sv rt name (Some parsed) r0 r' e.
Proof.
  intros Hid Hm Hl Hp Hmi Hn Hs He. unfold sync_source.
  destruct parsed as [entries|x]; intros H; apply pair_equal_spec in H;
    destruct H as [<- <-]; cbv zeta.
  - destruct (upsert_entries_effect cfg sv rt entries
                (say ("Parsed " ++ str_of_nat (length entries) ++ " entries") LvInfo r))
      as (H1 & H0 & H2 & H3 & H4 & H5 & said' & H6).
    split; [cbn [mark_processed mailbox_calls]; rewrite H2; exact Hm|].
    eexists. split.
    + cbn [mark_processed logged]. rewrite H6. cbn [say logged]. rewrite Hl.
      rewrite <- !app_assoc. reflexivity.
    + left. exists msg_id, entries. cbn [mark_processed processed_emails missing_reports
        notion store_calls entries_created]. rewrite H1, H0, H3, H4, H5.
      cbn [say notion store_calls missing_reports processed_emails entries_created].
      rewrite Hp, Hmi, Hn, Hs, He. auto 10.
  - split; [exact Hm|]. exists said. auto 10.
Qed.

Lemma truthy_nonempty (s : option string) (v : string) :
  truthy s = Some v -> s = Some v /\ v <> EmptyString.
Proof.
  destruct s as [[|c t]|]; try discriminate. intros [= <-]. split; [reflexivity|discriminate].
Qed.

(** A half that reports its source missing. *)
Lemma missing_effect (cfg : settings) (sv : services) (rt : runtime)
      (name reason : string) (r0 r : run_state) (said : list log_call) :
  In reason missing_reasons ->
  mailbox_calls r = mailbox_calls r0 ->
  logged r = (logged r0 ++ said)%list ->
  processed_emails r = processed_emails r0 ->
  missing_reports r = missing_reports r0 ->
  notion r = notion r0 ->
  store_calls r = store_calls r0 ->
  entries_created r = entries_created r0 ->
  half_done cfg sv rt name None r0 (report_missing name (say reason LvError r)) Completed.
Proof.
  intros Hr Hm Hl Hp Hmi Hn Hs He. split; [exact Hm|].
  exists (said ++ [(reason, LvError)])%list. split.
  - cbn [report_missing say logged]. rewrite Hl, app_assoc. reflexivity.
  - right. exists reason. split; [reflexivity|]. split; [exact Hr|].
    split; [apply in_or_app; right; left; reflexivity|].
    cbn [report_missing say processed_emails missing_reports notion store_calls
         entries_created].
    rewrite Hp, Hmi, Hn, Hs, He. auto 10.
Qed.

Lemma process_source1_effect (cfg : settings) (sv : services) (rt : runtime)
      (r r' : run_state) (e : ending) :
  process_source1 cfg sv rt r = (r', e) ->
  half_done cfg sv rt (source_name (csv1 cfg)) (report1_parsed cfg sv rt) r r' e.
Proof.
  unfold process_source1, report1_parsed, report1_text. cbv zeta.
  destruct (search_email sv (email1_query cfg)) as [found l1]. cbn [fst snd].
  destruct (truthy found) as [email1_id|] eqn:T1.
  - apply truthy_nonempty in T1. destruct T1 as [_ Hid].
    destruct (get_email_details sv email1_id) as [message l2]. cbn [fst snd].
    set (l3 := if link_raises sv message then [("Link extraction error", LvError)] else []).
    set (r3 := if link_raises sv message then _ else _).
    assert (E3 : mailbox_calls r3 = mailbox_calls r /\
                 logged r3 = (logged r ++ ((LF ++ "Processing " ++ source_name (csv1 cfg))%string, LvInfo) :: l1 ++ ("Email found", LvInfo) :: l2 ++ l3)%list /\
                 processed_emails r3 = processed_emails r /\
                 missing_reports r3 = missing_reports r /\
                 notion r3 = notion r /\ store_calls r3 = store_calls r /\
                 entries_created r3 = entries_created r).
    { subst r3 l3. destruct (link_raises sv message);
        cbn [say says mailbox_calls logged processed_emails missing_reports notion
             store_calls entries_created];
        rewrite <- ?app_assoc; cbn [app]; rewrite ?app_nil_r; auto 10. }
    clearbody r3. destruct E3 as (M3 & L3 & P3 & Mi3 & N3 & S3 & C3).
    destruct (truthy (extract_csv_link (decode_lenient sv) message)) as [csv_link|].
    + destruct (download_csv sv csv_link) as [content l4]. cbn [fst snd].
      destruct (truthy content) as [csv_content|]; cbn [option_map].
      * apply sync_source_effect with (said :=
          (((LF ++ "Processing " ++ source_name (csv1 cfg))%string, LvInfo) :: l1 ++
           ("Email found", LvInfo) :: l2 ++ l3 ++ ("CSV link found", LvInfo) :: l4)%list);
          cbn [say says mailbox_calls logged processed_emails missing_reports notion
               store_calls entries_created]; try assumption.
        rewrite L3, <- !app_assoc. cbn [app]. rewrite <- !app_assoc. cbn [app].
        rewrite <- !app_assoc. reflexivity.
      * intros H. apply pair_equal_spec in H. destruct H as [<- <-].
        apply missing_effect with (said :=
          (((LF ++ "Processing " ++ source_name (csv1 cfg))%string, LvInfo) :: l1 ++
           ("Email found", LvInfo) :: l2 ++ l3 ++ ("CSV link found", LvInfo) :: l4)%list);
          cbn [say says mailbox_calls logged processed_emails missing_reports notion
               store_calls entries_created]; try assumption; [cbn; tauto|].
        rewrite L3, <- !app_assoc. cbn [app]. rewrite <- !app_assoc. cbn [app].
        rewrite <- !app_assoc. reflexivity.
    + intros H. apply pair_equal_spec in H. destruct H as [<- <-]. cbn [option_map].
      apply missing_effect with (said :=
        (((LF ++ "Processing " ++ source_name (csv1 cfg))%string, LvInfo) :: l1 ++
         ("Email found", LvInfo) :: l2 ++ l3)%list);
        cbn [say says mailbox_calls logged processed_emails missing_reports notion
             store_calls entries_created]; try assumption. cbn; tauto.
  - intros H. apply pair_equal_spec in H. destruct H as [<- <-]. cbn [option_map].
    apply missing_effect with (said :=
      (((LF ++ "Processing " ++ source_name (csv1 cfg))%string, LvInfo) :: l1)%list);
      cbn [say says mailbox_calls logged processed_emails missing_reports notion
           store_calls entries_created]; try reflexivity; [cbn; tauto|].
    rewrite <- app_assoc. reflexivity.
Qed.

Lemma process_source2_effect (cfg : settings) (sv : services) (rt : runtime)
      (r r' : run_state) (e : ending) :
  process_source2 cfg sv rt r = (r', e) ->
  half_done cfg sv rt (source_name (csv2 cfg)) (report2_parsed cfg sv rt) r r' e.
Proof.
  unfold process_source2, report2_parsed, report2_text. cbv zeta.
  destruct (search_email sv (email2_query cfg)) as [found l1]. cbn [fst snd].
  destruct (truthy found) as [email2_id|] eqn:T1.
  - apply truthy_nonempty in T1. destruct T1 as [_ Hid].
    destruct (get_email_details sv email2_id) as [message l2]. cbn [fst snd].
    set (l3 := if scan_raises sv email2_id (payload_parts message)
               then [("Attachment extraction error", LvError)] else []).
    set (r3 := if scan_raises sv email2_id (payload_parts message) then _ else _).
    assert (E3 : mailbox_calls r3 = mailbox_calls r /\
                 logged r3 = (logged r ++ ((LF ++ "Processing " ++ source_name (csv2 cfg))%string, LvInfo) :: l1 ++ ("Email found", LvInfo) :: l2 ++ l3)%list /\
                 processed_emails r3 = processed_emails r /\
                 missing_reports r3 = missing_reports r /\
                 notion r3 = notion r /\ store_calls r3 = store_calls r /\
                 entries_created r3 = entries_created r).
    { subst r3 l3. destruct (scan_raises sv email2_id (payload_parts message));
        cbn [say says mailbox_calls logged processed_emails missing_reports notion
             store_calls entries_created];
        rewrite <- ?app_assoc; cbn [app]; rewrite ?app_nil_r; auto 10. }
    clearbody r3. destruct E3 as (M3 & L3 & P3 & Mi3 & N3 & S3 & C3).
    destruct (truthy (extract_attachment _ _ email2_id message)) as [csv_content|];
      cbn [option_map].
    + apply sync_source_effect with (said :=
        (((LF ++ "Processing " ++ source_name (csv2 cfg))%string, LvInfo) :: l1 ++
         ("Email found", LvInfo) :: l2 ++ l3 ++ [("CSV attachment extracted", LvInfo)])%list);
        cbn [say says mailbox_calls logged processed_emails missing_reports notion
             store_calls entries_created]; try assumption.
      rewrite L3, <- !app_assoc. cbn [app]. rewrite <- !app_assoc. cbn [app].
      rewrite <- !app_assoc. reflexivity.
    + intros H. apply pair_equal_spec in H. destruct H as [<- <-].
      apply missing_effect with (said :=
        (((LF ++ "Processing " ++ source_name (csv2 cfg))%string, LvInfo) :: l1 ++
         ("Email found", LvInfo) :: l2 ++ l3)%list);
        cbn [say says mailbox_calls logged processed_emails missing_reports notion
             store_calls entries_created]; try assumption. cbn; tauto.
  - intros H. apply pair_equal_spec in H. destruct H as [<- <-]. cbn [option_map].
    apply missing_effect with (said :=
      (((LF ++ "Processing " ++ source_name (csv2 cfg))%string, LvInfo) :: l1)%list);
      cbn [say says mailbox_calls logged processed_emails missing_reports notion
           store_calls entries_created]; try reflexivity; [cbn; tauto|].
    rewrite <- app_assoc. reflexivity.
Qed.

Lemma archive_effect (sv : services) (r : run_state) (msg_id : string) :
  let r' := archive_or_delete_email sv r msg_id in
  notion r' = notion r /\ processed_emails r' = processed_emails r /\
  missing_reports r' = missing_reports r /\ entries_created r' = entries_created r /\
  (exists said, logged r' = (logged r ++ said)%list) /\
  exists cs, mailbox_calls r' = (mailbox_calls r ++ cs)%list /\ cleanup_of sv [msg_id] cs.
Proof.
  cbv zeta. unfold archive_or_delete_email.
  assert (A : cleanup_of sv [msg_id] [Modify msg_id]).
  { split.
    - intros c [<-|[]]. exists msg_id. split; [left; reflexivity|left; reflexivity].
    - intros i [<-|[]]. left. reflexivity. }
  destruct (gmail_modify sv (mailbox_calls r) msg_id) as [status|] eqn:M.
  - destruct (status =? 403) eqn:S.
    + apply Z.eqb_eq in S. subst status.
      assert (B : cleanup_of sv [msg_id] [Modify msg_id; Trash msg_id]).
      { split.
        - intros c [<-|[<-|[]]]; exists msg_id; (split; [left; reflexivity|]);
            [left; reflexivity|right; split; [reflexivity|eauto]].
        - intros i [<-|[]]. left. reflexivity. }
      destruct (gmail_trash sv _ msg_id);
        cbn [mail say notion processed_emails missing_reports entries_created logged
             mailbox_calls]; repeat split; try reflexivity.
      * exists []. symmetry. apply app_nil_r.
      * exists [Modify msg_id; Trash msg_id]. rewrite <- app_assoc. auto.
      * eauto.
      * exists [Modify msg_id; Trash msg_id]. rewrite <- app_assoc. auto.
    + cbn [mail say notion processed_emails missing_reports entries_created logged
           mailbox_calls]; repeat split; try reflexivity; eauto.
  - cbn [mail notion processed_emails missing_reports entries_created logged
         mailbox_calls]; repeat split; try reflexivity; [|eauto].
    exists []. symmetry. apply app_nil_r.
Qed.

Lemma cleanup_of_app (sv : services) (id : string) (ids : list string)
      (cs cs' : list mail_call) :
  cleanup_of sv [id] cs -> cleanup_of sv ids cs' -> cleanup_of sv (id :: ids) (cs ++ cs').
Proof.
  intros [A1 A2] [B1 B2]. split.
  - intros c Hc. apply in_app_or in Hc. destruct Hc as [Hc|Hc].
    + destruct (A1 c Hc) as (i & [<-|[]] & H). exists id. split; [left; reflexivity|exact H].
    + destruct (B1 c Hc) as (i & Hi & H). exists i. split; [right; exact Hi|exact H].
  - intros i [<-|Hi]; apply in_or_app.
    + left. apply A2. left. reflexivity.
    + right. apply B2, Hi.
Qed.

Lemma cleanup_effect (sv : services) (ps : list (string * string)) :
  forall r : run_state,
  let r' := fold_left (fun r p => archive_or_delete_email sv r (snd p)) ps r in
  notion r' = notion r /\ processed_emails r' = processed_emails r /\
  missing_reports r' = missing_reports r /\ entries_created r' = entries_created r /\
  (exists said, logged r' = (logged r ++ said)%list) /\
  exists cs, mailbox_calls r' = (mailbox_calls r ++ cs)%list /\
             cleanup_of sv (map snd ps) cs.
Proof.
  induction ps as [|p ps IH]; intros r; cbv zeta; cbn [fold_left map].
  - repeat split; try reflexivity.
    + exists []. symmetry. apply app_nil_r.
    + exists []. split; [symmetry; apply app_nil_r|].
      split; [intros c []|intros i []].
  - destruct (archive_effect sv r (snd p)) as (A1 & A2 & A3 & A4 & (l & A5) & cs & A6 & A7).
    destruct (IH (archive_or_delete_email sv r (snd p)))
      as (B1 & B2 & B3 & B4 & (l' & B5) & cs' & B6 & B7).
    rewrite B1, B2, B3, B4, B5, B6, A1, A2, A3, A4, A5, A6.
    repeat split; try reflexivity.
    + exists (l ++ l')%list. symmetry. apply app_assoc.
    + exists (cs ++ cs')%list. split; [symmetry; apply app_assoc|].
      apply cleanup_of_app; assumption.
Qed.

Lemma send_alert_effect (cfg : settings) (sv : services) (r : run_state)
      (missing : list string) :
  missing <> [] ->
  let r' := send_alert_email cfg sv r missing in
  notion r' = notion r /\ processed_emails r' = processed_emails r /\
  missing_reports r' = missing_reports r /\ entries_created r' = entries_created r /\
  (exists said, logged r' = (logged r ++ said)%list) /\
  mailbox_calls r' = (mailbox_calls r ++ alert_calls cfg missing)%list.
Proof.
  intros Hm. cbv zeta. unfold send_alert_email, alert_calls.
  destruct missing as [|m ms]; [contradiction|].
  destruct (truthy (alert_email cfg)) as [to|].
  - destruct (gmail_send sv _ _);
      cbn [mail say notion processed_emails missing_reports entries_created logged
           mailbox_calls]; repeat split; try reflexivity; [|eauto].
    exists []. symmetry. apply app_nil_r.
  - repeat split; try reflexivity; [|symmetry; apply app_nil_r].
    exists []. symmetry. apply app_nil_r.
Qed.

(** What the end of [process] does. *)
Lemma finish_effect (cfg : settings) (sv : services) (r : run_state) :
  let r' := finish cfg sv r in
  notion r' = notion r /\ processed_emails r' = processed_emails r /\
  missing_reports r' = missing_reports r /\ entries_created r' = entries_created r /\
  (exists said, logged r' = (logged r ++ said ++ summary_lines r')%list /\
                (missing_reports r <> [] -> In (missing_line r', LvError) said)) /\
  exists cs, mailbox_calls r' = (mailbox_calls r ++ cs ++ alert_calls cfg (missing_reports r))%list /\
             cleanup_of sv (map snd (processed_emails r)) cs.
Proof.
  cbv zeta. unfold finish. cbv zeta.
  set (r0 := say (LF ++ "Cleanup") LvInfo r).
  assert (R : notion r0 = notion r /\ processed_emails r0 = processed_emails r /\
              missing_reports r0 = missing_reports r /\
              entries_created r0 = entries_created r /\
              logged r0 = (logged r ++ [((LF ++ "Cleanup")%string, LvInfo)])%list /\
              mailbox_calls r0 = mailbox_calls r) by (repeat split; reflexivity).
  destruct R as (R1 & R2 & R3 & R4 & R5 & R6).
  destruct (cleanup_effect sv (processed_emails r0) r0)
    as (A1 & A2 & A3 & A4 & (l & A5) & cs & A6 & A7).
  set (r1 := fold_left _ (processed_emails r0) r0) in *. clearbody r1.
  rewrite R1 in A1. rewrite R2 in A2, A7. rewrite R3 in A3. rewrite R4 in A4.
  rewrite R5 in A5. rewrite R6 in A6. clear R1 R2 R3 R4 R5 R6. clearbody r0.
  set (r2 := match missing_reports r1 with [] => r1 | _ :: _ => _ end).
  assert (B : notion r2 = notion r /\ processed_emails r2 = processed_emails r /\
              missing_reports r2 = missing_reports r /\
              entries_created r2 = entries_created r /\
              (exists said, logged r2 = (logged r ++ said)%list /\
                 (missing_reports r <> [] ->
                  In ((LF ++ "Missing reports: " ++ Py.join ", " (missing_reports r))%string,
                      LvError) said)) /\
              mailbox_calls r2
              = (mailbox_calls r ++ cs ++ alert_calls cfg (missing_reports r))%list).
  { subst r2. rewrite A3. destruct (missing_reports r) as [|m ms] eqn:M.
    - repeat split; try assumption.
      + exists ([((LF ++ "Cleanup")%string, LvInfo)] ++ l)%list.
        split; [rewrite A5, <- app_assoc; reflexivity|].
        intros N. exfalso. apply N. reflexivity.
      + unfold alert_calls. rewrite app_nil_r. exact A6.
    - destruct (send_alert_effect cfg sv
                  (say (LF ++ "Missing reports: " ++ Py.join ", " (m :: ms)) LvError r1)
                  (m :: ms) ltac:(discriminate))
        as (C1 & C2 & C3 & C4 & (l' & C5) & C6).
      rewrite C1, C2, C3, C4, C5, C6.
      cbn [say notion processed_emails missing_reports entries_created logged mailbox_calls].
      rewrite A1, A2, A3, A4, A5, A6. repeat split; try reflexivity.
      + eexists. split; [rewrite <- !app_assoc; reflexivity|].
        intros _. apply in_or_app. right. apply in_or_app. right.
        apply in_or_app. left. left. reflexivity.
      + rewrite <- app_assoc. reflexivity. }
  clearbody r2. destruct B as (B1 & B2 & B3 & B4 & (said & B5 & B6) & B7).
  cbn [say notion processed_emails missing_reports entries_created logged mailbox_calls].
  repeat split; try assumption.
  - exists said. unfold summary_lines, missing_line.
    cbn [say notion processed_emails missing_reports entries_created logged mailbox_calls].
    rewrite B5, B3. split; [|exact B6].
    rewrite <- !app_assoc. reflexivity.
  - exists cs. split; [exact B7|exact A7].
Qed.

(** How [process] is made of its two halves and its end. *)
Lemma process_cases (cfg : settings) (sv : services) (rt : runtime) (db : store)
      (r : run_state) (e : ending) :
  process cfg sv rt db = (r, e) ->
  exists r1 e1,
    process_source1 cfg sv rt (say "Starting processing" LvSummary (start db)) = (r1, e1) /\
    ((r = r1 /\ e = e1 /\ exists x, e1 = Crashed x) \/
     (e1 = Completed /\
      exists r2 e2,
        process_source2 cfg sv rt r1 = (r2, e2) /\
        ((r = r2 /\ e = e2 /\ exists x, e2 = Crashed x) \/
         (e2 = Completed /\ r = finish cfg sv r2 /\ e = Completed)))).
Proof.
  unfold process. cbv zeta.
  destruct (process_source1 cfg sv rt _) as [r1 [|x]] eqn:E1.
  - destruct (process_source2 cfg sv rt r1) as [r2 [|x]] eqn:E2;
      intros H; apply pair_equal_spec in H; destruct H as [<- <-];
      exists r1, Completed; (split; [reflexivity|]); right; (split; [reflexivity|]).
    + exists r2, Completed. split; [exact E2|]. right. auto.
    + exists r2, (Crashed x). split; [exact E2|]. left. eauto.
  - intros H. apply pair_equal_spec in H. destruct H as [<- <-].
    exists r1, (Crashed x). split; [reflexivity|]. left. eauto.
Qed.

(** A run that completes: its two halves and what they did. *)
Lemma process_completed (cfg : settings) (sv : services) (rt : runtime) (db : store)
      (r : run_state) :
  process cfg sv rt db = (r, Completed) ->
  exists r1 r2,
    half_done cfg sv rt (source_name (csv1 cfg)) (report1_parsed cfg sv rt)
              (say "Starting processing" LvSummary (start db)) r1 Completed /\
    half_done cfg sv rt (source_name (csv2 cfg)) (report2_parsed cfg sv rt)
              r1 r2 Completed /\
    r = finish cfg sv r2.
Proof.
  intros H. apply process_cases in H.
  destruct H as (r1 & e1 & E1 & [(_ & <- & x & [=])|(-> & r2 & e2 & E2 & H)]).
  destruct H as [(_ & <- & x & [=])|(-> & -> & _)].
  exists r1, r2. split; [apply (process_source1_effect _ _ _ _ _ _ E1)|].
  split; [apply (process_source2_effect _ _ _ _ _ _ E2)|reflexivity].
Qed.

(** X20.  A run that completes accounts for both reports: each of the two
    sources is either processed, with the id of its message, or reported
    missing, never both and never neither, so that the numbers of the
    closing summary add up to two; and the log ends with the four summary
    lines, whose counts are those of the run. *)
Theorem process_accounts_for_both_reports (cfg : settings) (sv : services)
        (rt : runtime) (db : store) (r : run_state) :
  process cfg sv rt db = (r, Completed) ->
  let n1 := source_name (csv1 cfg) in
  let n2 := source_name (csv2 cfg) in
  ((exists i1 i2, processed_emails r = [(n1, i1); (n2, i2)] /\ missing_reports r = []) \/
   (exists i1, processed_emails r = [(n1, i1)] /\ missing_reports r = [n2]) \/
   (exists i2, processed_emails r = [(n2, i2)] /\ missing_reports r = [n1]) \/
   (processed_emails r = [] /\ missing_reports r = [n1; n2])) /\
  exists before, logged r = (before ++ summary_lines r)%list.
Proof.
  intros H. cbv zeta. apply process_completed in H.
  destruct H as (r1 & r2 & (_ & said1 & _ & H1) & (_ & said2 & _ & H2) & ->).
  destruct (finish_effect cfg sv r2) as (_ & F2 & F3 & _ & (said & F5 & _) & _).
  split.
  - rewrite F2, F3.
    destruct H1 as [(i1 & es1 & _ & _ & P1 & M1 & _)|(reason1 & _ & _ & _ & P1 & M1 & _)];
      destruct H2 as [(i2 & es2 & _ & _ & P2 & M2 & _)|(reason2 & _ & _ & _ & P2 & M2 & _)];
      rewrite P2, M2, P1, M1; cbn [say start processed_emails missing_reports app].
    + left. eauto.
    + right. left. eauto.
    + right. right. left. eauto.
    + right. right. right. auto.
  - exists (logged r2 ++ said)%list. rewrite F5, app_assoc. reflexivity.
Qed.

Lemma process_accounts_for_both_reports_witness :
  exists i1, processed_emails (fst daily_only_run) = [("Daily", i1)] /\
             missing_reports (fst daily_only_run) = ["Weekly"].
Proof.
  assert (H : process sample_settings (sample_services [Some "subject:daily"] (Text sample_csv))
                      sample_runtime [] = (fst daily_only_run, Completed))
    by (vm_compute; reflexivity).
  destruct (process_accounts_for_both_reports _ _ _ _ _ H) as [D _].
  destruct D as [(i1 & i2 & P & M)|[(i1 & P & M)|[(i2 & P & M)|(P & M)]]].
  - vm_compute in P. discriminate P.
  - exists i1. split; [exact P|exact M].
  - vm_compute in P. discriminate P.
  - vm_compute in P. discriminate P.
Defined.

(** The calls a completed run makes to change the mailbox: those of the
    cleanup, then the alert. *)
Lemma process_mailbox (cfg : settings) (sv : services) (rt : runtime) (db : store)
      (r : run_state) :
  process cfg sv rt db = (r, Completed) ->
  exists cs,
    mailbox_calls r = (cs ++ alert_calls cfg (missing_reports r))%list /\
    cleanup_of sv (map snd (processed_emails r)) cs.
Proof.
  intros H. apply process_completed in H.
  destruct H as (r1 & r2 & (M1 & _) & (M2 & _) & ->).
  destruct (finish_effect cfg sv r2) as (_ & F2 & F3 & _ & _ & cs & F6 & F7).
  exists cs. rewrite F2, F3, F6, M2, M1. split; [reflexivity|exact F7].
Qed.

(** X21.  A run that completes touches only the messages whose report
    it processed: each of them it tries to archive (to take out of the
    inbox), in the order they were processed; it tries to trash a message
    only after the mailbox answered 403 to archiving it; and a message
    whose report is missing is neither archived nor trashed. *)
Theorem cleanup_touches_only_processed (cfg : settings) (sv : services)
        (rt : runtime) (db : store) (r : run_state) :
  process cfg sv rt db = (r, Completed) ->
  (forall c, In c (mailbox_calls r) ->
     (exists raw, c = Send raw) \/
     exists msg_id, In msg_id (map snd (processed_emails r)) /\
       (c = Modify msg_id \/
        (c = Trash msg_id /\ exists done, gmail_modify sv done msg_id = Some 403))) /\
  (forall msg_id, In msg_id (map snd (processed_emails r)) ->
     In (Modify msg_id) (mailbox_calls r)).
Proof.
  intros H. destruct (process_mailbox cfg sv rt db r H) as (cs & E & C1 & C2).
  rewrite E. split.
  - intros c Hc. apply in_app_or in Hc. destruct Hc as [Hc|Hc]; [right; apply C1, Hc|].
    left. unfold alert_calls in Hc.
    destruct (missing_reports r); [destruct Hc|].
    destruct (truthy (alert_email cfg)); [|destruct Hc].
    destruct Hc as [<-|[]]. eauto.
  - intros i Hi. apply in_or_app. left. apply C2, Hi.
Qed.

Lemma cleanup_touches_only_processed_witness :
  (forall c, In c (mailbox_calls (fst daily_only_run)) ->
     (exists raw, c = Send raw) \/
     exists msg_id, In msg_id (map snd (processed_emails (fst daily_only_run))) /\
       (c = Modify msg_id \/
        (c = Trash msg_id /\
         exists done, gmail_modify (sample_services [Some "subject:daily"] (Text sample_csv))
                                   done msg_id = Some 403))) /\
  (forall msg_id, In msg_id (map snd (processed_emails (fst daily_only_run))) ->
     In (Modify msg_id) (mailbox_calls (fst daily_only_run))).
Proof.
  apply (cleanup_touches_only_processed sample_settings
           (sample_services [Some "subject:daily"] (Text sample_csv)) sample_runtime []).
  vm_compute. reflexivity.
Defined.

(** X22.  A run that completes sends at most one alert, as its last call
    to the mailbox: none when no report is missing or when [ALERT_EMAIL]
    is unset or empty, else one message whose [raw] field is the
    base64url form of the RFC 2822 text that is addressed to
    [ALERT_EMAIL] and names the missing reports, joined by [and]. *)
Theorem alert_sent_when_report_missing (cfg : settings) (sv : services)
        (rt : runtime) (db : store) (r : run_state) :
  process cfg sv rt db = (r, Completed) ->
  exists cs,
    mailbox_calls r = (cs ++ alert_calls cfg (missing_reports r))%list /\
    (forall raw, ~ In (Send raw) cs) /\
    (forall raw, In (Send raw) (mailbox_calls r) <->
       missing_reports r <> [] /\
       exists to, truthy (alert_email cfg) = Some to /\
         raw = Base64.urlsafe_b64encode
                 (Base64.encode (message_text to (missing_reports r)))).
Proof.
  intros H. destruct (process_mailbox cfg sv rt db r H) as (cs & E & C1 & _).
  assert (N : forall raw, ~ In (Send raw) cs).
  { intros raw Hin. destruct (C1 _ Hin) as (i & _ & [D|(D & _)]); discriminate D. }
  exists cs. split; [exact E|]. split; [exact N|].
  intros raw. rewrite E. unfold alert_calls. split.
  - intros Hin. apply in_app_or in Hin. destruct Hin as [Hin|Hin]; [destruct (N raw Hin)|].
    destruct (missing_reports r) as [|m ms]; [destruct Hin|].
    destruct (truthy (alert_email cfg)) as [to|]; [|destruct Hin].
    destruct Hin as [[= <-]|[]]. split; [discriminate|]. eauto.
  - intros (Hm & to & T & ->). apply in_or_app. right.
    destruct (missing_reports r) as [|m ms]; [contradiction|].
    rewrite T. left. reflexivity.
Qed.

Lemma alert_sent_when_report_missing_witness :
  exists cs,
    mailbox_calls (fst daily_only_run)
    = (cs ++ alert_calls sample_settings (missing_reports (fst daily_only_run)))%list /\
    (forall raw, ~ In (Send raw) cs) /\
    (forall raw, In (Send raw) (mailbox_calls (fst daily_only_run)) <->
       missing_reports (fst daily_only_run) <> [] /\
       exists to, truthy (alert_email sample_settings) = Some to /\
         raw = Base64.urlsafe_b64encode
                 (Base64.encode (message_text to (missing_reports (fst daily_only_run))))).
Proof.
  apply (alert_sent_when_report_missing sample_settings
           (sample_services [Some "subject:daily"] (Text sample_csv)) sample_runtime []).
  vm_compute. reflexivity.
Defined.

(** X23.  When a parser raises ([csv.Error] is the exception neither
    parser catches), the run stops there: nothing is archived or trashed,
    no alert is sent, the summary is not logged, and the script prints
    [Fatal error occurred] and exits with status 1.  The store is as the
    first report left it: untouched when no report was processed. *)
Theorem parser_error_aborts_run (cfg : settings) (sv : services) (rt : runtime)
        (db : store) (r : run_state) (x : exn) :
  process cfg sv rt db = (r, Crashed x) ->
  mailbox_calls r = [] /\
  main cfg sv rt db = ((stdout (quiet_mode cfg) (logged r) ++ ["Fatal error occurred"])%list, 1) /\
  (length (processed_emails r) <= 1)%nat /\
  (processed_emails r = [] -> notion r = db).
Proof.
  intros H. split; [|split; [unfold main; rewrite H; reflexivity|]];
    apply process_cases in H;
    destruct H as (r1 & e1 & E1 & [(-> & _ & y & ->)|(-> & r2 & e2 & E2 & H)]);
    apply process_source1_effect in E1; destruct E1 as (M1 & said1 & L1 & H1).
  - exact M1.
  - destruct H as [(-> & _ & y & ->)|(_ & _ & [=])].
    apply process_source2_effect in E2. destruct E2 as (M2 & _). rewrite M2. exact M1.
  - destruct H1 as (_ & P1 & _ & N1 & _). rewrite P1, N1. cbn. split; [lia|reflexivity].
  - destruct H as [(-> & _ & y & ->)|(_ & _ & [=])].
    apply process_source2_effect in E2.
    destruct E2 as (_ & said2 & _ & _ & P2 & _ & N2 & _).
    rewrite P2, N2.
    destruct H1 as [(i1 & es1 & _ & _ & P1 & _)|(reason & _ & _ & _ & P1 & _ & N1 & _)].
    + rewrite P1. cbn. split; [lia|discriminate].
    + rewrite P1, N1. cbn. split; [lia|reflexivity].
Qed.

Lemma parser_error_aborts_run_witness :
  mailbox_calls (fst crashed_run) = [] /\
  main sample_settings
       (sample_services [Some "subject:daily"; Some "subject:weekly"]
          (Text ("id,amt,date" ++ String "013" "1001,25.50,2024-03-01")))
       sample_runtime []
  = ((stdout (quiet_mode sample_settings) (logged (fst crashed_run))
      ++ ["Fatal error occurred"])%list, 1) /\
  (length (processed_emails (fst crashed_run)) <= 1)%nat /\
  (processed_emails (fst crashed_run) = [] -> notion (fst crashed_run) = []).
Proof.
  apply (parser_error_aborts_run sample_settings
           (sample_services [Some "subject:daily"; Some "subject:weekly"]
              (Text ("id,amt,date" ++ String "013" "1001,25.50,2024-03-01")))
           sample_runtime [] (fst crashed_run)
           (CsvError "new-line character seen in unquoted field")).
  vm_compute. reflexivity.
Defined.

Lemma half_keys_unique (cfg : settings) (sv : services) (rt : runtime) (name : string)
      (parsed : option (result (list entry))) (r r' : run_state) (e : ending) :
  queries_succeed (notion_raises sv) ->
  id_property (notion_names cfg) = "Order ID" ->
  id_property (notion_names cfg) <> date_property (notion_names cfg) ->
  id_property (notion_names cfg) <> checkbox_property (notion_names cfg) ->
  half_done cfg sv rt name parsed r r' e ->
  keys_unique (notion r) -> keys_unique (notion r').
Proof.
  intros Hq Hid Hd Hc (_ & said & _ & H) Hu. destruct e as [|x].
  - destruct H as [(i & es & _ & _ & _ & _ & N & _)|(reason & _ & _ & _ & _ & _ & N & _)];
      rewrite N; [apply sync_keys_unique; assumption|exact Hu].
  - destruct H as (_ & _ & _ & N & _). rewrite N. exact Hu.
Qed.

(** X24.  When no query of the store raises, with the id written under
    the name the key query reads, a store that holds at most one page per
    order number still does after a run, however the run ends, whatever
    the two reports hold and whichever writes to the store raise: no such
    run makes a duplicate, also when both reports carry the same order
    number or one report carries it twice. *)
Theorem process_keeps_keys_unique (cfg : settings) (sv : services) (rt : runtime)
        (db : store) :
  queries_succeed (notion_raises sv) ->
  id_property (notion_names cfg) = "Order ID" ->
  id_property (notion_names cfg) <> date_property (notion_names cfg) ->
  id_property (notion_names cfg) <> checkbox_property (notion_names cfg) ->
  keys_unique db ->
  keys_unique (notion (fst (process cfg sv rt db))).
Proof.
  intros Hq Hid Hd Hc Hu. destruct (process cfg sv rt db) as [r e] eqn:H. cbn [fst].
  apply process_cases in H.
  destruct H as (r1 & e1 & E1 & H).
  apply process_source1_effect in E1.
  assert (U1 : keys_unique (notion r1))
    by (apply (half_keys_unique cfg sv rt _ _ _ r1 e1 Hq Hid Hd Hc E1); exact Hu).
  destruct H as [(-> & _)|(_ & r2 & e2 & E2 & H)]; [exact U1|].
  apply process_source2_effect in E2.
  assert (U2 : keys_unique (notion r2))
    by (apply (half_keys_unique cfg sv rt _ _ r1 r2 e2 Hq Hid Hd Hc E2); exact U1).
  destruct H as [(-> & _)|(_ & -> & _)]; [exact U2|].
  destruct (finish_effect cfg sv r2) as (F1 & _). rewrite F1. exact U2.
Qed.

Lemma process_keeps_keys_unique_witness :
  keys_unique (notion (fst (process sample_settings
    (sample_services [Some "subject:daily"; Some "subject:weekly"] (Text sample_csv))
    sample_runtime [page_1001]))).
Proof.
  apply (process_keeps_keys_unique sample_settings).
  - intros done name k. reflexivity.
  - reflexivity.
  - discriminate.
  - discriminate.
  - intros k. unfold query. cbn [query_from].
    destruct (number_equals "Order ID" k page_1001); cbn; lia.
Defined.

Lemma stdout_error (quiet : bool) (message : string) (calls : list log_call) :
  In (message, LvError) calls -> In message (stdout quiet calls).
Proof.
  intros H. unfold stdout. apply in_flat_map. exists (message, LvError).
  split; [exact H|]. destruct quiet; left; reflexivity.
Qed.

(** X25.  A missing report is never silent: when a completed run counts
    a report as missing, the reason ([Email not found], [CSV link not
    found], [CSV download failed] or [CSV attachment not found]) and the
    line that names the missing reports are printed, in quiet mode as
    well as in verbose mode. *)
Theorem missing_report_is_printed (cfg : settings) (sv : services) (rt : runtime)
        (db : store) (r : run_state) (quiet : bool) :
  process cfg sv rt db = (r, Completed) ->
  missing_reports r <> [] ->
  In (missing_line r) (stdout quiet (logged r)) /\
  exists reason, In reason missing_reasons /\ In reason (stdout quiet (logged r)).
Proof.
  intros H Hm. apply process_completed in H.
  destruct H as (r1 & r2 & (_ & said1 & L1 & H1) & (_ & said2 & L2 & H2) & ->).
  destruct (finish_effect cfg sv r2) as (_ & _ & F3 & _ & (said & F5 & F6) & _).
  rewrite F3 in Hm. split.
  - apply stdout_error. rewrite F5. apply in_or_app. right. apply in_or_app. left.
    apply F6, Hm.
  - assert (G : exists reason, In reason missing_reasons /\ In (reason, LvError) (logged r2)).
    { destruct H2 as [(i2 & es2 & _ & _ & _ & M2 & _)|(reason & _ & R & S & _)].
      - destruct H1 as [(i1 & es1 & _ & _ & _ & M1 & _)|(reason & _ & R & S & _)].
        + exfalso. apply Hm. rewrite M2, M1. reflexivity.
        + exists reason. split; [exact R|]. rewrite L2, L1.
          apply in_or_app. left. apply in_or_app. right. exact S.
      - exists reason. split; [exact R|]. rewrite L2. apply in_or_app. right. exact S. }
    destruct G as (reason & R & S). exists reason. split; [exact R|].
    apply stdout_error. rewrite F5. apply in_or_app. left. exact S.
Qed.

Lemma missing_report_is_printed_witness :
  In (missing_line (fst daily_only_run)) (stdout true (logged (fst daily_only_run))) /\
  exists reason, In reason missing_reasons /\
                 In reason (stdout true (logged (fst daily_only_run))).
Proof.
  apply (missing_report_is_printed sample_settings
           (sample_services [Some "subject:daily"] (Text sample_csv)) sample_runtime []).
  - vm_compute. reflexivity.
  - vm_compute. discriminate.
Defined.

(** X26.  An empty download counts as a failed one: when the message is
    found, its link extracted and the request answered with an empty
    body, the first report is counted missing with the reason [CSV
    download failed], no record is synced, and the message, not being
    processed, is left in the inbox. *)
Theorem empty_download_counts_as_missing (cfg : settings) (sv : services)
        (rt : runtime) (r : run_state) (msg_id : string) (others : list string)
        (m : message) (url : string) :
  gmail_list sv (email1_query cfg) = Messages (msg_id :: others) ->
  msg_id <> EmptyString ->
  gmail_get sv msg_id = FullMessage m ->
  extract_csv_link (decode_lenient sv) m = Some url ->
  requests_get sv url = Text EmptyString ->
  exists r',
    process_source1 cfg sv rt r = (r', Completed) /\
    missing_reports r' = (missing_reports r ++ [source_name (csv1 cfg)])%list /\
    processed_emails r' = processed_emails r /\
    notion r' = notion r /\
    In ("CSV download failed", LvError) (logged r').
Proof.
  intros Hl Hid Hg He Hd. pose proof (extract_csv_link_nonempty _ _ _ He) as Hu.
  unfold process_source1, search_email, get_email_details, download_csv. cbv zeta.
  rewrite Hl. cbn [fst snd]. destruct msg_id as [|c i]; [contradiction|]. cbn [truthy].
  rewrite Hg. cbn [fst snd]. rewrite He. destruct url as [|c' u]; [contradiction|].
  cbn [truthy]. rewrite Hd. cbn [fst snd truthy].
  eexists. split; [reflexivity|].
  destruct (link_raises sv m);
    cbn [report_missing say says missing_reports processed_emails notion logged];
    repeat split; try reflexivity; apply in_or_app; right; left; reflexivity.
Qed.

Lemma empty_download_counts_as_missing_witness :
  exists r',
    process_source1 sample_settings
      (sample_services [Some "subject:daily"] (Text EmptyString)) sample_runtime (start [])
    = (r', Completed) /\
    missing_reports r' = ["Daily"] /\
    processed_emails r' = [] /\
    notion r' = [] /\
    In ("CSV download failed", LvError) (logged r').
Proof.
  apply (empty_download_counts_as_missing sample_settings
           (sample_services [Some "subject:daily"] (Text EmptyString)) sample_runtime
           (start []) "m1" [] sample_message "https://files.example.com/daily.csv").
  - reflexivity.
  - discriminate.
  - reflexivity.
  - vm_compute. reflexivity.
  - reflexivity.
Defined.

(** ** The attachment that is read *)

(** X27.  [extract_attachment] reads the first part, directly below the
    payload, that is named [.csv] and carries an attachment reference,
    and no other: what it returns is that attachment downloaded and
    decoded, or nothing when the download or the decoding fails, and the
    parts after it are never looked at, not even then. *)
Theorem first_csv_attachment_decides
        (get_attachment : string -> string -> option string)
        (decode_strict : string -> option string) (msg_id : string)
        (root : part) (pre post : list part) (p : part) (b : part_body) (att : string) :
  part_parts root = (pre ++ p :: post)%list ->
  forallb passed_over pre = true ->
  is_csv_name (part_filename p) = true ->
  part_body_of p = Some b ->
  attachmentId b = Some att ->
  att <> EmptyString ->
  extract_attachment get_attachment decode_strict msg_id (Some root)
  = match get_attachment msg_id att with
    | Some data => decode_strict data
    | None => None
    end.
Proof.
  intros Hr Hpre Hn Hb Ha Hatt. unfold extract_attachment. cbn [payload_parts].
  rewrite Hr. clear Hr. induction pre as [|q pre IH].
  - cbn [app scan_attachment]. rewrite Hn, Hb, Ha.
    destruct att as [|c t]; [contradiction|reflexivity].
  - cbn [forallb] in Hpre. apply andb_prop in Hpre. destruct Hpre as [Hq Hpre].
    cbn [app scan_attachment]. unfold passed_over in Hq.
    destruct (is_csv_name (part_filename q)); [|exact (IH Hpre)].
    destruct (part_body_of q) as [bq|]; [|discriminate].
    destruct (attachmentId bq) as [[|c t]|]; try discriminate; exact (IH Hpre).
Qed.

Lemma first_csv_attachment_decides_witness :
  extract_attachment (fun _ att => if (att =? "A1")%string then None else Some "x,y")
                     Some "m1"
    (Some (Part "multipart/mixed" "" None
             [Part "text/plain" "" (Some (mkbody (Some "aGk=") None)) [];
              Part "text/csv" "notes.csv" (Some (mkbody (Some "YQ==") None)) [];
              Part "text/csv" "first.csv" (Some (mkbody None (Some "A1"))) [];
              Part "text/csv" "second.csv" (Some (mkbody None (Some "A2"))) []]))
  = None.
Proof.
  exact (first_csv_attachment_decides
           (fun _ att => if (att =? "A1")%string then None else Some "x,y") Some "m1"
           (Part "multipart/mixed" "" None
              [Part "text/plain" "" (Some (mkbody (Some "aGk=") None)) [];
               Part "text/csv" "notes.csv" (Some (mkbody (Some "YQ==") None)) [];
               Part "text/csv" "first.csv" (Some (mkbody None (Some "A1"))) [];
               Part "text/csv" "second.csv" (Some (mkbody None (Some "A2"))) []])
           [Part "text/plain" "" (Some (mkbody (Some "aGk=") None)) [];
            Part "text/csv" "notes.csv" (Some (mkbody (Some "YQ==") None)) []]
           [Part "text/csv" "second.csv" (Some (mkbody None (Some "A2"))) []]
           (Part "text/csv" "first.csv" (Some (mkbody None (Some "A1"))) [])
           (mkbody None (Some "A1")) "A1"
           eq_refl eq_refl eq_refl eq_refl eq_refl ltac:(discriminate)).
Defined.

(** ** base64url: what is encoded decodes *)

Lemma string_ind3 (P : string -> Prop) :
  P EmptyString ->
  (forall a, P (String a EmptyString)) ->
  (forall a b, P (String a (String b EmptyString))) ->
  (forall a b c r, P r -> P (String a (String b (String c r)))) ->
  forall s, P s.
Proof.
  intros H0 H1 H2 H3. fix IH 1.
  intros [|a [|b [|c r]]]; [exact H0|apply H1|apply H2|apply H3, IH].
Qed.

Lemma digit_table :
  forallb (fun k => let n := N.of_nat k in
                    match Base64.value (Base64.digit n) with
                    | Some v => (v =? n)%N
                    | None => false
                    end &&
                    negb (Base64.digit n =? "=")%char &&
                    (Py.code (Base64.digit n) <? 128)%N)
          (seq 0 64) = true.
Proof. vm_compute. reflexivity. Qed.

(** A digit of the alphabet is read back as its value; it is no pad and
    it is an ASCII character. *)
Lemma digit_value (n : N) :
  (n < 64)%N ->
  Base64.value (Base64.digit n) = Some n /\
  (Base64.digit n =? "=")%char = false /\
  (Py.code (Base64.digit n) <? 128)%N = true.
Proof.
  intros H. pose proof digit_table as T. rewrite forallb_forall in T.
  specialize (T (N.to_nat n)). cbv zeta in T. rewrite N2Nat.id in T.
  assert (I : In (N.to_nat n) (seq 0 64)) by (apply in_seq; lia).
  apply T in I. apply andb_prop in I. destruct I as [I I3].
  apply andb_prop in I. destruct I as [I1 I2].
  destruct (Base64.value (Base64.digit n)) as [v|]; [|discriminate].
  apply N.eqb_eq in I1. subst v. apply negb_true_iff in I2. auto.
Qed.

Lemma a2b_digit (n : N) (r : string) (quad_pos : nat) (leftchar : N) (pads : nat)
      (out : string) :
  (n < 64)%N ->
  Base64.a2b_base64 (String (Base64.digit n) r) quad_pos leftchar pads out =
  match quad_pos with
  | 0%nat => Base64.a2b_base64 r 1 n 0 out
  | 1%nat => Base64.a2b_base64 r 2 (n mod 16)%N 0
                               (String (ascii_of_N (leftchar * 4 + n / 16)) out)
  | 2%nat => Base64.a2b_base64 r 3 (n mod 4)%N 0
                               (String (ascii_of_N (leftchar * 16 + n / 4)) out)
  | _ => Base64.a2b_base64 r 0 0%N 0 (String (ascii_of_N (leftchar * 64 + n)) out)
  end.
Proof.
  intros H. destruct (digit_value n H) as (V & E & _).
  cbn [Base64.a2b_base64]. rewrite E, V. reflexivity.
Qed.

Lemma byte_parts (x y : N) :
  (x < 256)%N -> (y < 256)%N ->
  (x / 4 < 64 /\ x mod 4 * 16 + y / 16 < 64 /\ x mod 16 * 4 + y / 64 < 64 /\
   x mod 64 < 64 /\ x mod 4 * 16 < 64 /\ x mod 16 * 4 < 64)%N.
Proof.
  intros Hx Hy.
  pose proof (N.mod_upper_bound x 4 ltac:(lia)).
  pose proof (N.mod_upper_bound x 16 ltac:(lia)).
  pose proof (N.mod_upper_bound x 64 ltac:(lia)).
  assert (x / 4 < 64)%N by (apply N.Div0.div_lt_upper_bound; lia).
  assert (y / 16 < 16)%N by (apply N.Div0.div_lt_upper_bound; lia).
  assert (y / 64 < 4)%N by (apply N.Div0.div_lt_upper_bound; lia).
  lia.
Qed.

(** The three bytes of a group, put together again from its digits. *)
Lemma byte_first (x y : N) :
  (y < 256)%N -> (x / 4 * 4 + (x mod 4 * 16 + y / 16) / 16 = x)%N.
Proof.
  intros Hy.
  assert (E : ((x mod 4 * 16 + y / 16) / 16 = x mod 4)%N).
  { rewrite N.div_add_l by lia. rewrite (N.div_small (y / 16)); [lia|].
    apply N.Div0.div_lt_upper_bound. lia. }
  rewrite E. pose proof (N.div_mod x 4 ltac:(lia)). lia.
Qed.

Lemma byte_second (x y z : N) :
  (y < 256)%N -> (z < 256)%N ->
  ((x mod 4 * 16 + y / 16) mod 16 * 16 + (y mod 16 * 4 + z / 64) / 4 = y)%N.
Proof.
  intros Hy Hz.
  assert (Y : ((x mod 4 * 16 + y / 16) mod 16 = y / 16)%N).
  { rewrite N.add_comm, N.Div0.mod_add. apply N.mod_small.
    apply N.Div0.div_lt_upper_bound. lia. }
  assert (E : ((y mod 16 * 4 + z / 64) / 4 = y mod 16)%N).
  { rewrite N.div_add_l by lia. rewrite (N.div_small (z / 64)); [lia|].
    apply N.Div0.div_lt_upper_bound. lia. }
  rewrite Y, E. pose proof (N.div_mod y 16 ltac:(lia)). lia.
Qed.

Lemma byte_third (y z : N) :
  (z < 256)%N -> ((y mod 16 * 4 + z / 64) mod 4 * 64 + z mod 64 = z)%N.
Proof.
  intros Hz.
  assert (Z : ((y mod 16 * 4 + z / 64) mod 4 = z / 64)%N).
  { rewrite N.add_comm, N.Div0.mod_add. apply N.mod_small.
    apply N.Div0.div_lt_upper_bound. lia. }
  rewrite Z. pose proof (N.div_mod z 64 ltac:(lia)). lia.
Qed.

Lemma code_bound (a : ascii) : (Py.code a < 256)%N.
Proof. apply N_ascii_bounded. Qed.

Lemma ascii_of_code (a : ascii) : ascii_of_N (Py.code a) = a.
Proof. apply ascii_N_embedding. Qed.

Lemma a2b_encoded (s : string) :
  forall (leftchar : N) (pads : nat) (out : string),
  Base64.a2b_base64 (Base64.urlsafe_b64encode s) 0 leftchar pads out
  = Some (Py.rev_string out s).
Proof.
  induction s as [|a|a b|a b c r IH] using string_ind3; intros leftchar pads out.
  - reflexivity.
  - cbn [Base64.urlsafe_b64encode]. cbv zeta.
    destruct (byte_parts (Py.code a) 0 (code_bound a) ltac:(lia)) as (B1 & _ & _ & _ & B5 & _).
    rewrite !a2b_digit by assumption. cbn [Base64.a2b_base64 Ascii.eqb Bool.eqb Nat.leb Nat.add].
    replace (Py.code a mod 4 * 16)%N with (Py.code a mod 4 * 16 + 0 / 16)%N
      by (rewrite N.Div0.div_0_l; lia).
    rewrite byte_first by lia. rewrite ascii_of_code. reflexivity.
  - cbn [Base64.urlsafe_b64encode]. cbv zeta.
    destruct (byte_parts (Py.code a) (Py.code b) (code_bound a) (code_bound b))
      as (B1 & B2 & _).
    destruct (byte_parts (Py.code b) 0 (code_bound b) ltac:(lia)) as (_ & _ & _ & _ & _ & B6).
    rewrite !a2b_digit by assumption. cbn [Base64.a2b_base64 Ascii.eqb Bool.eqb Nat.leb Nat.add].
    rewrite byte_first by apply code_bound.
    replace (Py.code b mod 16 * 4)%N with (Py.code b mod 16 * 4 + 0 / 64)%N
      by (rewrite N.Div0.div_0_l; lia).
    rewrite byte_second by (try apply code_bound; lia).
    rewrite !ascii_of_code. reflexivity.
  - cbn [Base64.urlsafe_b64encode]. cbv zeta.
    destruct (byte_parts (Py.code a) (Py.code b) (code_bound a) (code_bound b))
      as (B1 & B2 & _).
    destruct (byte_parts (Py.code b) (Py.code c) (code_bound b) (code_bound c))
      as (_ & _ & B3 & _).
    destruct (byte_parts (Py.code c) 0 (code_bound c) ltac:(lia)) as (_ & _ & _ & B4 & _).
    rewrite !a2b_digit by assumption.
    rewrite byte_first by apply code_bound.
    rewrite byte_second by apply code_bound.
    rewrite byte_third by apply code_bound.
    rewrite !ascii_of_code, IH. reflexivity.
Qed.

Lemma encoded_ascii (s : string) :
  Py.all_chars (fun c => (Py.code c <? 128)%N) (Base64.urlsafe_b64encode s) = true.
Proof.
  induction s as [|a|a b|a b c r IH] using string_ind3.
  - reflexivity.
  - cbn [Base64.urlsafe_b64encode]. cbv zeta.
    destruct (byte_parts (Py.code a) 0 (code_bound a) ltac:(lia)) as (B1 & _ & _ & _ & B5 & _).
    cbn [Py.all_chars].
    rewrite (proj2 (proj2 (digit_value _ B1))), (proj2 (proj2 (digit_value _ B5))).
    reflexivity.
  - cbn [Base64.urlsafe_b64encode]. cbv zeta.
    destruct (byte_parts (Py.code a) (Py.code b) (code_bound a) (code_bound b))
      as (B1 & B2 & _).
    destruct (byte_parts (Py.code b) 0 (code_bound b) ltac:(lia)) as (_ & _ & _ & _ & _ & B6).
    cbn [Py.all_chars].
    rewrite (proj2 (proj2 (digit_value _ B1))), (proj2 (proj2 (digit_value _ B2))),
      (proj2 (proj2 (digit_value _ B6))). reflexivity.
  - cbn [Base64.urlsafe_b64encode]. cbv zeta.
    destruct (byte_parts (Py.code a) (Py.code b) (code_bound a) (code_bound b))
      as (B1 & B2 & _).
    destruct (byte_parts (Py.code b) (Py.code c) (code_bound b) (code_bound c))
      as (_ & _ & B3 & _).
    destruct (byte_parts (Py.code c) 0 (code_bound c) ltac:(lia)) as (_ & _ & _ & B4 & _).
    cbn [Py.all_chars].
    rewrite (proj2 (proj2 (digit_value _ B1))), (proj2 (proj2 (digit_value _ B2))),
      (proj2 (proj2 (digit_value _ B3))), (proj2 (proj2 (digit_value _ B4))), IH.
    reflexivity.
Qed.

(** X28.  What [urlsafe_b64encode] writes, [urlsafe_b64decode] reads
    back: for every sequence of bytes, decoding its base64url form gives
    those bytes again.  So the [raw] field of the alert holds the whole
    message text, and data the mailbox encodes this way reaches the
    extractors unchanged. *)
Theorem base64url_round_trip (bytes : string) :
  Base64.urlsafe_b64decode (Base64.urlsafe_b64encode bytes) = Some bytes.
Proof.
  unfold Base64.urlsafe_b64decode. rewrite encoded_ascii.
  rewrite a2b_encoded. reflexivity.
Qed.

(** ** The records a run syncs *)

(** The two tests of a handler agree with the extractors: where the
    handler runs, the extractor returns nothing. *)
Lemma scan_raises_none (sv : services) (msg_id : string) (ps : list part) :
  scan_raises sv msg_id ps = true ->
  scan_attachment (gmail_attachment sv) (decode_strict sv) msg_id ps = None.
Proof.
  induction ps as [|p ps IH]; cbn [scan_raises scan_attachment]; [discriminate|].
  destruct (is_csv_name (part_filename p)); [|exact IH].
  destruct (part_body_of p) as [b|]; [|reflexivity].
  destruct (attachmentId b) as [[|c t]|]; try exact IH.
  destruct (gmail_attachment sv msg_id (String c t)) as [data|]; [|reflexivity].
  destruct (decode_strict sv data); [discriminate|reflexivity].
Qed.

Lemma link_raises_none (sv : services) (m : message) :
  link_raises sv m = true -> extract_csv_link (decode_lenient sv) m = None.
Proof.
  unfold link_raises, extract_csv_link.
  destruct (extract_bodies _ _ _) as [[h t]|]; [|reflexivity].
  destruct (_ && _); [|discriminate].
  destruct (Py.is_empty _); [discriminate|].
  destruct (decode_lenient sv _); [discriminate|reflexivity].
Qed.

Lemma half_synced (cfg : settings) (sv : services) (rt : runtime) (name : string)
      (parsed : option (result (list entry))) (r r' : run_state) :
  half_done cfg sv rt name parsed r r' Completed ->
  notion r' = sync_entries (notion_names cfg) rt (notion_raises sv) (store_calls r)
                           (notion r) (records_of parsed) /\
  store_calls r' = (store_calls r ++
                    sync_calls (notion_names cfg) rt (notion_raises sv) (store_calls r)
                               (notion r) (records_of parsed))%list /\
  entries_created r' = (entries_created r + length (records_of parsed))%nat.
Proof.
  intros (_ & said & _ & [(i & es & -> & _ & _ & _ & N & S & C)
                         |(reason & -> & _ & _ & _ & _ & N & S & C)]);
    cbn [records_of sync_entries sync_calls length].
  - auto.
  - rewrite N, S, C, app_nil_r. repeat split; try reflexivity. lia.
Qed.

Lemma archive_store_calls (sv : services) (r : run_state) (msg_id : string) :
  store_calls (archive_or_delete_email sv r msg_id) = store_calls r.
Proof.
  unfold archive_or_delete_email.
  destruct (gmail_modify sv _ msg_id) as [status|]; [|reflexivity].
  destruct (status =? 403); [|reflexivity].
  destruct (gmail_trash sv _ msg_id); reflexivity.
Qed.

Lemma cleanup_store_calls (sv : services) (ps : list (string * string)) :
  forall r : run_state,
  store_calls (fold_left (fun r p => archive_or_delete_email sv r (snd p)) ps r)
  = store_calls r.
Proof.
  induction ps as [|p ps IH]; intros r; cbn [fold_left]; [reflexivity|].
  rewrite IH. apply archive_store_calls.
Qed.

Lemma finish_store_calls (cfg : settings) (sv : services) (r : run_state) :
  store_calls (finish cfg sv r) = store_calls r.
Proof.
  unfold finish. cbv zeta. cbn [say store_calls].
  set (r1 := fold_left _ _ _).
  assert (E : store_calls r1 = store_calls r)
    by (subst r1; rewrite cleanup_store_calls; reflexivity).
  clearbody r1. destruct (missing_reports r1); [exact E|].
  unfold send_alert_email. destruct (truthy (alert_email cfg)); [|exact E].
  destruct (gmail_send sv _ _); exact E.
Qed.

(** X29.  What a completed run does to the store is one pass of
    [create_or_update_notion_entry] over the records the parsers
    returned: [parse_csv_source1] on the text downloaded from the link of
    the first message, [parse_csv_source2] on the attachment of the
    second, those of the first report before those of the second and
    none for a report that is missing.  The calls the run makes to the
    store are those of that pass and no other, and the count of the line
    [Entries synced] is the number of those records, whether or not the
    store step wrote each of them. *)
Theorem process_syncs_parsed_records (cfg : settings) (sv : services) (rt : runtime)
        (db : store) (r : run_state) :
  process cfg sv rt db = (r, Completed) ->
  let entries := (records_of (report1_parsed cfg sv rt) ++
                  records_of (report2_parsed cfg sv rt))%list in
  notion r = sync_entries (notion_names cfg) rt (notion_raises sv) [] db entries /\
  store_calls r = sync_calls (notion_names cfg) rt (notion_raises sv) [] db entries /\
  entries_created r = length entries.
Proof.
  intros H. cbv zeta. apply process_completed in H. destruct H as (r1 & r2 & H1 & H2 & ->).
  apply half_synced in H1, H2.
  destruct H1 as (N1 & S1 & C1). destruct H2 as (N2 & S2 & C2).
  cbn [say start notion store_calls entries_created app] in N1, S1, C1.
  destruct (finish_effect cfg sv r2) as (F1 & _ & _ & F4 & _).
  rewrite F1, F4, finish_store_calls, N2, S2, C2, N1, S1, C1.
  rewrite sync_entries_app, sync_calls_app, length_app. cbn [app].
  repeat split; reflexivity.
Qed.

Lemma process_syncs_parsed_records_witness :
  notion (fst full_run) =
    sync_entries default_notion_config sample_runtime no_faults [] []
      [mkentry "Daily" (Finite (51 # 2)) "1001" "2024-03-01";
       mkentry "Weekly" (Finite 5) "7" "2026-03-04"] /\
  store_calls (fst full_run) =
    sync_calls default_notion_config sample_runtime no_faults [] []
      [mkentry "Daily" (Finite (51 # 2)) "1001" "2024-03-01";
       mkentry "Weekly" (Finite 5) "7" "2026-03-04"] /\
  entries_created (fst full_run) = 2%nat.
Proof.
  assert (H : process sample_settings
                (sample_services [Some "subject:daily"; Some "subject:weekly"]
                                 (Text sample_csv))
                sample_runtime [] = (fst full_run, Completed))
    by (vm_compute; reflexivity).
  exact (process_syncs_parsed_records _ _ _ _ _ H).
Defined.
